(** * Floor-plan navigator: graph construction, path finding and reweighting

    A shallow embedding of the Python back end
    ([backend/graph_builder.py], [backend/pathfinder.py],
    [backend/src/johnson_pathfinder.py] and [generate_directions] of
    [backend/server.py]) together with the parts of the [networkx]
    graph class these files call.

    Conventions.
    - A Python [dict] keeps insertion order; it is an association list
      ([odict]) in which a key is updated in place or appended at the end.
    - Python numbers are abstracted by the classes [PyNum] and [PyMath];
      [Z] is the instance for Python [int], [pynum] the instance for the
      [int]/[float] tower (IEEE binary64 through primitive floats).  The
      geometry of [PyMath] raises what Python raises ([OverflowError],
      [ValueError]).
    - Code that may raise returns a [result]; code that mutates the graph
      it holds returns the final graph next to its outcome. *)

From Stdlib Require Import ZArith List String Bool Lia.
From Stdlib Require Import Sorting.Sorted Permutation.
From Stdlib Require Import Floats.PrimFloat Floats.SpecFloat Floats.FloatOps.
From Stdlib Require Import Floats.FloatAxioms.
Import ListNotations.

Open Scope string_scope.
Open Scope list_scope.
Open Scope Z_scope.

Set Implicit Arguments.

(* ================================================================== *)
(** ** Exceptions and results *)

Inductive exn : Type :=
| NetworkXNoPath (msg : string)
| NodeNotFound (msg : string)
| NetworkXUnbounded (msg : string)
| NetworkXError (msg : string)
| ValueError (msg : string)
| KeyError (key : string)
| OverflowError (msg : string)
| OtherError (msg : string).

(** [str(e)] *)
Definition exn_str (e : exn) : string :=
  match e with
  | NetworkXNoPath m | NodeNotFound m | NetworkXUnbounded m
  | NetworkXError m | ValueError m | OverflowError m | OtherError m => m
  | KeyError k => "'" ++ k ++ "'"
  end.

Inductive result (A : Type) : Type :=
| Ok (a : A)
| Raise (e : exn).
Arguments Ok {A} a.
Arguments Raise {A} e.

Definition bind {A B} (r : result A) (k : A -> result B) : result B :=
  match r with
  | Ok a => k a
  | Raise e => Raise e
  end.

Notation "x <- r ;; k" := (bind r (fun x => k))
  (at level 61, r at next level, right associativity).

(** A loop whose body may raise: the first exception ends it. *)
Fixpoint fold_result {S A} (f : S -> A -> result S) (l : list A) (s : S)
  : result S :=
  match l with
  | [] => Ok s
  | a :: r => s' <- f s a ;; fold_result f r s'
  end.

(* ================================================================== *)
(** ** Insertion-ordered dictionaries with string keys *)

Section OrderedDict.
Context {V : Type}.

Definition odict := list (string * V).

Fixpoint od_get (k : string) (d : odict) : option V :=
  match d with
  | [] => None
  | (k', v) :: r => if String.eqb k' k then Some v else od_get k r
  end.

Definition od_mem (k : string) (d : odict) : bool :=
  match od_get k d with Some _ => true | None => false end.

(** [d[k] = v]: an existing key keeps its place, a new one goes last. *)
Fixpoint od_set (k : string) (v : V) (d : odict) : odict :=
  match d with
  | [] => [(k, v)]
  | (k', v') :: r =>
      if String.eqb k' k then (k', v) :: r else (k', v') :: od_set k v r
  end.

(** [del d[k]] (callers only delete keys that are present). *)
Fixpoint od_del (k : string) (d : odict) : odict :=
  match d with
  | [] => []
  | (k', v') :: r =>
      if String.eqb k' k then r else (k', v') :: od_del k r
  end.

Definition od_keys (d : odict) : list string := map fst d.
End OrderedDict.
Arguments odict V : clear implicits.

(* ================================================================== *)
(** ** Python numbers *)

(** What the shortest-path code needs of a number: integer literals,
    [+], [-], [<], [<=] and [==]. *)
Class PyNum (num : Type) : Type := {
  of_Z : Z -> num;
  nadd : num -> num -> num;
  nsub : num -> num -> num;
  nltb : num -> num -> bool;
  nleb : num -> num -> bool;
  neqb : num -> num -> bool
}.

(** What the geometry needs on top: [-], [+] and [*] on coordinates,
    [math.sqrt] and the literal [1.2], each with the exception Python
    raises: an operation between an [int] and a [float] converts the
    [int] and raises [OverflowError] when it is too large for a [float];
    [math.sqrt] converts its argument in the same way and raises
    [ValueError] below zero. *)
Class PyMath (num : Type) : Type := {
  py_sub : num -> num -> result num;
  py_add : num -> num -> result num;
  py_mul : num -> num -> result num;
  math_sqrt : num -> result num;
  lit_1_2 : num
}.

#[export] Instance PyNum_Z : PyNum Z := {
  of_Z := fun z => z;
  nadd := Z.add;
  nsub := Z.sub;
  nltb := Z.ltb;
  nleb := Z.leb;
  neqb := Z.eqb
}.

(** The [int]/[float] tower.  [int] arithmetic is exact; an operation
    with a [float] operand converts the other one (round to nearest even)
    and works in binary64; comparisons between an [int] and a [float] are
    exact, as in Python.  The conversion of an [int] too large for a
    [float] raises [OverflowError]: [float_of_int] and the operations of
    [PyMath] do.  The sums and differences of edge weights in the
    shortest-path code ([nadd], [nsub]) are total, which is Python's
    arithmetic as long as no [int] weight beyond the range of a [float]
    meets a [float]; such an [int] is taken to an infinity there. *)
Inductive pynum : Type :=
| PyInt (z : Z)
| PyFloat (f : float).

Definition float_of_Z (z : Z) : float :=
  SF2Prim (binary_normalize prec emax z 0 false).

Definition to_float (a : pynum) : float :=
  match a with
  | PyInt z => float_of_Z z
  | PyFloat f => f
  end.

(** [float(z)]: the nearest float, or [OverflowError] when that is
    beyond the largest one. *)
Definition float_of_int (z : Z) : result float :=
  let f := float_of_Z z in
  if PrimFloat.is_infinity f
  then Raise (OverflowError "int too large to convert to float")
  else Ok f.

Definition as_float (a : pynum) : result float :=
  match a with
  | PyInt z => float_of_int z
  | PyFloat f => Ok f
  end.

(** Exact comparison of an integer with a float; [None] for a NaN. *)
Definition cmp_Z_float (z : Z) (f : float) : option comparison :=
  match Prim2SF f with
  | S754_nan => None
  | S754_infinity s => Some (if s then Gt else Lt)
  | S754_zero _ => Some (z ?= 0)
  | S754_finite s m e =>
      let v := if s then Z.neg m else Z.pos m in
      Some (if 0 <=? e then z ?= v * 2 ^ e else z * 2 ^ (- e) ?= v)
  end.

Definition cmp_float (f g : float) : option comparison :=
  match PrimFloat.compare f g with
  | FEq => Some Eq
  | FLt => Some Lt
  | FGt => Some Gt
  | FNotComparable => None
  end.

Definition py_cmp (a b : pynum) : option comparison :=
  match a, b with
  | PyInt x, PyInt y => Some (x ?= y)
  | PyInt x, PyFloat g => cmp_Z_float x g
  | PyFloat f, PyInt y => option_map CompOpp (cmp_Z_float y f)
  | PyFloat f, PyFloat g => cmp_float f g
  end.

Definition py_arith (fz : Z -> Z -> Z) (ff : float -> float -> float)
    (a b : pynum) : pynum :=
  match a, b with
  | PyInt x, PyInt y => PyInt (fz x y)
  | _, _ => PyFloat (ff (to_float a) (to_float b))
  end.

#[export] Instance PyNum_pynum : PyNum pynum := {
  of_Z := PyInt;
  nadd := py_arith Z.add PrimFloat.add;
  nsub := py_arith Z.sub PrimFloat.sub;
  nltb := fun a b => match py_cmp a b with Some Lt => true | _ => false end;
  nleb := fun a b =>
    match py_cmp a b with Some Lt | Some Eq => true | _ => false end;
  neqb := fun a b => match py_cmp a b with Some Eq => true | _ => false end
}.

(** [a op b] with its exception. *)
Definition py_op (fz : Z -> Z -> Z) (ff : float -> float -> float)
    (a b : pynum) : result pynum :=
  match a, b with
  | PyInt x, PyInt y => Ok (PyInt (fz x y))
  | _, _ => x <- as_float a ;; y <- as_float b ;; Ok (PyFloat (ff x y))
  end.

(** [math.sqrt(a)]: a NaN and [-0.0] are returned as they are. *)
Definition py_sqrt (a : pynum) : result pynum :=
  x <- as_float a ;;
  if PrimFloat.ltb x 0%float then Raise (ValueError "math domain error")
  else Ok (PyFloat (PrimFloat.sqrt x)).

#[export] Instance PyMath_pynum : PyMath pynum := {
  py_sub := py_op Z.sub PrimFloat.sub;
  py_add := py_op Z.add PrimFloat.add;
  py_mul := py_op Z.mul PrimFloat.mul;
  math_sqrt := py_sqrt;
  lit_1_2 := PyFloat 0x1.3333333333333p+0%float
}.

(* ================================================================== *)
(** ** The [networkx.Graph] class (undirected, simple) *)

Section Attributes.
Variable num : Type.

Record Pos : Type := { pos_x : num; pos_y : num }.

Record Bounds : Type :=
  { b_x : num; b_y : num; b_width : num; b_height : num }.

(** Attribute dictionary of a node: the keys the code ever sets. *)
Record NodeData : Type := {
  n_type : option string;
  n_name : option string;
  n_center : option Pos;
  n_bounds : option Bounds
}.

(** Attribute dictionary of an edge.  [position=None] is a key that is
    present with value [None], hence the nested option. *)
Record EdgeData : Type := {
  e_type : option string;
  e_weight : option num;
  e_door_id : option string;
  e_position : option (option Pos)
}.

Definition override {A} (old new : option A) : option A :=
  match new with Some _ => new | None => old end.

Definition no_node_data : NodeData :=
  {| n_type := None; n_name := None; n_center := None; n_bounds := None |}.

Definition no_edge_data : EdgeData :=
  {| e_type := None; e_weight := None; e_door_id := None;
     e_position := None |}.

(** [old.update(new)] *)
Definition node_update (old new : NodeData) : NodeData :=
  {| n_type := override (n_type old) (n_type new);
     n_name := override (n_name old) (n_name new);
     n_center := override (n_center old) (n_center new);
     n_bounds := override (n_bounds old) (n_bounds new) |}.

Definition edge_update (old new : EdgeData) : EdgeData :=
  {| e_type := override (e_type old) (e_type new);
     e_weight := override (e_weight old) (e_weight new);
     e_door_id := override (e_door_id old) (e_door_id new);
     e_position := override (e_position old) (e_position new) |}.

(** [_node] maps a node to its attributes, [_adj] a node to the
    dictionary of its neighbours.  In Python the two entries
    [_adj[u][v]] and [_adj[v][u]] hold one shared attribute dictionary;
    here every write to an edge stores the new record at both. *)
Record Graph : Type := {
  _node : odict NodeData;
  _adj : odict (odict EdgeData)
}.

Definition empty_graph : Graph := {| _node := []; _adj := [] |}.

Definition has_node (g : Graph) (n : string) : bool := od_mem n (_node g).

Definition nodes (g : Graph) : list string := od_keys (_node g).

Definition adj_of (a : odict (odict EdgeData)) (u : string)
  : odict EdgeData :=
  match od_get u a with Some d => d | None => [] end.

(** [G[u][v]] when the edge is there. *)
Definition edge_data (g : Graph) (u v : string) : option EdgeData :=
  match od_get u (_adj g) with
  | Some nbrs => od_get v nbrs
  | None => None
  end.

Definition has_edge (g : Graph) (u v : string) : bool :=
  match edge_data g u v with Some _ => true | None => false end.

(** [list(G.neighbors(n))], for a node of the graph. *)
Definition neighbors (g : Graph) (n : string) : list string :=
  od_keys (adj_of (_adj g) n).

(** [G.add_node(n, **attr)] *)
Definition add_node (n : string) (attr : NodeData) (g : Graph) : Graph :=
  match od_get n (_node g) with
  | None =>
      {| _node := od_set n (node_update no_node_data attr) (_node g);
         _adj := od_set n [] (_adj g) |}
  | Some old =>
      {| _node := od_set n (node_update old attr) (_node g);
         _adj := _adj g |}
  end.

(** The start of [add_edge]: an endpoint that is not a node yet is
    added with no attributes. *)
Definition ensure_node (n : string) (g : Graph) : Graph :=
  if has_node g n then g
  else {| _node := od_set n no_node_data (_node g);
          _adj := od_set n [] (_adj g) |}.

(** [G.add_edge(u, v, **attr)] *)
Definition add_edge (u v : string) (attr : EdgeData) (g : Graph) : Graph :=
  let g1 := ensure_node v (ensure_node u g) in
  let old := match od_get v (adj_of (_adj g1) u) with
             | Some d => d
             | None => no_edge_data
             end in
  let datadict := edge_update old attr in
  let a1 := od_set u (od_set v datadict (adj_of (_adj g1) u)) (_adj g1) in
  let a2 := od_set v (od_set u datadict (adj_of a1 v)) a1 in
  {| _node := _node g1; _adj := a2 |}.

(** A write through the attribute dictionary of the edge [u]-[v]
    (as [data[key] = ...] on the object [G.edges(data=True)] yields):
    both directions see it. *)
Definition set_edge_data (u v : string) (d : EdgeData) (g : Graph) : Graph :=
  let a1 := od_set u (od_set v d (adj_of (_adj g) u)) (_adj g) in
  {| _node := _node g;
     _adj := od_set v (od_set u d (adj_of a1 v)) a1 |}.

(** [G.remove_node(n)] *)
Definition remove_node (n : string) (g : Graph) : result Graph :=
  match od_get n (_adj g) with
  | None =>
      Raise (NetworkXError ("The node " ++ n ++ " is not in the graph."))
  | Some nbrs =>
      let a1 := fold_left
                  (fun a u => od_set u (od_del n (adj_of a u)) a)
                  (od_keys nbrs) (_adj g) in
      Ok {| _node := od_del n (_node g); _adj := od_del n a1 |}
  end.

(** [G.edges(data=True)]: every edge once, from the endpoint that comes
    first in node order. *)
Fixpoint edges_from (seen : list string) (a : odict (odict EdgeData))
  : list (string * string * EdgeData) :=
  match a with
  | [] => []
  | (n, nbrs) :: rest =>
      map (fun kv => (n, fst kv, snd kv))
          (filter (fun kv => negb (existsb (String.eqb (fst kv)) seen)) nbrs)
      ++ edges_from (n :: seen) rest
  end.

Definition edges (g : Graph) : list (string * string * EdgeData) :=
  edges_from [] (_adj g).

Definition number_of_nodes (g : Graph) : nat := List.length (_node g).
Definition number_of_edges (g : Graph) : nat := List.length (edges g).
End Attributes.

Arguments no_node_data {num}.
Arguments no_edge_data {num}.
Arguments empty_graph {num}.

(* ================================================================== *)
(** ** [backend/graph_builder.py]: class [GraphBuilder] *)

Section GraphBuilder.
Context {num : Type} {NumOps : PyNum num} {MathOps : PyMath num}.

(** The floor description: [rooms] and [doors] of the JSON file. *)
Record Room : Type := {
  room_id : string;
  room_name : string;
  room_center : Pos num;
  room_bounds : Bounds num
}.

Record Door : Type := {
  door_id : string;
  door_position : Pos num;
  door_connects : option (list string)
}.

Record FloorData : Type := {
  floor_id : option string;
  floor_number : option Z;
  rooms : option (list Room);
  doors : option (list Door)
}.

(** [not self.floor_data]: the dictionary has no key at all. *)
Definition floor_data_empty (fd : FloorData) : bool :=
  match floor_id fd, floor_number fd, rooms fd, doors fd with
  | None, None, None, None => true
  | _, _, _, _ => false
  end.

Definition _calculate_distance (pos1 pos2 : Pos num) : result num :=
  dx <- py_sub (pos_x pos1) (pos_x pos2) ;;
  dy <- py_sub (pos_y pos1) (pos_y pos2) ;;
  dx2 <- py_mul dx dx ;;
  dy2 <- py_mul dy dy ;;
  s <- py_add dx2 dy2 ;;
  math_sqrt s.

Definition room_node (room : Room) : NodeData num :=
  {| n_type := Some "room";
     n_name := Some (room_name room);
     n_center := Some (room_center room);
     n_bounds := Some (room_bounds room) |}.

Definition _add_room_nodes (fd : FloorData) (g : Graph num) : Graph num :=
  match rooms fd with
  | None => g
  | Some rs =>
      fold_left (fun g room => add_node (room_id room) (room_node room) g)
                rs g
  end.

(** The attributes of a door's edge, [distance] being its weight. *)
Definition door_edge (door : Door) (distance : num) : EdgeData num :=
  {| e_type := Some "door";
     e_weight := Some distance;
     e_door_id := Some (door_id door);
     e_position := Some (Some (door_position door)) |}.

(** Body of the loop over the doors. *)
Definition add_door (g : Graph num) (door : Door) : result (Graph num) :=
  match door_connects door with
  | Some [room1_id; room2_id] =>
      distance <- _calculate_distance (door_position door)
                    (door_position door) ;;
      Ok (add_edge room1_id room2_id (door_edge door distance) g)
  | _ => Ok g
  end.

Definition _add_door_connections (fd : FloorData) (g : Graph num)
  : result (Graph num) :=
  match doors fd with
  | None => Ok g
  | Some ds => fold_result add_door ds g
  end.

(** The attributes of a corridor, [weight] being [distance * 1.2]. *)
Definition corridor_edge (weight : num) : EdgeData num :=
  {| e_type := Some "corridor";
     e_weight := Some weight;
     e_door_id := None;
     e_position := Some None |}.

(** Body of the inner loop over [rooms[i+1:]]. *)
Definition add_corridor (room1 : Room) (g : Graph num) (room2 : Room)
  : result (Graph num) :=
  if has_edge g (room_id room1) (room_id room2) then Ok g
  else
    distance <- _calculate_distance (room_center room1)
                  (room_center room2) ;;
    if nltb distance (of_Z 200) then
      weight <- py_mul distance lit_1_2 ;;
      Ok (add_edge (room_id room1) (room_id room2) (corridor_edge weight) g)
    else Ok g.

Fixpoint corridor_pairs (rs : list Room) (g : Graph num)
  : result (Graph num) :=
  match rs with
  | [] => Ok g
  | room1 :: rest =>
      g' <- fold_result (add_corridor room1) rest g ;;
      corridor_pairs rest g'
  end.

Definition _add_corridor_connections (fd : FloorData) (g : Graph num)
  : result (Graph num) :=
  match rooms fd with
  | None => Ok g
  | Some rs => corridor_pairs rs g
  end.

(** [build_graph]: the builder's graph is cleared first, so the result
    depends on the floor data only. *)
Definition build_graph (fd : FloorData) : result (Graph num) :=
  if floor_data_empty fd then Raise (ValueError "No floor data provided")
  else
    let g := empty_graph in
    let g := _add_room_nodes fd g in
    g <- _add_door_connections fd g ;;
    g <- _add_corridor_connections fd g ;;
    Ok g.

Definition get_room_connections (g : Graph num) (room_id : string)
  : list string :=
  if has_node g room_id then neighbors g room_id else [].

Definition get_connection_type (g : Graph num) (room1_id room2_id : string)
  : option string :=
  match edge_data g room1_id room2_id with
  | None => None
  | Some d => e_type d
  end.
End GraphBuilder.

Arguments Room num : clear implicits.
Arguments Door num : clear implicits.
Arguments FloorData num : clear implicits.

(** The sample data of [graph_builder.py]'s own test: two rooms, one
    door. *)
Definition pos (a b : Z) : Pos pynum := {| pos_x := PyInt a; pos_y := PyInt b |}.

Definition box (a b w h : Z) : Bounds pynum :=
  {| b_x := PyInt a; b_y := PyInt b; b_width := PyInt w; b_height := PyInt h |}.

Definition sample_rooms : list (Room pynum) :=
  [ {| room_id := "101"; room_name := "Room 101";
       room_center := pos 100 100; room_bounds := box 50 50 100 100 |};
    {| room_id := "102"; room_name := "Room 102";
       room_center := pos 300 100; room_bounds := box 250 50 100 100 |} ].

Definition sample_data : FloorData pynum :=
  {| floor_id := Some "test_floor"; floor_number := None;
     rooms := Some sample_rooms;
     doors := Some [ {| door_id := "d1"; door_position := pos 200 100;
                        door_connects := Some ["101"; "102"] |} ] |}.

(** Numbers that are neither an infinity nor a NaN. *)
Definition finite_float (f : float) : bool :=
  match Prim2SF f with
  | S754_zero _ | S754_finite _ _ _ => true
  | _ => false
  end.

Definition finite_num (a : pynum) : bool :=
  match a with
  | PyInt _ => true
  | PyFloat f => finite_float f
  end.

Definition finite_pos (p : Pos pynum) : bool :=
  finite_num (pos_x p) && finite_num (pos_y p).

(** The doors the loop of [_add_door_connections] does not skip. *)
Definition two_rooms {num} (door : Door num) : bool :=
  match door_connects door with
  | Some [_; _] => true
  | _ => false
  end.

Definition only_two_room_doors {num} (fd : FloorData num) : FloorData num :=
  {| floor_id := floor_id fd; floor_number := floor_number fd;
     rooms := rooms fd;
     doors := option_map (filter two_rooms) (doors fd) |}.

(** The same floor with the door at an infinite abscissa: [Infinity] in
    the JSON file. *)
Definition infinite_door_data : FloorData pynum :=
  {| floor_id := Some "test_floor"; floor_number := None;
     rooms := Some sample_rooms;
     doors := Some [ {| door_id := "d1";
                        door_position := {| pos_x := PyFloat infinity;
                                            pos_y := PyInt 100 |};
                        door_connects := Some ["101"; "102"] |} ] |}.

(** The same floor with a door that names a room that is not listed. *)
Definition dangling_door_data : FloorData pynum :=
  {| floor_id := Some "test_floor"; floor_number := None;
     rooms := Some sample_rooms;
     doors := Some [ {| door_id := "d9"; door_position := pos 200 100;
                        door_connects := Some ["101"; "999"] |} ] |}.

(* ================================================================== *)
(** ** The [networkx] algorithms the back end calls

    The interface first: a call returns a value or raises.  [PathFinder]
    and [JohnsonPathfinder] below are written against it. *)

Class NetworkX (num : Type) : Type := {
  (** [nx.shortest_path(G, source, target, weight=...)];
      [weight = None] is the two-argument call. *)
  nx_shortest_path :
    Graph num -> string -> string -> option string -> result (list string);
  (** [nx.shortest_path_length(G, source, target, weight=...)] *)
  nx_shortest_path_length :
    Graph num -> string -> string -> option string -> result num;
  (** [nx.astar_path(G, source, target, heuristic=..., weight='weight')] *)
  nx_astar_path :
    Graph num -> string -> string -> (string -> string -> result num) ->
    result (list string);
  (** [nx.astar_path_length(...)] *)
  nx_astar_path_length :
    Graph num -> string -> string -> (string -> string -> result num) ->
    result num;
  (** [list(nx.all_simple_paths(G, source, target, cutoff=...))] *)
  nx_all_simple_paths :
    Graph num -> string -> string -> nat -> result (list (list string));
  (** [nx.single_source_bellman_ford_path_length(G, source)] *)
  nx_single_source_bellman_ford_path_length :
    Graph num -> string -> result (odict num)
}.

(** Loops run on a step budget: [iterate] gives [None] when the budget
    ends before the loop does. *)
Inductive step_out (S R : Type) : Type :=
| Continue (s : S)
| Done (r : R).
Arguments Continue {S R} s.
Arguments Done {S R} r.

Fixpoint iterate {S R : Type} (step : S -> step_out S R) (fuel : nat) (s : S)
  : option R :=
  match fuel with
  | O => None
  | Datatypes.S fuel' =>
      match step s with
      | Done r => Some r
      | Continue s' => iterate step fuel' s'
      end
  end.

(** A loop that outlives its budget is reported as Python's
    [MemoryError] (an [Exception]). *)
Definition out_of_budget {A} : result A := Raise (OtherError "MemoryError").

Definition run {A} (o : option (result A)) : result A :=
  match o with Some r => r | None => out_of_budget end.

Section NxModel.
Context {num : Type} {NumOps : PyNum num}.

(** [_weight_function(G, 'weight')]: [data.get('weight', 1)]. *)
Definition weight_of (d : EdgeData num) : num :=
  match e_weight d with Some w => w | None => of_Z 1 end.

(** *** [heapq] on entries [(priority, next(c), payload)]

    The counter makes the entries pairwise different, so [heappop]
    returns the least entry for Python's tuple order; the heap is kept
    as a plain list and the least entry is searched for. *)
Section Heap.
Variable P : Type.

Definition entry : Type := (num * nat * P)%type.

Definition entry_lt (a b : entry) : bool :=
  let '(ka, ca, _) := a in
  let '(kb, cb, _) := b in
  if neqb ka kb then Nat.ltb ca cb else nltb ka kb.

Definition heappush (h : list entry) (e : entry) : list entry := h ++ [e].

Fixpoint least (m : entry) (h : list entry) : entry :=
  match h with
  | [] => m
  | e :: r => least (if entry_lt e m then e else m) r
  end.

Definition same_count (m e : entry) : bool :=
  Nat.eqb (snd (fst m)) (snd (fst e)).

Definition heappop (h : list entry) : option (entry * list entry) :=
  match h with
  | [] => None
  | e :: r =>
      let m := least e r in
      Some (m, filter (fun e' => negb (same_count m e')) h)
  end.
End Heap.

(** *** [bidirectional_dijkstra] *)

Record side : Type := {
  dists : odict num;
  paths : odict (list string);
  fringe : list (entry string);
  seen : odict num
}.

Record bidir : Type := {
  fwd : side;
  bwd : side;
  counter : nat;
  finaldist : option num;
  finalpath : list string;
  dir : bool            (* [false] is Python's 0, the forward direction *)
}.

Definition this_side (d : bool) (st : bidir) : side :=
  if d then bwd st else fwd st.

Definition with_side (d : bool) (sd : side) (st : bidir) : bidir :=
  if d
  then {| fwd := fwd st; bwd := sd; counter := counter st;
          finaldist := finaldist st; finalpath := finalpath st;
          dir := dir st |}
  else {| fwd := sd; bwd := bwd st; counter := counter st;
          finaldist := finaldist st; finalpath := finalpath st;
          dir := dir st |}.

Definition get_path (k : string) (d : odict (list string)) : list string :=
  match od_get k d with Some p => p | None => [] end.

(** The body of [for w, d in neighs[dir][v].items()]. *)
Definition bidir_relax (d : bool) (v : string) (dist : num)
    (st : bidir) (wd : string * EdgeData num) : result bidir :=
  let '(w, data) := wd in
  let cost := weight_of data in
  let vwLength := nadd dist cost in
  let sd := this_side d st in
  match od_get w (dists sd) with
  | Some dw =>
      if nltb vwLength dw
      then Raise (ValueError "Contradictory paths found: negative weights?")
      else Ok st
  | None =>
      let better := match od_get w (seen sd) with
                    | None => true
                    | Some sw => nltb vwLength sw
                    end in
      if better then
        let sd' := {| dists := dists sd;
                      paths := od_set w (get_path v (paths sd) ++ [w])
                                      (paths sd);
                      fringe := heappush (fringe sd)
                                  (vwLength, counter st, w);
                      seen := od_set w vwLength (seen sd) |} in
        let st1 := with_side d sd' st in
        let st2 := {| fwd := fwd st1; bwd := bwd st1;
                      counter := Datatypes.S (counter st1);
                      finaldist := finaldist st1;
                      finalpath := finalpath st1; dir := dir st1 |} in
        match od_get w (seen (fwd st2)), od_get w (seen (bwd st2)) with
        | Some s0, Some s1 =>
            let totaldist := nadd s0 s1 in
            let improve :=
              match finalpath st2, finaldist st2 with
              | [], _ => true
              | _, Some fd => nltb totaldist fd
              | _, None => true
              end in
            if improve then
              let revpath := rev (get_path w (paths (bwd st2))) in
              Ok {| fwd := fwd st2; bwd := bwd st2; counter := counter st2;
                    finaldist := Some totaldist;
                    finalpath := get_path w (paths (fwd st2)) ++ tl revpath;
                    dir := dir st2 |}
            else Ok st2
        | _, _ => Ok st2
        end
      else Ok st
  end.

Definition no_path_between (source target : string) : exn :=
  NetworkXNoPath ("No path between " ++ source ++ " and " ++ target ++ ".").

(** One turn of [while fringe[0] and fringe[1]]. *)
Definition bidir_step (g : Graph num) (source target : string) (st : bidir)
  : step_out bidir (result (num * list string)) :=
  match fringe (fwd st), fringe (bwd st) with
  | [], _ | _, [] => Done (Raise (no_path_between source target))
  | _ :: _, _ :: _ =>
      let d := negb (dir st) in
      let st := {| fwd := fwd st; bwd := bwd st; counter := counter st;
                   finaldist := finaldist st; finalpath := finalpath st;
                   dir := d |} in
      let sd := this_side d st in
      match heappop (fringe sd) with
      | None => Done (Raise (no_path_between source target))
      | Some ((dist, _, v), rest) =>
          let sd := {| dists := dists sd; paths := paths sd;
                       fringe := rest; seen := seen sd |} in
          let st := with_side d sd st in
          if od_mem v (dists sd) then Continue st
          else
            let sd := {| dists := od_set v dist (dists sd);
                         paths := paths sd; fringe := fringe sd;
                         seen := seen sd |} in
            let st := with_side d sd st in
            if od_mem v (dists (this_side (negb d) st)) then
              Done (match finaldist st with
                    | Some fd => Ok (fd, finalpath st)
                    | None => Raise (OtherError "UnboundLocalError")
                    end)
            else
              match fold_result (bidir_relax d v dist)
                      (adj_of (_adj g) v) st with
              | Ok st' => Continue st'
              | Raise e => Done (Raise e)
              end
      end
  end.

Definition bidirectional_dijkstra (fuel : nat) (g : Graph num)
    (source target : string) : result (num * list string) :=
  if negb (has_node g source)
  then Raise (NodeNotFound ("Source " ++ source ++ " is not in G"))
  else if negb (has_node g target)
  then Raise (NodeNotFound ("Target " ++ target ++ " is not in G"))
  else if String.eqb source target then Ok (of_Z 0, [source])
  else
    let init := {|
      fwd := {| dists := []; paths := [(source, [source])];
                fringe := [(of_Z 0, 0%nat, source)];
                seen := [(source, of_Z 0)] |};
      bwd := {| dists := []; paths := [(target, [target])];
                fringe := [(of_Z 0, 1%nat, target)];
                seen := [(target, of_Z 0)] |};
      counter := 2; finaldist := None; finalpath := []; dir := true |} in
    run (iterate (bidir_step g source target) fuel init).

(** *** [dijkstra_path_length], through [_dijkstra_multisource] *)

Record dijkstra_state : Type := {
  dj_dist : odict num;
  dj_seen : odict num;
  dj_fringe : list (entry string);
  dj_count : nat
}.

Definition dijkstra_relax (dv : num) (st : dijkstra_state)
    (ue : string * EdgeData num) : result dijkstra_state :=
  let '(u, e) := ue in
  let cost := weight_of e in
  let vu_dist := nadd dv cost in
  match od_get u (dj_dist st) with
  | Some u_dist =>
      if nltb vu_dist u_dist
      then Raise (ValueError "Contradictory paths found: negative weights?")
      else Ok st
  | None =>
      let better := match od_get u (dj_seen st) with
                    | None => true
                    | Some su => nltb vu_dist su
                    end in
      if better then
        Ok {| dj_dist := dj_dist st;
              dj_seen := od_set u vu_dist (dj_seen st);
              dj_fringe := heappush (dj_fringe st) (vu_dist, dj_count st, u);
              dj_count := Datatypes.S (dj_count st) |}
      else Ok st
  end.

(** One turn of [while fringe]; the loop ends with the dictionary of
    final distances. *)
Definition dijkstra_step (g : Graph num) (target : string)
    (st : dijkstra_state) : step_out dijkstra_state (result (odict num)) :=
  match heappop (dj_fringe st) with
  | None => Done (Ok (dj_dist st))
  | Some ((d, _, v), rest) =>
      let st := {| dj_dist := dj_dist st; dj_seen := dj_seen st;
                   dj_fringe := rest; dj_count := dj_count st |} in
      if od_mem v (dj_dist st) then Continue st
      else
        let st := {| dj_dist := od_set v d (dj_dist st);
                     dj_seen := dj_seen st; dj_fringe := dj_fringe st;
                     dj_count := dj_count st |} in
        if String.eqb v target then Done (Ok (dj_dist st))
        else
          match fold_result (dijkstra_relax d) (adj_of (_adj g) v) st with
          | Ok st' => Continue st'
          | Raise e => Done (Raise e)
          end
  end.

Definition dijkstra_path_length (fuel : nat) (g : Graph num)
    (source target : string) : result num :=
  if negb (has_node g source)
  then Raise (NodeNotFound ("Node " ++ source ++ " not found in graph"))
  else if String.eqb source target then Ok (of_Z 0)
  else
    let init := {| dj_dist := []; dj_seen := [(source, of_Z 0)];
                   dj_fringe := [(of_Z 0, 0%nat, source)];
                   dj_count := 1 |} in
    length <- run (iterate (dijkstra_step g target) fuel init) ;;
    match od_get target length with
    | Some d => Ok d
    | None =>
        Raise (NetworkXNoPath
                 ("Node " ++ target ++ " not reachable from " ++ source))
    end.

(** *** [bidirectional_shortest_path] (breadth first, no weights) *)

Record bfs_state : Type := {
  bfs_pred : odict (option string);
  bfs_succ : odict (option string);
  forward_fringe : list string;
  reverse_fringe : list string
}.

Inductive meet : Type :=
| Met (mine : odict (option string)) (w : string)
| Level (mine : odict (option string)) (next : list string).

(** The neighbours [w] of one node [v] of the level, in order; the
    searches meet at the first [w] the other side has reached. *)
Fixpoint expand_nbrs (v : string) (nbrs : list string)
    (mine other : odict (option string)) (next : list string) : meet :=
  match nbrs with
  | [] => Level mine next
  | w :: r =>
      let '(mine, next) :=
        if od_mem w mine then (mine, next)
        else (od_set w (Some v) mine, next ++ [w]) in
      if od_mem w other then Met mine w
      else expand_nbrs v r mine other next
  end.

Fixpoint expand_level (g : Graph num) (level : list string)
    (mine other : odict (option string)) (next : list string) : meet :=
  match level with
  | [] => Level mine next
  | v :: r =>
      match expand_nbrs v (neighbors g v) mine other next with
      | Met mine' w => Met mine' w
      | Level mine' next' => expand_level g r mine' other next'
      end
  end.

Definition bfs_step (g : Graph num) (source target : string) (st : bfs_state)
  : step_out bfs_state
      (result (odict (option string) * odict (option string) * string)) :=
  match forward_fringe st, reverse_fringe st with
  | [], _ | _, [] => Done (Raise (no_path_between source target))
  | _ :: _, _ :: _ =>
      if Nat.leb (List.length (forward_fringe st))
                 (List.length (reverse_fringe st))
      then
        match expand_level g (forward_fringe st)
                (bfs_pred st) (bfs_succ st) [] with
        | Met pred' w => Done (Ok (pred', bfs_succ st, w))
        | Level pred' next =>
            Continue {| bfs_pred := pred'; bfs_succ := bfs_succ st;
                        forward_fringe := next;
                        reverse_fringe := reverse_fringe st |}
        end
      else
        match expand_level g (reverse_fringe st)
                (bfs_succ st) (bfs_pred st) [] with
        | Met succ' w => Done (Ok (bfs_pred st, succ', w))
        | Level succ' next =>
            Continue {| bfs_pred := bfs_pred st; bfs_succ := succ';
                        forward_fringe := forward_fringe st;
                        reverse_fringe := next |}
        end
  end.

(** [while w is not None: path.append(w); w = link[w]] *)
Fixpoint follow (fuel : nat) (link : odict (option string))
    (w : option string) : result (list string) :=
  match w with
  | None => Ok []
  | Some n =>
      match fuel with
      | O => out_of_budget
      | Datatypes.S fuel' =>
          match od_get n link with
          | None => Raise (KeyError n)
          | Some next => r <- follow fuel' link next ;; Ok (n :: r)
          end
      end
  end.

Definition bidirectional_shortest_path (fuel : nat) (g : Graph num)
    (source target : string) : result (list string) :=
  if negb (has_node g source)
  then Raise (NodeNotFound ("Source " ++ source ++ " is not in G"))
  else if negb (has_node g target)
  then Raise (NodeNotFound ("Target " ++ target ++ " is not in G"))
  else
    res <-
      (if String.eqb target source
       then Ok ([(target, None)], [(source, None)], source)
       else
         run (iterate (bfs_step g source target) fuel
                {| bfs_pred := [(source, None)];
                   bfs_succ := [(target, None)];
                   forward_fringe := [source];
                   reverse_fringe := [target] |})) ;;
    let '(pred, succ, w) := res in
    back <- follow (Datatypes.S (List.length pred)) pred (Some w) ;;
    let path := rev back in
    match od_get (last path w) succ with
    | None => Raise (KeyError (last path w))
    | Some next =>
        front <- follow (Datatypes.S (List.length succ)) succ next ;;
        Ok (path ++ front)
    end.

(** *** [astar_path] and [astar_path_length] *)

Record astar_state : Type := {
  (* payload of a queue entry: node, cost to reach it, parent *)
  queue : list (entry (string * num * option string));
  enqueued : odict (num * num);
  explored : odict (option string);
  as_count : nat
}.

(** The body of [for neighbor, w in G_succ[curnode].items()]; the
    heuristic is the caller's function and may raise. *)
Definition astar_relax (heuristic : string -> string -> result num)
    (target curnode : string) (dist : num) (st : astar_state)
    (nw : string * EdgeData num) : result astar_state :=
  let '(neighbor, w) := nw in
  let cost := weight_of w in
  let ncost := nadd dist cost in
  known <- match od_get neighbor (enqueued st) with
           | Some (qcost, h) =>
               Ok (if nleb qcost ncost then None else Some h)
           | None => h <- heuristic neighbor target ;; Ok (Some h)
           end ;;
  Ok (match known with
      | None => st
      | Some h =>
          {| queue := heappush (queue st)
                        (nadd ncost h, as_count st,
                         (neighbor, ncost, Some curnode));
             enqueued := od_set neighbor (ncost, h) (enqueued st);
             explored := explored st;
             as_count := Datatypes.S (as_count st) |}
      end).

Definition astar_step (g : Graph num)
    (heuristic : string -> string -> result num)
    (source target : string) (st : astar_state)
  : step_out astar_state (result (list string)) :=
  match heappop (queue st) with
  | None =>
      Done (Raise (NetworkXNoPath
                     ("Node " ++ target ++ " not reachable from " ++ source)))
  | Some ((_, _, (curnode, dist, parent)), rest) =>
      let st := {| queue := rest; enqueued := enqueued st;
                   explored := explored st; as_count := as_count st |} in
      if String.eqb curnode target then
        Done (back <- follow (Datatypes.S (List.length (explored st)))
                        (explored st) parent ;;
              Ok (rev (curnode :: back)))
      else
        let skip :=
          match od_get curnode (explored st) with
          | None => false
          | Some None => true
          | Some (Some _) =>
              match od_get curnode (enqueued st) with
              | Some (qcost, _) => nltb qcost dist
              | None => false
              end
          end in
        if skip then Continue st
        else
          let st := {| queue := queue st; enqueued := enqueued st;
                       explored := od_set curnode parent (explored st);
                       as_count := as_count st |} in
          match fold_result (astar_relax heuristic target curnode dist)
                  (adj_of (_adj g) curnode) st with
          | Ok st' => Continue st'
          | Raise e => Done (Raise e)
          end
  end.

Definition astar_path (fuel : nat) (g : Graph num) (source target : string)
    (heuristic : string -> string -> result num) : result (list string) :=
  if negb (has_node g source) || negb (has_node g target)
  then Raise (NodeNotFound ("Either source " ++ source ++ " or target "
                              ++ target ++ " is not in G"))
  else
    run (iterate (astar_step g heuristic source target) fuel
           {| queue := [(of_Z 0, 0%nat, (source, of_Z 0, None))];
              enqueued := []; explored := []; as_count := 1 |}).

(** [sum(weight(u, v, G[u][v]) for u, v in zip(path[:-1], path[1:]))]:
    [sum] starts from [0] and adds from left to right. *)
Fixpoint sum_weights (g : Graph num) (total : num) (path : list string)
  : result num :=
  match path with
  | u :: (v :: _) as rest =>
      match edge_data g u v with
      | None => Raise (KeyError v)
      | Some d => sum_weights g (nadd total (weight_of d)) rest
      end
  | _ => Ok total
  end.

Definition path_weight (g : Graph num) (path : list string) : result num :=
  sum_weights g (of_Z 0) path.

Definition astar_path_length (fuel : nat) (g : Graph num)
    (source target : string) (heuristic : string -> string -> result num)
  : result num :=
  if negb (has_node g source) || negb (has_node g target)
  then Raise (NodeNotFound ("Either source " ++ source ++ " or target "
                              ++ target ++ " is not in G"))
  else
    path <- astar_path fuel g source target heuristic ;;
    path_weight g path.

(** *** [all_simple_paths]

    The generator walks depth first; [current_path] holds the nodes
    entered so far.  Below a path of [k] nodes, a next node that is not
    on the path is yielded when it is a target, and entered when
    [k < cutoff] and some target is neither on the path nor that node.
    [room] is [cutoff - k]. *)
Definition on_path (n : string) (l : list string) : bool :=
  existsb (String.eqb n) l.

Definition target_left (targets current_path : list string)
    (next_node : string) : bool :=
  existsb (fun t => negb (on_path t current_path)
                    && negb (String.eqb t next_node)) targets.

Fixpoint simple_paths_from (g : Graph num) (targets : list string)
    (room : nat) (current_path : list string) (node : string)
  : list (list string) :=
  flat_map
    (fun next_node =>
       if on_path next_node current_path then []
       else
         (if on_path next_node targets
          then [current_path ++ [next_node]] else [])
         ++
         match room with
         | O => []
         | Datatypes.S room' =>
             if target_left targets current_path next_node
             then simple_paths_from g targets room'
                    (current_path ++ [next_node]) next_node
             else []
         end)
    (neighbors g node).

(** [set(target)] for a string that is not a node: its characters. *)
Fixpoint chars (s : string) : list string :=
  match s with
  | EmptyString => []
  | String c r => String c EmptyString :: chars r
  end.

Definition all_simple_paths (g : Graph num) (source target : string)
    (cutoff : nat) : result (list (list string)) :=
  if negb (has_node g source)
  then Raise (NodeNotFound ("source node " ++ source ++ " not in graph"))
  else
    let targets := if has_node g target then [target] else chars target in
    Ok ((if on_path source targets then [[source]] else [])
        ++
        match cutoff with
        | O => []
        | Datatypes.S room =>
            if target_left targets [] source
            then simple_paths_from g targets room [source] source
            else []
        end).

(** *** [single_source_bellman_ford_path_length]

    Stated in rounds: [len(G) - 1] passes that relax every arc, then one
    test for an arc that still improves.  The library runs the same
    relaxations from a queue; it returns the same distances and raises
    [NetworkXUnbounded] in the same cases. *)
Definition arcs (g : Graph num) : list (string * string * num) :=
  flat_map
    (fun un : string * odict (EdgeData num) =>
       map (fun vd : string * EdgeData num =>
              (fst un, fst vd, weight_of (snd vd)))
           (snd un))
    (_adj g).

Definition improves (dist : odict num) (a : string * string * num)
  : option num :=
  let '(u, v, w) := a in
  match od_get u dist with
  | None => None
  | Some dist_u =>
      let dist_v := nadd dist_u w in
      match od_get v dist with
      | None => Some dist_v
      | Some old => if nltb dist_v old then Some dist_v else None
      end
  end.

Definition bf_relax (dist : odict num) (a : string * string * num)
  : odict num :=
  match improves dist a with
  | Some dist_v => od_set (snd (fst a)) dist_v dist
  | None => dist
  end.

Definition bf_round (g : Graph num) (dist : odict num) : odict num :=
  fold_left bf_relax (arcs g) dist.

Fixpoint bf_rounds (g : Graph num) (n : nat) (dist : odict num)
  : odict num :=
  match n with
  | O => dist
  | Datatypes.S n' => bf_rounds g n' (bf_round g dist)
  end.

Definition single_source_bellman_ford_path_length (g : Graph num)
    (source : string) : result (odict num) :=
  if negb (has_node g source)
  then Raise (NodeNotFound ("Source " ++ source ++ " not in G"))
  else
    let dist :=
      bf_rounds g (number_of_nodes g - 1) [(source, of_Z 0)] in
    if existsb (fun a => match improves dist a with
                         | Some _ => true
                         | None => false
                         end) (arcs g)
    then Raise (NetworkXUnbounded "Negative cycle detected.")
    else Ok dist.

(** *** The dispatching front ends *)
Definition shortest_path (fuel : nat) (g : Graph num)
    (source target : string) (weight : option string)
  : result (list string) :=
  match weight with
  | None => bidirectional_shortest_path fuel g source target
  | Some _ =>
      r <- bidirectional_dijkstra fuel g source target ;; Ok (snd r)
  end.

Definition shortest_path_length (fuel : nat) (g : Graph num)
    (source target : string) (weight : option string) : result num :=
  match weight with
  | None =>
      p <- bidirectional_shortest_path fuel g source target ;;
      Ok (of_Z (Z.of_nat (List.length p) - 1))
  | Some _ => dijkstra_path_length fuel g source target
  end.

(** The library as modelled above, on a budget of [fuel] loop turns. *)
Definition networkx_model (fuel : nat) : NetworkX num := {|
  nx_shortest_path := shortest_path fuel;
  nx_shortest_path_length := shortest_path_length fuel;
  nx_astar_path := astar_path fuel;
  nx_astar_path_length := astar_path_length fuel;
  nx_all_simple_paths := all_simple_paths;
  nx_single_source_bellman_ford_path_length :=
    single_source_bellman_ford_path_length
|}.
End NxModel.

(* ================================================================== *)
(** ** [backend/pathfinder.py]: class [PathFinder] *)

Section PathResults.
Variable num : Type.

(** The result dictionary; [error] and [steps] are keys that only some
    results carry. *)
Record PathResult : Type := {
  success : bool;
  error : option string;
  path : list string;
  distance : num;
  steps : option Z
}.
End PathResults.

Section PathFinder.
Context {num : Type} {NumOps : PyNum num} {MathOps : PyMath num}
        {nx : NetworkX num}.

Definition found (p : list string) (d : num) : PathResult num :=
  {| success := true; error := None; path := p; distance := d;
     steps := None |}.

Definition failed (msg : string) : PathResult num :=
  {| success := false; error := Some msg; path := []; distance := of_Z 0;
     steps := None |}.

Definition _find_path_dijkstra (g : Graph num) (start_room end_room : string)
  : result (PathResult num) :=
  path <- nx_shortest_path g start_room end_room (Some "weight") ;;
  distance <- nx_shortest_path_length g start_room end_room
                (Some "weight") ;;
  Ok (found path distance).

(** The straight-line heuristic of [_find_path_astar]. *)
Definition origin : Pos num := {| pos_x := of_Z 0; pos_y := of_Z 0 |}.

Definition center_of (g : Graph num) (n : string) : Pos num :=
  match od_get n (_node g) with
  | Some {| n_center := Some c |} => c
  | _ => origin
  end.

Definition heuristic (g : Graph num) (u v : string) : result num :=
  if negb (has_node g u) || negb (has_node g v) then Ok (of_Z 0)
  else
    let pos_u := center_of g u in
    let pos_v := center_of g v in
    dx <- py_sub (pos_x pos_u) (pos_x pos_v) ;;
    dy <- py_sub (pos_y pos_u) (pos_y pos_v) ;;
    dx2 <- py_mul dx dx ;;
    dy2 <- py_mul dy dy ;;
    s <- py_add dx2 dy2 ;;
    math_sqrt s.

Definition _find_path_astar (g : Graph num) (start_room end_room : string)
  : result (PathResult num) :=
  path <- nx_astar_path g start_room end_room (heuristic g) ;;
  distance <- nx_astar_path_length g start_room end_room (heuristic g) ;;
  Ok (found path distance).

Definition _find_path_bfs (g : Graph num) (start_room end_room : string)
  : result (PathResult num) :=
  path <- nx_shortest_path g start_room end_room None ;;
  let distance := of_Z (Z.of_nat (List.length path) - 1) in
  Ok (found path distance).

Definition find_path (g : Graph num) (start_room end_room : string)
    (algorithm : string) : result (PathResult num) :=
  if negb (has_node g start_room) then
    Ok (failed ("Starting room " ++ start_room ++ " not found"))
  else if negb (has_node g end_room) then
    Ok (failed ("Destination room " ++ end_room ++ " not found"))
  else if String.eqb start_room end_room then
    Ok (found [start_room] (of_Z 0))
  else
    let attempt :=
      if String.eqb algorithm "dijkstra" then
        _find_path_dijkstra g start_room end_room
      else if String.eqb algorithm "astar" then
        _find_path_astar g start_room end_room
      else if String.eqb algorithm "bfs" then
        _find_path_bfs g start_room end_room
      else Ok (failed ("Unknown algorithm: " ++ algorithm)) in
    match attempt with
    | Ok r => Ok r
    | Raise (NetworkXNoPath _) =>
        Ok (failed ("No path found between " ++ start_room ++ " and "
                      ++ end_room))
    | Raise e => Ok (failed ("Pathfinding error: " ++ exn_str e))
    end.

(** [_calculate_path_distance]: pairs that are not edges add nothing. *)
Fixpoint sum_steps (g : Graph num) (total_distance : num)
    (path : list string) : num :=
  match path with
  | u :: (v :: _) as rest =>
      sum_steps g
        (match edge_data g u v with
         | Some d => nadd total_distance (weight_of d)
         | None => total_distance
         end) rest
  | _ => total_distance
  end.

Definition _calculate_path_distance (g : Graph num) (path : list string)
  : num :=
  if Nat.ltb (List.length path) 2 then of_Z 0
  else sum_steps g (of_Z 0) path.

(** [list.sort(key=len)]: stable, by insertion. *)
Fixpoint insert_by_len (p : list string) (l : list (list string))
  : list (list string) :=
  match l with
  | [] => [p]
  | q :: r =>
      if Nat.leb (List.length p) (List.length q) then p :: q :: r
      else q :: insert_by_len p r
  end.

Definition sort_by_len (l : list (list string)) : list (list string) :=
  fold_right insert_by_len [] l.

(** [l[:n]] for an integer [n] of either sign. *)
Definition slice_to {A} (n : Z) (l : list A) : list A :=
  if 0 <=? n then firstn (Z.to_nat n) l
  else firstn (List.length l - Z.to_nat (- n)) l.

Definition find_all_paths (g : Graph num) (start_room end_room : string)
    (max_paths : Z) : list (PathResult num) :=
  if negb (has_node g start_room) || negb (has_node g end_room) then []
  else
    match nx_all_simple_paths g start_room end_room 10 with
    | Raise _ => []
    | Ok all_paths =>
        let top_paths := slice_to max_paths (sort_by_len all_paths) in
        map (fun p =>
               {| success := true; error := None; path := p;
                  distance := _calculate_path_distance g p;
                  steps := Some (Z.of_nat (List.length p) - 1) |})
            top_paths
    end.

Definition get_room_neighbors (g : Graph num) (room_id : string)
  : list string :=
  if negb (has_node g room_id) then [] else neighbors g room_id.

Definition get_shortest_distance (g : Graph num)
    (start_room end_room : string) : result num :=
  match nx_shortest_path_length g start_room end_room (Some "weight") with
  | Ok d => Ok d
  | Raise (NetworkXNoPath _) => Ok (of_Z (-1))
  | Raise e => Raise e
  end.

Definition is_connected (g : Graph num) (room1 room2 : string) : bool :=
  has_edge g room1 room2.
End PathFinder.

(* ================================================================== *)
(** ** [backend/src/johnson_pathfinder.py]: class [JohnsonPathfinder]

    The object keeps the graph it was given ([self.graph = graph], no
    copy), so every step below acts on the caller's graph; the function
    returns the graph as the call leaves it, whether it returns or
    raises. *)

Section JohnsonPathfinder.
Context {num : Type} {NumOps : PyNum num} {nx : NetworkX num}.

Definition zero_weight : EdgeData num :=
  {| e_type := None; e_weight := Some (of_Z 0); e_door_id := None;
     e_position := None |}.

(** Steps 1 and 2: the node ['source'] and its zero-weight edges. *)
Definition add_source (g : Graph num) : Graph num :=
  let g := add_node "source" no_node_data g in
  fold_left
    (fun g node =>
       if String.eqb node "source" then g
       else add_edge "source" node zero_weight g)
    (nodes g) g.

(** [data['weight'] += h[u] - h[v]] *)
Definition reweight_edge (h : odict num) (g : Graph num)
    (e : string * string * EdgeData num) : result (Graph num) :=
  let '(u, v, data) := e in
  match e_weight data with
  | None => Raise (KeyError "weight")
  | Some w =>
      match od_get u h with
      | None => Raise (KeyError u)
      | Some hu =>
          match od_get v h with
          | None => Raise (KeyError v)
          | Some hv =>
              let data' := {| e_type := e_type data;
                              e_weight := Some (nadd w (nsub hu hv));
                              e_door_id := e_door_id data;
                              e_position := e_position data |} in
              Ok (set_edge_data u v data' g)
          end
      end
  end.

(** Step 4, with the graph as an exception leaves it. *)
Fixpoint reweight_edges (h : odict num)
    (es : list (string * string * EdgeData num)) (g : Graph num)
  : option exn * Graph num :=
  match es with
  | [] => (None, g)
  | e :: rest =>
      match reweight_edge h g e with
      | Ok g' => reweight_edges h rest g'
      | Raise x => (Some x, g)
      end
  end.

(** Steps 1 to 5: the reweighting. *)
Definition reweight (g : Graph num) : result unit * Graph num :=
  let g := add_source g in
  match nx_single_source_bellman_ford_path_length g "source" with
  | Raise (NetworkXUnbounded _) =>
      (Raise (ValueError "Graph contains a negative-weight cycle"), g)
  | Raise e => (Raise e, g)
  | Ok h =>
      match reweight_edges h (edges g) g with
      | (Some e, g) => (Raise e, g)
      | (None, g) =>
          match remove_node "source" g with
          | Raise e => (Raise e, g)
          | Ok g => (Ok tt, g)
          end
      end
  end.

Definition find_shortest_path (g : Graph num) (start_room end_room : string)
  : result (PathResult num) * Graph num :=
  match reweight g with
  | (Raise e, g) => (Raise e, g)
  | (Ok _, g) =>
      let query :=
        path <- nx_shortest_path g start_room end_room (Some "weight") ;;
        distance <- nx_shortest_path_length g start_room end_room
                      (Some "weight") ;;
        Ok {| success := true; error := None; path := path;
              distance := distance; steps := None |} in
      match query with
      | Raise (NetworkXNoPath _) =>
          (Ok {| success := false;
                 error := Some ("No path found between " ++ start_room
                                  ++ " and " ++ end_room)%string;
                 path := []; distance := of_Z 0; steps := None |}, g)
      | r => (r, g)
      end
  end.
End JohnsonPathfinder.

(** The test graph at the end of [pathfinder.py]:
    A-B 1, B-C 2, C-D 1, A-D 4. *)
Definition weight_only {num} (w : num) : EdgeData num :=
  {| e_type := None; e_weight := Some w; e_door_id := None;
     e_position := None |}.

Definition test_graph : Graph pynum :=
  add_edge "A" "D" (weight_only (PyInt 4))
    (add_edge "C" "D" (weight_only (PyInt 1))
       (add_edge "B" "C" (weight_only (PyInt 2))
          (add_edge "A" "B" (weight_only (PyInt 1)) empty_graph))).

(** Integer-weighted graphs for the reweighting: the test graph of
    [pathfinder.py], the same with a node called ['source'], and a single
    edge of weight -1. *)
Definition int_test_graph : Graph Z :=
  add_edge "A" "D" (weight_only 4)
    (add_edge "C" "D" (weight_only 1)
       (add_edge "B" "C" (weight_only 2)
          (add_edge "A" "B" (weight_only 1) empty_graph))).

Definition source_named_graph : Graph Z :=
  add_edge "source" "A" (weight_only 3) int_test_graph.

Definition negative_edge_graph : Graph Z :=
  add_edge "A" "B" (weight_only (-1)) empty_graph.

(** A floor with a third room close to the other two. *)
Definition corridor_data : FloorData pynum :=
  {| floor_id := Some "test_floor"; floor_number := None;
     rooms := Some
       [ {| room_id := "101"; room_name := "Room 101";
            room_center := pos 100 100; room_bounds := box 50 50 100 100 |};
         {| room_id := "102"; room_name := "Room 102";
            room_center := pos 300 100; room_bounds := box 250 50 100 100 |};
         {| room_id := "103"; room_name := "Room 103";
            room_center := pos 220 100;
            room_bounds := box 170 50 100 100 |} ];
     doors := Some [ {| door_id := "d1"; door_position := pos 200 100;
                        door_connects := Some ["101"; "102"] |} ] |}.

(* ================================================================== *)
(** ** [backend/server.py]: [generate_directions] *)

Section Server.
Context {num : Type}.

(** [{room['id']: room for room in floor_data['rooms']}] *)
Definition rooms_by_id (rs : list (Room num)) : odict (Room num) :=
  fold_left (fun d room => od_set (room_id room) room d) rs [].

(** [rooms.get(n)] and, for a room that is found, the sentence. *)
Definition direction (verb : string) (rooms : odict (Room num)) (n : string)
  : list string :=
  match od_get n rooms with
  | Some room => [(verb ++ room_name room)%string]
  | None => []
  end.

(** [path[1:len(path) - 1]] *)
Definition middle (path : list string) : list string :=
  removelast (tl path).

Definition generate_directions (path : list string) (fd : FloorData num)
  : result (list string) :=
  if Nat.ltb (List.length path) 2 then Ok []
  else
    match rooms fd with
    | None => Raise (KeyError "rooms")
    | Some rs =>
        let rooms := rooms_by_id rs in
        Ok (direction "Start at " rooms (hd "" path)
            ++ flat_map (direction "Continue to " rooms) (middle path)
            ++ direction "Arrive at " rooms (last path ""))
    end.
End Server.


(* ================================================================== *)
(** * Properties *)

(** ** Path finding: the result contract of [find_path] *)

Section FindPathContract.
Context {num : Type} {NumOps : PyNum num} {MathOps : PyMath num}
        {nx : NetworkX num}.

(** What a failure result looks like. *)
Definition failure_shape (r : PathResult num) : Prop :=
  success r = false /\ path r = [] /\ distance r = of_Z 0 /\
  exists msg, error r = Some msg /\ (0 < String.length msg)%nat.

Lemma failed_shape (prefix rest : string) :
  (0 < String.length prefix)%nat -> failure_shape (failed (prefix ++ rest)).
Proof.
  intros Hp. unfold failure_shape, failed; cbn.
  repeat split. eexists; split; [reflexivity|].
  destruct prefix; cbn in *; lia.
Qed.

Lemma find_path_unknown_start g start_room end_room algorithm :
  has_node g start_room = false ->
  find_path g start_room end_room algorithm
  = Ok (failed ("Starting room " ++ start_room ++ " not found")).
Proof. intros H. unfold find_path. rewrite H. reflexivity. Qed.

Lemma find_path_unknown_end g start_room end_room algorithm :
  has_node g start_room = true ->
  has_node g end_room = false ->
  find_path g start_room end_room algorithm
  = Ok (failed ("Destination room " ++ end_room ++ " not found")).
Proof. intros H1 H2. unfold find_path. rewrite H1, H2. reflexivity. Qed.

Lemma find_path_unknown_algorithm g start_room end_room algorithm :
  has_node g start_room = true ->
  has_node g end_room = true ->
  start_room <> end_room ->
  algorithm <> "dijkstra" -> algorithm <> "astar" -> algorithm <> "bfs" ->
  find_path g start_room end_room algorithm
  = Ok (failed ("Unknown algorithm: " ++ algorithm)).
Proof.
  intros H1 H2 Hne Hd Ha Hb. unfold find_path. rewrite H1, H2. cbn.
  apply String.eqb_neq in Hne, Hd, Ha, Hb.
  rewrite Hne, Hd, Ha, Hb. reflexivity.
Qed.

(** The private method [find_path] calls for an algorithm name. *)
Definition method (algorithm : string)
  : option (Graph num -> string -> string -> result (PathResult num)) :=
  if String.eqb algorithm "dijkstra" then Some _find_path_dijkstra
  else if String.eqb algorithm "astar" then Some _find_path_astar
  else if String.eqb algorithm "bfs" then Some _find_path_bfs
  else None.

(** The message of the [except] clause that catches [e]. *)
Definition caught (start_room end_room : string) (e : exn) : string :=
  match e with
  | NetworkXNoPath _ =>
      "No path found between " ++ start_room ++ " and " ++ end_room
  | _ => "Pathfinding error: " ++ exn_str e
  end.

Lemma caught_shape start_room end_room e :
  failure_shape (failed (caught start_room end_room e)).
Proof.
  destruct e;
    first [ apply failed_shape with (prefix := "No path found between ")
          | apply failed_shape with (prefix := "Pathfinding error: ") ];
    cbn; lia.
Qed.

Lemma private_success (run : Graph num -> string -> string ->
                             result (PathResult num))
    algorithm g start_room end_room r :
  method algorithm = Some run -> run g start_room end_room = Ok r ->
  success r = true.
Proof.
  unfold method.
  destruct (String.eqb algorithm "dijkstra").
  { intros [= <-]. unfold _find_path_dijkstra.
    destruct (nx_shortest_path _ _ _ _); cbn; [|discriminate].
    destruct (nx_shortest_path_length _ _ _ _); cbn; [|discriminate].
    intros [= <-]. reflexivity. }
  destruct (String.eqb algorithm "astar").
  { intros [= <-]. unfold _find_path_astar.
    destruct (nx_astar_path _ _ _ _); cbn; [|discriminate].
    destruct (nx_astar_path_length _ _ _ _); cbn; [|discriminate].
    intros [= <-]. reflexivity. }
  destruct (String.eqb algorithm "bfs"); [|discriminate].
  intros [= <-]. unfold _find_path_bfs.
  destruct (nx_shortest_path _ _ _ _); cbn; [|discriminate].
  intros [= <-]. reflexivity.
Qed.

(** What [find_path] does once both rooms are known and differ. *)
Lemma find_path_known g start_room end_room algorithm :
  has_node g start_room = true -> has_node g end_room = true ->
  start_room <> end_room ->
  find_path g start_room end_room algorithm
  = Ok match method algorithm with
       | None => failed ("Unknown algorithm: " ++ algorithm)
       | Some run =>
           match run g start_room end_room with
           | Ok r => r
           | Raise e => failed (caught start_room end_room e)
           end
       end.
Proof.
  intros H1 H2 Hne. unfold find_path, method. rewrite H1, H2. cbn [negb].
  apply String.eqb_neq in Hne. rewrite Hne.
  destruct (String.eqb algorithm "dijkstra").
  { destruct (_find_path_dijkstra g start_room end_room) as [r|[]];
      reflexivity. }
  destruct (String.eqb algorithm "astar").
  { destruct (_find_path_astar g start_room end_room) as [r|[]];
      reflexivity. }
  destruct (String.eqb algorithm "bfs").
  { destruct (_find_path_bfs g start_room end_room) as [r|[]];
      reflexivity. }
  reflexivity.
Qed.

(** C10: [find_path] always returns a result dictionary, whatever the
    library calls do, and no exception gets through it.  The result is
    a failure, with [success = False], [path = []], [distance = 0] and
    a non-empty [error], in each of these cases: the starting room or
    the destination is unknown, the algorithm name is unknown, the
    method called for the algorithm raises [NetworkXNoPath] or any other
    exception.  Otherwise the result is a success: the one for a room
    and itself, or the one the method returns. *)
Theorem find_path_total g start_room end_room algorithm :
  exists r,
    find_path g start_room end_room algorithm = Ok r /\
    (success r = false -> failure_shape r) /\
    (has_node g start_room = false ->
     r = failed ("Starting room " ++ start_room ++ " not found") /\
     failure_shape r) /\
    (has_node g start_room = true -> has_node g end_room = false ->
     r = failed ("Destination room " ++ end_room ++ " not found") /\
     failure_shape r) /\
    (has_node g start_room = true -> start_room = end_room ->
     success r = true) /\
    (has_node g start_room = true -> has_node g end_room = true ->
     start_room <> end_room ->
     match method algorithm with
     | None =>
         r = failed ("Unknown algorithm: " ++ algorithm) /\ failure_shape r
     | Some run =>
         match run g start_room end_room with
         | Raise e =>
             r = failed (caught start_room end_room e) /\ failure_shape r
         | Ok r' => r = r' /\ success r = true
         end
     end).
Proof.
  assert (Hstart : failure_shape
                     (failed ("Starting room " ++ start_room ++ " not found"))).
  { apply failed_shape with (prefix := "Starting room "). cbn; lia. }
  assert (Hend : failure_shape
                   (failed ("Destination room " ++ end_room ++ " not found"))).
  { apply failed_shape with (prefix := "Destination room "). cbn; lia. }
  assert (Halg : failure_shape (failed ("Unknown algorithm: " ++ algorithm))).
  { apply failed_shape with (prefix := "Unknown algorithm: "). cbn; lia. }
  destruct (has_node g start_room) eqn:H1.
  2:{ rewrite find_path_unknown_start by exact H1. eexists.
      split; [reflexivity|]. split; [intros _; exact Hstart|].
      split; [intros _; split; [reflexivity | exact Hstart]|].
      split; [intros; discriminate|]. split; intros; discriminate. }
  destruct (has_node g end_room) eqn:H2.
  2:{ rewrite find_path_unknown_end by assumption. eexists.
      split; [reflexivity|]. split; [intros _; exact Hend|].
      split; [intros; discriminate|].
      split; [intros _ _; split; [reflexivity | exact Hend]|].
      split; [intros _ Heq; subst; congruence|].
      intros; discriminate. }
  destruct (String.eqb start_room end_room) eqn:Heq.
  { unfold find_path. rewrite H1, H2, Heq. cbn [negb]. eexists.
    split; [reflexivity|]. split; [discriminate|].
    split; [intros; discriminate|]. split; [intros; discriminate|].
    split; [reflexivity|].
    intros _ _ Hne. apply String.eqb_eq in Heq. contradiction. }
  apply String.eqb_neq in Heq.
  rewrite find_path_known by assumption. eexists.
  split; [reflexivity|].
  destruct (method algorithm) as [run|] eqn:Em.
  - destruct (run g start_room end_room) as [r'|e] eqn:Er.
    + assert (Hs : success r' = true)
        by (eapply private_success; eassumption).
      split; [congruence|]. split; [intros; discriminate|].
      split; [intros; discriminate|]. split; [intros; contradiction|].
      intros _ _ _. auto.
    + split; [intros _; apply caught_shape|].
      split; [intros; discriminate|]. split; [intros; discriminate|].
      split; [intros; contradiction|].
      intros _ _ _. split; [reflexivity | apply caught_shape].
  - split; [intros _; exact Halg|]. split; [intros; discriminate|].
    split; [intros; discriminate|]. split; [intros; contradiction|].
    intros _ _ _. auto.
Qed.

(** C5: for a node of the graph, [find_path] from the node to itself
    is the success with the one-node path and distance 0, whatever the
    algorithm name and whatever the library calls would do: none is
    made. *)
Theorem find_path_same_room g u algorithm :
  has_node g u = true ->
  find_path g u u algorithm = Ok (found [u] (of_Z 0)).
Proof.
  intros H. unfold find_path. rewrite H. cbn.
  rewrite String.eqb_refl. reflexivity.
Qed.
End FindPathContract.

Lemma find_path_same_room_witness :
  find_path (nx := networkx_model 0) test_graph "A" "A" "dijkstra"
  = Ok (found ["A"] (PyInt 0)).
Proof.
  exact (find_path_same_room (nx := networkx_model 0) test_graph "A"
           "dijkstra" eq_refl).
Defined.

Lemma find_path_total_witness :
  find_path (nx := networkx_model 0) test_graph "Z" "A" "dijkstra"
  = Ok (failed "Starting room Z not found").
Proof.
  destruct (find_path_total (nx := networkx_model 0) test_graph "Z" "A"
              "dijkstra") as [r [Hr [_ [Hs _]]]].
  rewrite Hr. f_equal. apply Hs. reflexivity.
Defined.

(** ** Path finding on the test graph of [pathfinder.py] *)

(** C4, as the code has it: on A-B 1, B-C 2, C-D 1, A-D 4 the Dijkstra
    query from A to D succeeds with distance 4 and the path [A, D]; the
    direct edge is found first and a later path of equal length does not
    replace it.  Five loop turns are enough. *)
Theorem dijkstra_test_graph (k : nat) :
  find_path (nx := networkx_model (5 + k)) test_graph "A" "D" "dijkstra"
  = Ok (found ["A"; "D"] (PyInt 4)).
Proof. vm_compute. reflexivity. Qed.

(** C4 as stated: the path returned is not [A, B, C, D]. *)
Lemma dijkstra_test_graph_not_long_path :
  find_path (nx := networkx_model 5) test_graph "A" "D" "dijkstra"
  <> Ok (found ["A"; "B"; "C"; "D"] (PyInt 4)).
Proof. vm_compute. discriminate. Qed.

(** ** [get_shortest_distance] *)

(** C9 at an unknown starting room: the library's [NodeNotFound] gets
    out, while an unknown destination is turned into -1. *)
Theorem shortest_distance_unknown_start (k : nat) :
  get_shortest_distance (nx := networkx_model k) test_graph "X" "A"
  = Raise (NodeNotFound "Node X not found in graph")
  /\ get_shortest_distance (nx := networkx_model (5 + k)) test_graph "A" "X"
     = Ok (PyInt (-1)).
Proof. split; vm_compute; reflexivity. Qed.

(** ** Facts about ordered dictionaries *)

Section OrderedDictFacts.
Context {V : Type}.
Implicit Types (d : odict V) (k : string) (v : V).

Lemma od_get_set k k' v d :
  od_get k' (od_set k v d) = if String.eqb k k' then Some v else od_get k' d.
Proof.
  induction d as [|[k0 v0] r IH]; cbn.
  - reflexivity.
  - destruct (String.eqb k0 k) eqn:E0; cbn.
    + apply String.eqb_eq in E0; subst k0.
      destruct (String.eqb k k'); reflexivity.
    + destruct (String.eqb k0 k') eqn:E1.
      * apply String.eqb_eq in E1; subst k0.
        rewrite String.eqb_sym, E0. reflexivity.
      * exact IH.
Qed.

Lemma od_get_set_eq k v d : od_get k (od_set k v d) = Some v.
Proof. rewrite od_get_set, String.eqb_refl. reflexivity. Qed.

Lemma od_get_set_neq k k' v d :
  k <> k' -> od_get k' (od_set k v d) = od_get k' d.
Proof.
  intros H. rewrite od_get_set.
  apply String.eqb_neq in H. rewrite H. reflexivity.
Qed.

Lemma od_mem_set k k' v d :
  od_mem k' (od_set k v d) = String.eqb k k' || od_mem k' d.
Proof.
  unfold od_mem. rewrite od_get_set. destruct (String.eqb k k'); reflexivity.
Qed.

Lemma od_mem_In k d : od_mem k d = true <-> In k (od_keys d).
Proof.
  unfold od_mem. induction d as [|[k0 v0] r IH]; cbn.
  - split; [discriminate | tauto].
  - destruct (String.eqb k0 k) eqn:E.
    + apply String.eqb_eq in E. split; auto.
    + apply String.eqb_neq in E. rewrite IH. split; [auto|].
      intros [H|H]; [contradiction | exact H].
Qed.

Lemma od_mem_false k d : od_mem k d = false <-> ~ In k (od_keys d).
Proof.
  rewrite <- od_mem_In. destruct (od_mem k d); split; congruence.
Qed.

Lemma od_get_In k v d : od_get k d = Some v -> In (k, v) d.
Proof.
  induction d as [|[k0 v0] r IH]; cbn; [discriminate|].
  destruct (String.eqb k0 k) eqn:E.
  - apply String.eqb_eq in E. intros [= <-]. left; congruence.
  - auto.
Qed.

Lemma od_In_get k v d : NoDup (od_keys d) -> In (k, v) d -> od_get k d = Some v.
Proof.
  induction d as [|[k0 v0] r IH]; cbn; [tauto|].
  intros Hnd [H|H].
  - inversion H; subst. rewrite String.eqb_refl. reflexivity.
  - inversion Hnd as [|? ? Hnot Hnd']; subst.
    destruct (String.eqb k0 k) eqn:E.
    + apply String.eqb_eq in E; subst k0. exfalso. apply Hnot.
      change k with (fst (k, v)). apply in_map. exact H.
    + auto.
Qed.

Lemma od_keys_set k v d :
  od_keys (od_set k v d)
  = if od_mem k d then od_keys d else od_keys d ++ [k].
Proof.
  unfold od_mem. induction d as [|[k0 v0] r IH]; cbn.
  - reflexivity.
  - destruct (String.eqb k0 k) eqn:E; cbn.
    + reflexivity.
    + unfold od_keys in IH. rewrite IH. destruct (od_get k r); reflexivity.
Qed.

Lemma od_set_NoDup k v d : NoDup (od_keys d) -> NoDup (od_keys (od_set k v d)).
Proof.
  intros H. rewrite od_keys_set. destruct (od_mem k d) eqn:E; [exact H|].
  apply od_mem_false in E.
  apply NoDup_app; [exact H | repeat constructor; cbn; tauto |].
  intros a Ha [<-|[]]. contradiction.
Qed.

Lemma od_set_same k v d : od_get k d = Some v -> od_set k v d = d.
Proof.
  induction d as [|[k0 v0] r IH]; cbn; [discriminate|].
  destruct (String.eqb k0 k) eqn:E.
  - intros [= ->]. reflexivity.
  - intros H. rewrite IH by exact H. reflexivity.
Qed.

Lemma od_get_del_neq k k' d : k <> k' -> od_get k' (od_del k d) = od_get k' d.
Proof.
  intros Hne. induction d as [|[k0 v0] r IH]; cbn; [reflexivity|].
  destruct (String.eqb k0 k) eqn:E.
  - apply String.eqb_eq in E; subst k0.
    apply String.eqb_neq in Hne. rewrite Hne. reflexivity.
  - cbn. rewrite IH. reflexivity.
Qed.

Lemma od_get_del_eq k d : NoDup (od_keys d) -> od_get k (od_del k d) = None.
Proof.
  induction d as [|[k0 v0] r IH]; cbn; [reflexivity|].
  intros Hnd. inversion Hnd as [|? ? Hnot Hnd']; subst.
  destruct (String.eqb k0 k) eqn:E.
  - apply String.eqb_eq in E; subst k0.
    destruct (od_get k r) eqn:G; [|reflexivity].
    exfalso. apply Hnot. apply od_mem_In. unfold od_mem. rewrite G. reflexivity.
  - cbn. rewrite E. auto.
Qed.

Lemma od_del_absent k d : od_mem k d = false -> od_del k d = d.
Proof.
  unfold od_mem. induction d as [|[k0 v0] r IH]; cbn; [reflexivity|].
  destruct (String.eqb k0 k) eqn:E; [discriminate|].
  intros H. rewrite IH by exact H. reflexivity.
Qed.

Lemma od_del_set_absent k v d : od_mem k d = false -> od_del k (od_set k v d) = d.
Proof.
  unfold od_mem. induction d as [|[k0 v0] r IH]; cbn.
  - rewrite String.eqb_refl. reflexivity.
  - destruct (String.eqb k0 k) eqn:E; [discriminate|].
    intros H. cbn. rewrite E, IH by exact H. reflexivity.
Qed.
End OrderedDictFacts.

(** ** Facts about the graph class *)

Section GraphFacts.
Variable num : Type.
Implicit Types (g : Graph num) (u v a b n : string).

(** The representation invariant of [networkx.Graph]: [_adj] and
    [_node] have the same keys, no key twice, and the two directions of
    an edge hold the same attributes. *)
Record wf g : Prop := {
  wf_keys : od_keys (_adj g) = od_keys (_node g);
  wf_nodup : NoDup (od_keys (_node g));
  wf_nodup_adj :
    forall u nbrs, od_get u (_adj g) = Some nbrs -> NoDup (od_keys nbrs);
  wf_sym : forall a b, edge_data g a b = edge_data g b a
}.

Lemma od_mem_keys {A B} (d : odict A) (d' : odict B) k :
  od_keys d = od_keys d' -> od_mem k d = od_mem k d'.
Proof.
  intros H. destruct (od_mem k d') eqn:E.
  - apply od_mem_In. rewrite H. apply od_mem_In. exact E.
  - apply od_mem_false. rewrite H. apply od_mem_false. exact E.
Qed.

Lemma od_keys_set_congr {A B} (d : odict A) (d' : odict B) k x y :
  od_keys d = od_keys d' -> od_keys (od_set k x d) = od_keys (od_set k y d').
Proof.
  intros H. rewrite !od_keys_set, (od_mem_keys d d' k H), H. reflexivity.
Qed.

Lemma has_node_adj g n :
  wf g -> has_node g n = od_mem n (_adj g).
Proof.
  intros W. unfold has_node. symmetry. apply od_mem_keys, W.
Qed.

Lemma wf_empty : wf (@empty_graph num).
Proof.
  split; cbn; auto using NoDup_nil. discriminate.
Qed.

Lemma edge_data_node g a b d :
  wf g -> edge_data g a b = Some d ->
  has_node g a = true /\ has_node g b = true.
Proof.
  intros W H.
  assert (Hl : forall x y e, edge_data g x y = Some e -> has_node g x = true).
  { intros x y e Hx. rewrite has_node_adj by exact W.
    unfold edge_data in Hx. unfold od_mem.
    destruct (od_get x (_adj g)); [reflexivity | discriminate]. }
  split; [eapply Hl; eassumption|].
  rewrite (wf_sym W) in H. eapply Hl; eassumption.
Qed.

(** The adjacency after writing [d] at both ends of [u]-[v]. *)
Definition link (u v : string) (d : EdgeData num)
    (adj : odict (odict (EdgeData num))) : odict (odict (EdgeData num)) :=
  let adj1 := od_set u (od_set v d (adj_of adj u)) adj in
  od_set v (od_set u d (adj_of adj1 v)) adj1.

Definition get2 (adj : odict (odict (EdgeData num))) (x y : string)
  : option (EdgeData num) :=
  match od_get x adj with Some nbrs => od_get y nbrs | None => None end.

Lemma get2_adj_of adj x y : od_get y (adj_of adj x) = get2 adj x y.
Proof. unfold adj_of, get2. destruct (od_get x adj); reflexivity. Qed.

Lemma get2_half u v d adj x y :
  get2 (od_set u (od_set v d (adj_of adj u)) adj) x y
  = if String.eqb u x && String.eqb v y then Some d else get2 adj x y.
Proof.
  unfold get2 at 1. rewrite od_get_set.
  destruct (String.eqb u x) eqn:E; cbn.
  - apply String.eqb_eq in E; subst x.
    rewrite od_get_set, get2_adj_of. reflexivity.
  - reflexivity.
Qed.

Definition same_edge (u v a b : string) : bool :=
  (String.eqb u a && String.eqb v b) || (String.eqb v a && String.eqb u b).

Lemma get2_link u v d adj x y :
  get2 (link u v d adj) x y
  = if same_edge u v x y then Some d else get2 adj x y.
Proof.
  unfold link, same_edge. rewrite !get2_half.
  destruct (String.eqb v x && String.eqb u y);
    destruct (String.eqb u x && String.eqb v y); reflexivity.
Qed.

Lemma od_keys_link u v d adj :
  od_mem u adj = true -> od_mem v adj = true ->
  od_keys (link u v d adj) = od_keys adj.
Proof.
  intros Hu Hv. unfold link. rewrite !od_keys_set, od_mem_set, Hu, Hv.
  rewrite orb_true_r. reflexivity.
Qed.

Lemma link_nodup_adj u v d adj :
  (forall x nbrs, od_get x adj = Some nbrs -> NoDup (od_keys nbrs)) ->
  forall x nbrs, od_get x (link u v d adj) = Some nbrs -> NoDup (od_keys nbrs).
Proof.
  intros H x nbrs. unfold link.
  assert (H1 : forall x nbrs,
             od_get x (od_set u (od_set v d (adj_of adj u)) adj) = Some nbrs ->
             NoDup (od_keys nbrs)).
  { intros x' nbrs'. rewrite od_get_set.
    destruct (String.eqb u x').
    - intros [= <-]. apply od_set_NoDup. unfold adj_of.
      destruct (od_get u adj) eqn:E; [eapply H; eassumption | constructor].
    - apply H. }
  rewrite od_get_set. destruct (String.eqb v x).
  - intros [= <-]. apply od_set_NoDup. unfold adj_of.
    destruct (od_get v _) eqn:E; [eapply H1; eassumption | constructor].
  - apply H1.
Qed.

(** *** [add_node] *)
Lemma add_node_edge_data n attr g a b :
  wf g -> edge_data (add_node n attr g) a b = edge_data g a b.
Proof.
  intros W. unfold add_node.
  destruct (od_get n (_node g)) eqn:E; [reflexivity|].
  unfold edge_data; cbn. rewrite od_get_set.
  destruct (String.eqb n a) eqn:Ea; [|reflexivity].
  apply String.eqb_eq in Ea; subst a.
  assert (Hm : od_mem n (_adj g) = false).
  { rewrite <- has_node_adj by exact W. unfold has_node, od_mem.
    rewrite E. reflexivity. }
  unfold od_mem in Hm. destruct (od_get n (_adj g)); [discriminate|].
  reflexivity.
Qed.

Lemma add_node_has_node n attr g m :
  has_node (add_node n attr g) m = String.eqb n m || has_node g m.
Proof.
  unfold add_node, has_node.
  destruct (od_get n (_node g)) eqn:E; cbn; rewrite od_mem_set; reflexivity.
Qed.

Lemma add_node_wf n attr g : wf g -> wf (add_node n attr g).
Proof.
  intros W.
  assert (Hed := fun a b => add_node_edge_data n attr a b W).
  split.
  - unfold add_node. destruct (od_get n (_node g)) eqn:E; cbn [_node _adj].
    + rewrite od_keys_set. unfold od_mem. rewrite E. apply W.
    + apply od_keys_set_congr, W.
  - unfold add_node. destruct (od_get n (_node g));
      cbn [_node _adj]; apply od_set_NoDup, W.
  - unfold add_node. destruct (od_get n (_node g)); cbn [_node _adj].
    + apply W.
    + intros u nbrs. rewrite od_get_set. destruct (String.eqb n u).
      * intros [= <-]. constructor.
      * apply W.
  - intros a b. rewrite !Hed. apply W.
Qed.

(** *** [add_edge] *)
Lemma ensure_node_spec n g :
  ensure_node n g = if has_node g n then g else add_node n no_node_data g.
Proof.
  unfold ensure_node, add_node, has_node, od_mem.
  destruct (od_get n (_node g)); reflexivity.
Qed.

Lemma ensure_node_wf n g : wf g -> wf (ensure_node n g).
Proof.
  intros W. rewrite ensure_node_spec.
  destruct (has_node g n); [exact W | apply add_node_wf, W].
Qed.

Lemma ensure_node_edge_data n g a b :
  wf g -> edge_data (ensure_node n g) a b = edge_data g a b.
Proof.
  intros W. rewrite ensure_node_spec.
  destruct (has_node g n); [reflexivity | apply add_node_edge_data, W].
Qed.

Lemma ensure_node_has_node n g m :
  has_node (ensure_node n g) m = String.eqb n m || has_node g m.
Proof.
  rewrite ensure_node_spec. destruct (has_node g n) eqn:E.
  - destruct (String.eqb n m) eqn:E'; [|reflexivity].
    apply String.eqb_eq in E'; subst m. rewrite E. reflexivity.
  - apply add_node_has_node.
Qed.

Definition prior (g : Graph num) (u v : string) : EdgeData num :=
  match edge_data g u v with Some d => d | None => no_edge_data end.

Lemma add_edge_unfold u v attr g :
  add_edge u v attr g
  = let g1 := ensure_node v (ensure_node u g) in
    {| _node := _node g1;
       _adj := link u v (edge_update (prior g1 u v) attr) (_adj g1) |}.
Proof.
  unfold add_edge, link, prior, edge_data, adj_of. cbn zeta.
  destruct (od_get u (_adj (ensure_node v (ensure_node u g)))); reflexivity.
Qed.

Lemma add_edge_edge_data u v attr g a b :
  wf g ->
  edge_data (add_edge u v attr g) a b
  = if same_edge u v a b then Some (edge_update (prior g u v) attr)
    else edge_data g a b.
Proof.
  intros W. rewrite add_edge_unfold. cbn zeta.
  change (edge_data ?g' a b) with (get2 (_adj g') a b). cbn [_adj].
  rewrite get2_link.
  assert (Hp : forall x y,
             get2 (_adj (ensure_node v (ensure_node u g))) x y
             = edge_data g x y).
  { intros x y. change (get2 (_adj ?g') x y) with (edge_data g' x y).
    rewrite !ensure_node_edge_data; auto using ensure_node_wf. }
  unfold prior at 1.
  change (edge_data ?g' u v) with (get2 (_adj g') u v).
  rewrite !Hp. reflexivity.
Qed.

Lemma add_edge_has_node u v attr g m :
  has_node (add_edge u v attr g) m
  = String.eqb u m || String.eqb v m || has_node g m.
Proof.
  rewrite add_edge_unfold. cbn zeta. unfold has_node at 1. cbn [_node].
  change (od_mem m (_node ?g')) with (has_node g' m).
  rewrite !ensure_node_has_node.
  destruct (String.eqb u m), (String.eqb v m); reflexivity.
Qed.

Lemma add_edge_nodes_known u v attr g :
  has_node g u = true -> has_node g v = true ->
  nodes (add_edge u v attr g) = nodes g.
Proof.
  intros Hu Hv. rewrite add_edge_unfold. cbn zeta. unfold nodes; cbn [_node].
  rewrite !ensure_node_spec, Hu. rewrite Hv. reflexivity.
Qed.

Lemma add_edge_wf u v attr g : wf g -> wf (add_edge u v attr g).
Proof.
  intros W.
  assert (Hed := fun a b => add_edge_edge_data u v attr a b W).
  rewrite add_edge_unfold in *. cbn zeta in *.
  set (g1 := ensure_node v (ensure_node u g)) in *.
  assert (W1 : wf g1) by (unfold g1; auto using ensure_node_wf).
  assert (Hu : od_mem u (_adj g1) = true).
  { rewrite <- has_node_adj by exact W1. unfold g1.
    rewrite !ensure_node_has_node, String.eqb_refl.
    apply orb_true_iff. right. reflexivity. }
  assert (Hv : od_mem v (_adj g1) = true).
  { rewrite <- has_node_adj by exact W1. unfold g1.
    rewrite !ensure_node_has_node, String.eqb_refl. reflexivity. }
  split; cbn [_node _adj].
  - rewrite od_keys_link by assumption. apply W1.
  - apply W1.
  - apply link_nodup_adj. apply W1.
  - intros a b. rewrite !Hed. unfold same_edge.
    rewrite (wf_sym W a b).
    destruct (String.eqb u a), (String.eqb v b), (String.eqb v a),
      (String.eqb u b); reflexivity.
Qed.

(** *** [set_edge_data] *)
Lemma set_edge_data_edge_data u v d g a b :
  edge_data (set_edge_data u v d g) a b
  = if same_edge u v a b then Some d else edge_data g a b.
Proof.
  change (edge_data ?g' a b) with (get2 (_adj g') a b).
  unfold set_edge_data. cbn [_adj]. apply get2_link.
Qed.

Lemma set_edge_data_same u v d g :
  edge_data g u v = Some d -> edge_data g v u = Some d ->
  set_edge_data u v d g = g.
Proof.
  intros Huv Hvu. unfold set_edge_data.
  unfold edge_data in Huv, Hvu.
  destruct (od_get u (_adj g)) as [nu|] eqn:Eu; [|discriminate].
  destruct (od_get v (_adj g)) as [nv|] eqn:Ev; [|discriminate].
  unfold adj_of. rewrite Eu.
  rewrite (od_set_same _ _ Huv), (od_set_same _ _ Eu), Ev.
  rewrite (od_set_same _ _ Hvu), (od_set_same _ _ Ev).
  destruct g; reflexivity.
Qed.
End GraphFacts.

(** ** Graph construction *)

Lemma fold_left_inv {A B} (f : A -> B -> A) (P : A -> Prop) (l : list B) :
  (forall a b, In b l -> P a -> P (f a b)) ->
  forall a, P a -> P (fold_left f l a).
Proof.
  induction l as [|b l IH]; cbn; intros Hf a Ha; [exact Ha|].
  apply IH; [intros; apply Hf; auto | apply Hf; auto].
Qed.

Lemma fold_result_inv {S A} (f : S -> A -> result S) (P : S -> Prop)
    (l : list A) :
  (forall s a s', In a l -> P s -> f s a = Ok s' -> P s') ->
  forall s s', P s -> fold_result f l s = Ok s' -> P s'.
Proof.
  induction l as [|a l IH]; cbn; intros Hf s s' Hs H.
  - injection H as <-. exact Hs.
  - destruct (f s a) as [s1|e] eqn:E; cbn in H; [|discriminate].
    eapply IH; [| |exact H].
    + intros s2 a' s3 Hin. apply Hf. right. exact Hin.
    + eapply Hf; [left; reflexivity | exact Hs | exact E].
Qed.

Lemma fold_result_app {S A} (f : S -> A -> result S) (l1 l2 : list A) s :
  fold_result f (l1 ++ l2) s
  = (s' <- fold_result f l1 s ;; fold_result f l2 s').
Proof.
  revert s. induction l1 as [|a l1 IH]; cbn; intros s; [reflexivity|].
  destruct (f s a); cbn; [apply IH | reflexivity].
Qed.

Lemma fold_result_map {S A B} (f : S -> B -> result S) (h : A -> B)
    (l : list A) s :
  fold_result f (map h l) s = fold_result (fun s a => f s (h a)) l s.
Proof.
  revert s. induction l as [|a l IH]; cbn; intros s; [reflexivity|].
  destruct (f s (h a)); cbn; [apply IH | reflexivity].
Qed.

Section BuilderFacts.
Context {num : Type} {NumOps : PyNum num} {MathOps : PyMath num}.
Implicit Types (g : Graph num) (fd : FloorData num) (a b u v : string).

Definition doors_of fd : list (Door num) :=
  match doors fd with Some ds => ds | None => [] end.

(** The door lists the two rooms, in either order. *)
Definition joins (door : Door num) a b : Prop :=
  door_connects door = Some [a; b] \/ door_connects door = Some [b; a].

(** [d] is the attribute dictionary a door of [ds] between [a] and [b]
    writes: its weight is the distance from the door's position to
    itself. *)
Definition door_made (ds : list (Door num)) a b (d : EdgeData num) : Prop :=
  exists door distance,
    In door ds /\ joins door a b /\
    _calculate_distance (door_position door) (door_position door)
    = Ok distance /\
    d = door_edge door distance.

Definition door_at (ds : list (Door num)) g a b : Prop :=
  exists d, edge_data g a b = Some d /\ door_made ds a b d.

Definition from_data (ds : list (Door num)) g : Prop :=
  forall a b d,
    edge_data g a b = Some d ->
    door_made ds a b d \/ exists weight, d = corridor_edge weight.

Lemma same_edge_true u v a b :
  same_edge u v a b = true <-> (u = a /\ v = b) \/ (v = a /\ u = b).
Proof.
  unfold same_edge.
  rewrite orb_true_iff, !andb_true_iff, !String.eqb_eq. tauto.
Qed.

Lemma door_made_sym ds a b d : door_made ds a b d -> door_made ds b a d.
Proof.
  intros [door [dist [Hin [Hj H]]]]. exists door, dist.
  unfold joins in *. tauto.
Qed.

(** *** Rooms *)
Lemma add_rooms_inv fd g :
  wf g ->
  wf (_add_room_nodes fd g) /\
  forall a b, edge_data (_add_room_nodes fd g) a b = edge_data g a b.
Proof.
  intros W. unfold _add_room_nodes. destruct (rooms fd) as [rs|]; [|auto].
  apply fold_left_inv
    with (P := fun g' => wf g' /\
                         forall a b, edge_data g' a b = edge_data g a b);
    [|auto].
  intros g' room _ [W' He]. split; [apply add_node_wf, W'|].
  intros a b. rewrite add_node_edge_data by exact W'. apply He.
Qed.

(** *** Doors *)
Lemma door_edge_overrides (old : EdgeData num) (door : Door num) dist :
  edge_update old (door_edge door dist) = door_edge door dist.
Proof. reflexivity. Qed.

(** What one turn of the door loop does when it does not raise. *)
Lemma add_door_ok g door g' :
  add_door g door = Ok g' ->
  ((forall a b, door_connects door <> Some [a; b]) /\ g' = g) \/
  exists a b dist,
    door_connects door = Some [a; b] /\
    _calculate_distance (door_position door) (door_position door) = Ok dist /\
    g' = add_edge a b (door_edge door dist) g.
Proof.
  unfold add_door.
  destruct (door_connects door) as [[|a [|b [|c l]]]|];
    try (intros [= <-]; left; split; [intros; discriminate | reflexivity]).
  destruct (_calculate_distance _ _) as [dist|e]; cbn; [|discriminate].
  intros [= <-]. right. exists a, b, dist. auto.
Qed.

Lemma add_door_wf g door g' : wf g -> add_door g door = Ok g' -> wf g'.
Proof.
  intros W H.
  destruct (add_door_ok _ _ H) as [[_ ->]|[a [b [dist [_ [_ ->]]]]]];
    [exact W | apply add_edge_wf, W].
Qed.

Lemma add_door_skips g door :
  (forall a b, door_connects door <> Some [a; b]) -> add_door g door = Ok g.
Proof.
  intros H. unfold add_door.
  destruct (door_connects door) as [[|u [|v [|c l]]]|]; try reflexivity.
  exfalso. eapply H. reflexivity.
Qed.

Lemma add_door_new ds g door g' a b :
  wf g -> In door ds -> door_connects door = Some [a; b] ->
  add_door g door = Ok g' -> door_at ds g' a b.
Proof.
  intros W Hin Hc H.
  destruct (add_door_ok _ _ H) as [[Hno _]|[a' [b' [dist [Hc' [Hd ->]]]]]].
  { exfalso. exact (Hno a b Hc). }
  rewrite Hc in Hc'. injection Hc' as <- <-.
  exists (door_edge door dist). split.
  - rewrite add_edge_edge_data by exact W.
    replace (same_edge a b a b) with true;
      [rewrite door_edge_overrides; reflexivity|].
    symmetry. apply same_edge_true. auto.
  - exists door, dist. unfold joins. auto.
Qed.

Lemma add_door_door_at ds g door g' a b :
  wf g -> In door ds -> add_door g door = Ok g' ->
  door_at ds g a b -> door_at ds g' a b.
Proof.
  intros W Hin H [d [Hd Hm]].
  destruct (add_door_ok _ _ H) as [[_ ->]|[u [v [dist [Hc [Hdist ->]]]]]].
  { exists d. split; assumption. }
  unfold door_at. rewrite add_edge_edge_data by exact W.
  destruct (same_edge u v a b) eqn:Es; [|exists d; split; assumption].
  exists (door_edge door dist).
  split; [rewrite door_edge_overrides; reflexivity|].
  exists door, dist. split; [exact Hin|]. split; [|auto].
  apply same_edge_true in Es. unfold joins.
  destruct Es as [[-> ->]|[-> ->]]; auto.
Qed.

(** After a turn of the door loop every edge is as before, or it is the
    door's. *)
Lemma add_door_edge ds g door g' a b d :
  wf g -> In door ds -> add_door g door = Ok g' ->
  edge_data g' a b = Some d ->
  edge_data g a b = Some d \/ door_made ds a b d.
Proof.
  intros W Hin H.
  destruct (add_door_ok _ _ H) as [[_ ->]|[u [v [dist [Hc [Hdist ->]]]]]];
    [auto|].
  rewrite add_edge_edge_data by exact W.
  destruct (same_edge u v a b) eqn:Es; [|auto].
  rewrite door_edge_overrides. intros [= <-]. right.
  exists door, dist. split; [exact Hin|]. split; [|auto].
  apply same_edge_true in Es. unfold joins.
  destruct Es as [[-> ->]|[-> ->]]; auto.
Qed.

Lemma add_door_from_data ds g door g' :
  wf g -> In door ds -> add_door g door = Ok g' ->
  from_data ds g -> from_data ds g'.
Proof.
  intros W Hin H Hf a b d Hd.
  destruct (@add_door_edge ds g door g' a b d W Hin H Hd) as [Hd'|Hm];
    [|auto].
  apply Hf, Hd'.
Qed.

Lemma add_doors_inv ds l g g' :
  incl l ds -> wf g -> from_data ds g ->
  fold_result add_door l g = Ok g' ->
  wf g' /\ from_data ds g' /\
  (forall a b, door_at ds g a b -> door_at ds g' a b) /\
  (forall door a b,
      In door l -> door_connects door = Some [a; b] -> door_at ds g' a b).
Proof.
  revert g. induction l as [|door l IH]; cbn; intros g Hl W Hf H.
  - injection H as <-. split; [exact W|]. split; [exact Hf|].
    split; [auto|]. intros ? ? ? [].
  - destruct (add_door g door) as [g1|e] eqn:E1; cbn in H; [|discriminate].
    assert (Hin : In door ds) by (apply Hl; left; reflexivity).
    assert (Hl' : incl l ds) by (intros x Hx; apply Hl; right; exact Hx).
    assert (W1 : wf g1) by (exact (@add_door_wf g door g1 W E1)).
    assert (Hf1 : from_data ds g1)
      by (exact (@add_door_from_data ds g door g1 W Hin E1 Hf)).
    destruct (IH g1 Hl' W1 Hf1 H) as [W' [Hf' [Hk Hn]]].
    split; [exact W'|]. split; [exact Hf'|]. split.
    + intros a b Hd. apply Hk.
      exact (@add_door_door_at ds g door g1 a b W Hin E1 Hd).
    + intros door' a b [<-|Hin'] Hc.
      * apply Hk. exact (@add_door_new ds g door g1 a b W Hin Hc E1).
      * eapply Hn; eauto.
Qed.

(** *** Corridors *)
Lemma corridor_edge_fresh (weight : num) :
  edge_update no_edge_data (corridor_edge weight) = corridor_edge weight.
Proof. reflexivity. Qed.

(** What one turn of the inner corridor loop does when it does not
    raise. *)
Lemma add_corridor_ok room1 g room2 g' :
  add_corridor room1 g room2 = Ok g' ->
  g' = g \/
  (has_edge g (room_id room1) (room_id room2) = false /\
   exists distance weight,
     _calculate_distance (room_center room1) (room_center room2)
     = Ok distance /\
     nltb distance (of_Z 200) = true /\
     py_mul distance lit_1_2 = Ok weight /\
     g' = add_edge (room_id room1) (room_id room2) (corridor_edge weight) g).
Proof.
  unfold add_corridor.
  destruct (has_edge g (room_id room1) (room_id room2)) eqn:Eh;
    [intros [= <-]; auto|].
  destruct (_calculate_distance _ _) as [dist|e] eqn:Ed; cbn;
    [|discriminate].
  destruct (nltb dist (of_Z 200)) eqn:El; [|intros [= <-]; auto].
  destruct (py_mul dist lit_1_2) as [w|e] eqn:Em; cbn; [|discriminate].
  intros [= <-]. right. split; [reflexivity|]. exists dist, w.
  split; [reflexivity|]. split; [exact El|]. split; [exact Em | reflexivity].
Qed.

Lemma add_corridor_wf room1 g room2 g' :
  wf g -> add_corridor room1 g room2 = Ok g' -> wf g'.
Proof.
  intros W H.
  destruct (add_corridor_ok _ _ _ H) as [->|[_ [dist [w [_ [_ [_ ->]]]]]]];
    [exact W | apply add_edge_wf, W].
Qed.

Lemma add_corridor_edge_data room1 g room2 g' a b :
  wf g -> add_corridor room1 g room2 = Ok g' ->
  edge_data g' a b = edge_data g a b \/
  (edge_data g a b = None /\
   exists weight, edge_data g' a b = Some (corridor_edge weight)).
Proof.
  intros W H.
  destruct (add_corridor_ok _ _ _ H) as [->|[Eh [dist [w [_ [_ [_ ->]]]]]]];
    [auto|].
  assert (Hn : edge_data g (room_id room1) (room_id room2) = None).
  { unfold has_edge in Eh. destruct (edge_data g _ _); congruence. }
  rewrite add_edge_edge_data by exact W.
  destruct (same_edge _ _ a b) eqn:Es; [|auto].
  right. unfold prior. rewrite Hn, corridor_edge_fresh. split; [|eauto].
  apply same_edge_true in Es. destruct Es as [[<- <-]|[<- <-]].
  - exact Hn.
  - rewrite (wf_sym W). exact Hn.
Qed.

(** What every step of the corridor pass keeps, relative to the graph
    [g0] the pass starts from. *)
Definition corridor_inv (ds : list (Door num)) (g0 g : Graph num) : Prop :=
  wf g /\ from_data ds g /\
  forall a b d, edge_data g0 a b = Some d -> edge_data g a b = Some d.

Lemma add_corridor_inv ds g0 room1 g room2 g' :
  add_corridor room1 g room2 = Ok g' ->
  corridor_inv ds g0 g -> corridor_inv ds g0 g'.
Proof.
  intros H [W [Hf Hk]].
  split; [exact (@add_corridor_wf room1 g room2 g' W H)|]. split.
  - intros a b d Hd.
    destruct (@add_corridor_edge_data room1 g room2 g' a b W H) as [E|[_ [w E]]];
      rewrite E in Hd.
    + apply Hf in Hd. exact Hd.
    + right. exists w. congruence.
  - intros a b d Hd. apply Hk in Hd.
    destruct (@add_corridor_edge_data room1 g room2 g' a b W H) as [E|[E _]];
      congruence.
Qed.

Lemma corridor_pairs_inv ds g0 rs g g' :
  corridor_pairs rs g = Ok g' ->
  corridor_inv ds g0 g -> corridor_inv ds g0 g'.
Proof.
  revert g. induction rs as [|room1 rest IH]; cbn; intros g H Hi.
  - injection H as <-. exact Hi.
  - destruct (fold_result (add_corridor room1) rest g) as [g1|e] eqn:E1;
      cbn in H; [|discriminate].
    apply (IH g1 H).
    eapply fold_result_inv with (P := corridor_inv ds g0);
      [|exact Hi | exact E1].
    intros s room2 s' _ Hs Hstep. eapply add_corridor_inv; eassumption.
Qed.

(** *** The whole build *)

(** A build that returns a graph went through the three passes. *)
Lemma build_graph_passes_ok fd g :
  build_graph fd = Ok g ->
  floor_data_empty fd = false /\
  exists g2,
    _add_door_connections fd (_add_room_nodes fd empty_graph) = Ok g2 /\
    _add_corridor_connections fd g2 = Ok g.
Proof.
  unfold build_graph. destruct (floor_data_empty fd); [discriminate|].
  cbn zeta.
  destruct (_add_door_connections fd (_add_room_nodes fd empty_graph))
    as [g2|e]; cbn [bind]; [|discriminate].
  destruct (_add_corridor_connections fd g2) as [g3|e] eqn:E3; cbn [bind];
    [|discriminate].
  intros [= <-]. split; [reflexivity|]. exists g2.
  split; [reflexivity | exact E3].
Qed.

Lemma build_graph_inv fd g :
  build_graph fd = Ok g ->
  wf g /\ from_data (doors_of fd) g /\
  forall door a b,
    In door (doors_of fd) -> door_connects door = Some [a; b] ->
    door_at (doors_of fd) g a b.
Proof.
  intros Hb. destruct (build_graph_passes_ok fd Hb) as [_ [g2 [E2 E3]]].
  destruct (add_rooms_inv fd (@wf_empty num)) as [W1 He1].
  set (g1 := _add_room_nodes fd empty_graph) in *.
  assert (Hf1 : from_data (doors_of fd) g1).
  { intros a b d. rewrite He1. discriminate. }
  assert (H2 : wf g2 /\ from_data (doors_of fd) g2 /\
               forall door a b,
                 In door (doors_of fd) ->
                 door_connects door = Some [a; b] ->
                 door_at (doors_of fd) g2 a b).
  { unfold _add_door_connections, doors_of in *.
    destruct (doors fd) as [ds|].
    - destruct (add_doors_inv (ds := ds) (l := ds) (incl_refl ds) W1 Hf1 E2)
        as [W2 [Hf2 [_ Hn]]].
      split; [exact W2|]. split; [exact Hf2 | exact Hn].
    - injection E2 as <-. split; [exact W1|]. split; [exact Hf1|].
      intros ? ? ? []. }
  destruct H2 as [W2 [Hf2 Hd2]].
  assert (H3 : corridor_inv (doors_of fd) g2 g).
  { unfold _add_corridor_connections in E3.
    assert (H0 : corridor_inv (doors_of fd) g2 g2).
    { split; [exact W2|]. split; [exact Hf2 | auto]. }
    destruct (rooms fd);
      [eapply corridor_pairs_inv; eassumption
      | injection E3 as <-; exact H0]. }
  destruct H3 as [W3 [Hf3 Hk3]].
  split; [exact W3|]. split; [exact Hf3|].
  intros door a b Hin Hc.
  destruct (Hd2 door a b Hin Hc) as [d [Hd Hm]].
  exists d. split; [apply Hk3, Hd | exact Hm].
Qed.

(** Inserting an edge cannot fail: an endpoint that is not a node yet
    becomes one. *)
Lemma add_edge_creates_endpoints u v attr g :
  wf g ->
  has_node (add_edge u v attr g) u = true /\
  has_node (add_edge u v attr g) v = true /\
  has_edge (add_edge u v attr g) u v = true.
Proof.
  intros W. rewrite !add_edge_has_node, !String.eqb_refl.
  split; [reflexivity|]. split.
  { destruct (String.eqb u v); reflexivity. }
  unfold has_edge. rewrite add_edge_edge_data by exact W.
  replace (same_edge u v u v) with true; [reflexivity|].
  symmetry. apply same_edge_true. auto.
Qed.

(** C6, as the code has it: in a built graph both endpoints of every
    edge are nodes, because [add_edge] adds the endpoints it does not
    find; a door that names a room missing from the room list therefore
    yields an edge to a new node with that name. *)
Theorem built_edges_join_nodes fd g :
  build_graph fd = Ok g ->
  (forall a b, has_edge g a b = true ->
               has_node g a = true /\ has_node g b = true) /\
  (forall door a b,
      In door (doors_of fd) -> door_connects door = Some [a; b] ->
      has_edge g a b = true /\ has_node g a = true /\ has_node g b = true).
Proof.
  intros H. destruct (build_graph_inv fd H) as [W [_ Hd]]. split.
  - intros a b He. unfold has_edge in He.
    destruct (edge_data g a b) eqn:E; [|discriminate].
    eapply edge_data_node; eauto.
  - intros door a b Hin Hc. destruct (Hd door a b Hin Hc) as [d [E _]].
    split; [unfold has_edge; rewrite E; reflexivity|].
    eapply edge_data_node; eauto.
Qed.
End BuilderFacts.

Lemma built_edges_join_nodes_witness :
  exists g,
    build_graph dangling_door_data = Ok g /\
    has_edge g "101" "999" = true /\
    has_node g "101" = true /\ has_node g "999" = true.
Proof.
  destruct (build_graph dangling_door_data) as [g|] eqn:E;
    [|vm_compute in E; discriminate].
  exists g. split; [reflexivity|].
  refine (proj2 (built_edges_join_nodes dangling_door_data E)
            {| door_id := "d9"; door_position := pos 200 100;
               door_connects := Some ["101"; "999"] |} "101" "999" _ _).
  - left. reflexivity.
  - reflexivity.
Defined.

(** C6 as stated fails: the door d9 names the room 999, which is not in
    the room list; the build does not fail and the graph has the node. *)
Lemma dangling_door_adds_node :
  exists g,
    build_graph dangling_door_data = Ok g /\
    existsb (String.eqb "999") (map (@room_id pynum) sample_rooms) = false /\
    has_node g "999" = true /\
    od_get "999" (_node g) = Some no_node_data.
Proof. eexists. vm_compute. repeat split. Qed.

(** ** Door weights, in Python's numbers *)

Lemma sub_self_float (f : float) :
  finite_float f = true -> PrimFloat.sub f f = 0%float.
Proof.
  unfold finite_float. intros H. apply Prim2SF_inj. rewrite sub_spec.
  destruct (Prim2SF f) as [s|s| |s m e]; try discriminate.
  - destruct s; reflexivity.
  - unfold SF64sub, SFsub. rewrite Z.min_id. unfold shl_align.
    rewrite !Z.sub_diag. reflexivity.
Qed.

(** An infinity or a NaN minus itself is a NaN. *)
Lemma sub_self_nan (f : float) :
  finite_float f = false -> PrimFloat.sub f f = nan.
Proof.
  unfold finite_float. intros H. apply Prim2SF_inj. rewrite sub_spec.
  destruct (Prim2SF f) as [s|s| |s m e]; try discriminate.
  - destruct s; reflexivity.
  - reflexivity.
Qed.

(** The weight a door at [p] gets. *)
Definition self_distance (p : Pos pynum) : pynum :=
  if finite_pos p then PyFloat 0%float else PyFloat nan.

(** The distance from a point to itself never raises: it is [0.0] for
    finite coordinates and a NaN otherwise. *)
Lemma self_distance_spec (p : Pos pynum) :
  _calculate_distance p p = Ok (self_distance p).
Proof.
  unfold self_distance, finite_pos, _calculate_distance.
  destruct p as [[x|x] [y|y]];
    cbn [pos_x pos_y py_sub PyMath_pynum py_op as_float bind finite_num
         andb];
    rewrite ?Z.sub_diag.
  - vm_compute. reflexivity.
  - destruct (finite_float y) eqn:Ey;
      [rewrite (sub_self_float y Ey) | rewrite (sub_self_nan y Ey)];
      vm_compute; reflexivity.
  - destruct (finite_float x) eqn:Ex;
      [rewrite (sub_self_float x Ex) | rewrite (sub_self_nan x Ex)];
      vm_compute; reflexivity.
  - destruct (finite_float x) eqn:Ex;
      [rewrite (sub_self_float x Ex) | rewrite (sub_self_nan x Ex)];
      (destruct (finite_float y) eqn:Ey;
       [rewrite (sub_self_float y Ey) | rewrite (sub_self_nan y Ey)]);
      vm_compute; reflexivity.
Qed.

Lemma add_door_pynum (g : Graph pynum) (door : Door pynum) :
  exists g', add_door g door = Ok g'.
Proof.
  unfold add_door.
  destruct (door_connects door) as [[|a [|b [|c l]]]|]; eauto.
  rewrite self_distance_spec. cbn [bind]. eauto.
Qed.

(** The door loop never raises. *)
Lemma add_doors_pynum (ds : list (Door pynum)) (g : Graph pynum) :
  exists g', fold_result add_door ds g = Ok g'.
Proof.
  revert g. induction ds as [|door ds IH]; cbn [fold_result]; intros g;
    [eauto|].
  destruct (add_door_pynum g door) as [g1 ->]. cbn [bind]. apply IH.
Qed.

Lemma add_doors_skip {num} {NumOps : PyNum num} {MathOps : PyMath num}
    (ds : list (Door num)) (g : Graph num) :
  fold_result add_door (filter two_rooms ds) g = fold_result add_door ds g.
Proof.
  revert g. induction ds as [|door ds IH]; cbn [filter fold_result];
    intros g; [reflexivity|].
  destruct (two_rooms door) eqn:E; cbn [fold_result].
  - destruct (add_door g door); cbn [bind]; [apply IH | reflexivity].
  - rewrite (add_door_skips g door); [cbn [bind]; apply IH|].
    intros a b Hc. unfold two_rooms in E. rewrite Hc in E. discriminate.
Qed.

Lemma build_graph_skips {num} {NumOps : PyNum num} {MathOps : PyMath num}
    (fd : FloorData num) :
  build_graph (only_two_room_doors fd) = build_graph fd.
Proof.
  unfold build_graph.
  assert (He : floor_data_empty (only_two_room_doors fd) = floor_data_empty fd).
  { unfold floor_data_empty, only_two_room_doors; cbn.
    destruct (floor_id fd), (floor_number fd), (rooms fd), (doors fd);
      reflexivity. }
  rewrite He. destruct (floor_data_empty fd); [reflexivity|].
  unfold _add_corridor_connections, _add_door_connections, _add_room_nodes,
    only_two_room_doors; cbn.
  destruct (doors fd) as [ds|]; cbn; [|reflexivity].
  rewrite add_doors_skip. reflexivity.
Qed.

(** C7, as the code has it: the door loop never raises, and the doors
    with another number of connections than two change nothing; in the
    built graph every door with exactly two connected rooms leaves a
    [door] edge between them, and every [door] edge carries the id of a
    two-room door between its ends and, as its weight, the distance from
    that door's position to itself: [0.0] when both coordinates are
    finite numbers, a NaN when one is an infinity or a NaN. *)
Theorem door_edges_weigh_zero (fd : FloorData pynum) :
  (exists g2,
      _add_door_connections fd (_add_room_nodes fd empty_graph) = Ok g2) /\
  build_graph (only_two_room_doors fd) = build_graph fd /\
  forall g,
    build_graph fd = Ok g ->
    (forall door a b,
        In door (doors_of fd) -> door_connects door = Some [a; b] ->
        exists d, edge_data g a b = Some d /\ e_type d = Some "door") /\
    (forall a b d,
        edge_data g a b = Some d -> e_type d = Some "door" ->
        exists door,
          In door (doors_of fd) /\ joins door a b /\
          e_door_id d = Some (door_id door) /\
          _calculate_distance (door_position door) (door_position door)
          = Ok (self_distance (door_position door)) /\
          e_weight d = Some (self_distance (door_position door)) /\
          (finite_pos (door_position door) = true ->
           e_weight d = Some (PyFloat 0%float))).
Proof.
  split.
  { unfold _add_door_connections. destruct (doors fd) as [ds|]; [|eauto].
    apply add_doors_pynum. }
  split; [apply build_graph_skips|].
  intros g Hg. destruct (build_graph_inv fd Hg) as [W [Hf Hd]].
  split.
  - intros door a b Hin Hc.
    destruct (Hd door a b Hin Hc) as [d [E [door' [dist [_ [_ [_ ->]]]]]]].
    exists (door_edge door' dist). split; [exact E | reflexivity].
  - intros a b d E Ht. destruct (Hf a b d E) as [Hm|[w ->]]; [|discriminate].
    destruct Hm as [door [dist [Hin [Hj [Hdist ->]]]]].
    exists door. split; [exact Hin|]. split; [exact Hj|].
    split; [reflexivity|].
    rewrite self_distance_spec in Hdist. injection Hdist as <-.
    split; [apply self_distance_spec|]. split; [reflexivity|].
    intros Hfin. cbn [e_weight door_edge]. unfold self_distance.
    rewrite Hfin. reflexivity.
Qed.

Lemma door_edges_weigh_zero_witness :
  exists g,
    build_graph sample_data = Ok g /\
    exists d, edge_data g "101" "102" = Some d /\ e_type d = Some "door" /\
              e_weight d = Some (PyFloat 0%float).
Proof.
  destruct (build_graph sample_data) as [g|] eqn:Hg;
    [|vm_compute in Hg; discriminate].
  exists g. split; [reflexivity|].
  destruct (door_edges_weigh_zero sample_data) as [_ [_ H]].
  destruct (H g Hg) as [Hdoor Hedge].
  destruct (Hdoor {| door_id := "d1"; door_position := pos 200 100;
                     door_connects := Some ["101"; "102"] |}
              "101" "102" (or_introl eq_refl) eq_refl) as [d [E Ht]].
  exists d. split; [exact E|]. split; [exact Ht|].
  destruct (Hedge "101" "102" d E Ht)
    as [door [Hin [_ [_ [_ [_ Hz]]]]]].
  apply Hz. destruct Hin as [<-|[]]. reflexivity.
Defined.

(** C7 as stated fails at a door whose position has an infinite
    coordinate ([Infinity] in the JSON file): its edge weighs NaN,
    which is not 0. *)
Lemma door_weight_not_zero :
  exists g d w,
    build_graph infinite_door_data = Ok g /\
    edge_data g "101" "102" = Some d /\ e_type d = Some "door" /\
    e_weight d = Some w /\ neqb w (PyInt 0) = false.
Proof.
  eexists. eexists. eexists. split; [vm_compute; reflexivity|].
  split; [vm_compute; reflexivity|]. split; [reflexivity|].
  split; [reflexivity|]. vm_compute. reflexivity.
Qed.

(** ** Membership in [G.edges] and in the arc list *)

Section EdgeLists.
Variable num : Type.
Context {NumOps : PyNum num}.
Implicit Types (g : Graph num) (u v a b n : string).

Lemma wf_nodup_top g : wf g -> NoDup (od_keys (_adj g)).
Proof. intros W. rewrite (wf_keys W). apply W. Qed.

Lemma In_adj_edge_data g u v nbrs d :
  wf g -> In (u, nbrs) (_adj g) -> In (v, d) nbrs -> edge_data g u v = Some d.
Proof.
  intros W Hu Hv. unfold edge_data.
  rewrite (od_In_get _ _ _ (wf_nodup_top W) Hu).
  apply od_In_get; [|exact Hv].
  eapply wf_nodup_adj; [exact W|].
  apply od_In_get; [apply wf_nodup_top, W | exact Hu].
Qed.

Lemma edge_data_In_adj g u v d :
  edge_data g u v = Some d ->
  exists nbrs, In (u, nbrs) (_adj g) /\ In (v, d) nbrs.
Proof.
  unfold edge_data. destruct (od_get u (_adj g)) as [nbrs|] eqn:E;
    [|discriminate].
  intros H. exists nbrs. split; apply od_get_In; assumption.
Qed.

Lemma In_arcs g u v w :
  In (u, v, w) (arcs g) <->
  exists nbrs d, In (u, nbrs) (_adj g) /\ In (v, d) nbrs /\ w = weight_of d.
Proof.
  unfold arcs. rewrite in_flat_map. split.
  - intros [[u' nbrs] [Hu Hin]]. cbn in Hin. apply in_map_iff in Hin.
    destruct Hin as [[v' d] [Heq Hv]]. cbn in Heq. inversion Heq; subst.
    exists nbrs, d. auto.
  - intros [nbrs [d [Hu [Hv ->]]]]. exists (u, nbrs). split; [exact Hu|].
    cbn. apply in_map_iff. exists (v, d). auto.
Qed.

Lemma In_arcs_edge_data g u v w :
  wf g ->
  (In (u, v, w) (arcs g) <->
   exists d, edge_data g u v = Some d /\ w = weight_of d).
Proof.
  intros W. rewrite In_arcs. split.
  - intros [nbrs [d [Hu [Hv ->]]]]. exists d. split; [|reflexivity].
    eapply In_adj_edge_data; eassumption.
  - intros [d [He ->]]. destruct (edge_data_In_adj _ _ _ He) as [nbrs [Hu Hv]].
    exists nbrs, d. auto.
Qed.

Lemma In_edges_from seen (adj : odict (odict (EdgeData num))) u v d :
  In (u, v, d) (edges_from seen adj) ->
  exists nbrs, In (u, nbrs) adj /\ In (v, d) nbrs.
Proof.
  revert seen. induction adj as [|[n nbrs] rest IH]; cbn; intros seen H.
  - contradiction.
  - apply in_app_or in H. destruct H as [H|H].
    + apply in_map_iff in H. destruct H as [[k e] [Heq Hf]].
      cbn in Heq. inversion Heq; subst.
      apply filter_In in Hf. destruct Hf as [Hf _].
      exists nbrs. auto.
    + destruct (IH _ H) as [nbrs' [Hu Hv]]. exists nbrs'. auto.
Qed.

Lemma In_edges_edge_data g u v d :
  wf g -> In (u, v, d) (edges g) -> edge_data g u v = Some d.
Proof.
  intros W H. destruct (In_edges_from _ _ _ _ _ H) as [nbrs [Hu Hv]].
  eapply In_adj_edge_data; eassumption.
Qed.
End EdgeLists.

(** ** Bellman-Ford on integer weights *)

Section BellmanFordFacts.
Implicit Types (dist : odict Z) (a : string * string * Z) (u v n : string).

(** Distances as the rounds keep them when no weight is negative: the
    source stays at 0 and nothing goes below 0. *)
Definition bf_inv (source : string) dist : Prop :=
  od_get source dist = Some 0 /\
  forall k d, od_get k dist = Some d -> 0 <= d.

Lemma improves_nonneg source dist u v w d :
  bf_inv source dist -> 0 <= w ->
  improves dist (u, v, w) = Some d -> 0 <= d.
Proof.
  intros [_ Hpos] Hw. unfold improves.
  destruct (od_get u dist) as [du|] eqn:Eu; [|discriminate].
  apply Hpos in Eu. cbn.
  destruct (od_get v dist) as [old|]; [destruct (_ <? _)|];
    intros [= <-]; lia.
Qed.

Lemma bf_relax_inv source dist u v w :
  bf_inv source dist -> 0 <= w -> bf_inv source (bf_relax dist (u, v, w)).
Proof.
  intros Hinv Hw. unfold bf_relax.
  destruct (improves dist (u, v, w)) as [d|] eqn:Ei; [|exact Hinv].
  assert (Hd : 0 <= d) by (eapply improves_nonneg; eauto).
  destruct Hinv as [Hs Hpos]. cbn [fst snd]. split.
  - rewrite od_get_set. destruct (String.eqb v source) eqn:E; [|exact Hs].
    apply String.eqb_eq in E; subst v.
    unfold improves in Ei. destruct (od_get u dist) as [du|] eqn:Eu;
      [|discriminate].
    apply Hpos in Eu. rewrite Hs in Ei. cbn in Ei.
    destruct (du + w <? 0) eqn:El; [|discriminate].
    apply Z.ltb_lt in El. lia.
  - intros k d'. rewrite od_get_set. destruct (String.eqb v k).
    + intros [= <-]. exact Hd.
    + apply Hpos.
Qed.

Lemma bf_relax_keeps_zero source dist a n :
  bf_inv source dist -> 0 <= snd a ->
  od_get n dist = Some 0 -> od_get n (bf_relax dist a) = Some 0.
Proof.
  destruct a as [[u v] w]. cbn [snd]. intros Hinv Hw Hn. unfold bf_relax.
  destruct (improves dist (u, v, w)) as [d|] eqn:Ei; [|exact Hn].
  cbn [fst snd]. rewrite od_get_set.
  destruct (String.eqb v n) eqn:E; [|exact Hn].
  apply String.eqb_eq in E; subst v.
  assert (Hd : 0 <= d) by (eapply improves_nonneg; eauto).
  unfold improves in Ei. destruct (od_get u dist) as [du|]; [|discriminate].
  rewrite Hn in Ei. cbn in Ei.
  destruct (du + w <? 0) eqn:El; [|discriminate].
  apply Z.ltb_lt in El. injection Ei as <-. lia.
Qed.

Lemma bf_relax_from_source source dist n :
  bf_inv source dist ->
  od_get n (bf_relax dist (source, n, 0)) = Some 0.
Proof.
  intros [Hs Hpos]. unfold bf_relax, improves. rewrite Hs. cbn.
  destruct (od_get n dist) as [old|] eqn:En.
  - destruct (0 <? old) eqn:El; cbn.
    + apply od_get_set_eq.
    + apply Z.ltb_ge in El. apply Hpos in En as Hp.
      rewrite En. f_equal. lia.
  - cbn. apply od_get_set_eq.
Qed.

Definition nonneg_arcs (arcs : list (string * string * Z)) : Prop :=
  forall a, In a arcs -> 0 <= snd a.

Lemma bf_fold_inv source arcs dist :
  nonneg_arcs arcs -> bf_inv source dist ->
  bf_inv source (fold_left bf_relax arcs dist).
Proof.
  intros Hn. apply fold_left_inv. intros d [[u v] w] Hin Hd.
  apply bf_relax_inv; [exact Hd | apply (Hn _ Hin)].
Qed.

Lemma bf_fold_keeps_zero source arcs dist n :
  nonneg_arcs arcs -> bf_inv source dist ->
  od_get n dist = Some 0 -> od_get n (fold_left bf_relax arcs dist) = Some 0.
Proof.
  intros Hn Hinv Hz.
  enough (H : bf_inv source (fold_left bf_relax arcs dist) /\
              od_get n (fold_left bf_relax arcs dist) = Some 0) by apply H.
  apply fold_left_inv
    with (P := fun d => bf_inv source d /\ od_get n d = Some 0);
    [|auto].
  intros d a Hin [Hd Hz']. split.
  - destruct a as [[u v] w]. apply bf_relax_inv; [exact Hd | apply (Hn _ Hin)].
  - eapply bf_relax_keeps_zero; eauto.
Qed.

(** One pass over arcs that include [source -> n] of weight 0 leaves [n]
    at 0. *)
Lemma bf_fold_reaches source arcs dist n :
  nonneg_arcs arcs -> bf_inv source dist ->
  In (source, n, 0) arcs ->
  od_get n (fold_left bf_relax arcs dist) = Some 0.
Proof.
  revert dist. induction arcs as [|a rest IH]; cbn; intros dist Hn Hinv Hin.
  - contradiction.
  - assert (Hn' : nonneg_arcs rest) by (intros x Hx; apply Hn; right; exact Hx).
    assert (Hinv' : bf_inv source (bf_relax dist a)).
    { destruct a as [[u v] w]. apply bf_relax_inv; [exact Hinv|].
      apply (Hn (u, v, w)). left. reflexivity. }
    destruct Hin as [->|Hin].
    + eapply bf_fold_keeps_zero; eauto.
      apply bf_relax_from_source. exact Hinv.
    + apply IH; assumption.
Qed.
End BellmanFordFacts.
Section BellmanFordResult.
Variable g : Graph Z.
Variable source : string.
Hypothesis W : wf g.
Hypothesis Hsrc : has_node g source = true.
(** Every node is the source or has a zero-weight arc from it. *)
Hypothesis Hzero :
  forall n, has_node g n = true -> n = source \/ In (source, n, 0) (arcs g).

Lemma bf_rounds_inv k dist :
  nonneg_arcs (arcs g) -> bf_inv source dist ->
  bf_inv source (bf_rounds g k dist).
Proof.
  intros Hn. revert dist. induction k as [|k IH]; cbn; intros dist Hd; auto.
  apply IH. unfold bf_round. apply bf_fold_inv; assumption.
Qed.

Lemma bf_rounds_keeps_zero k dist n :
  nonneg_arcs (arcs g) -> bf_inv source dist ->
  od_get n dist = Some 0 -> od_get n (bf_rounds g k dist) = Some 0.
Proof.
  intros Hn. revert dist. induction k as [|k IH]; cbn; intros dist Hd Hz; auto.
  apply IH.
  - unfold bf_round. apply bf_fold_inv; assumption.
  - unfold bf_round. eapply bf_fold_keeps_zero; eauto.
Qed.

Lemma only_node n :
  (number_of_nodes g - 1 = 0)%nat -> has_node g n = true -> n = source.
Proof.
  unfold number_of_nodes, has_node in *. intros Hk Hn.
  apply od_mem_In in Hn. apply od_mem_In in Hsrc.
  destruct (_node g) as [|[k0 d0] [|p r]]; cbn in *.
  - destruct Hn.
  - destruct Hn as [<-|[]]. destruct Hsrc as [<-|[]]. reflexivity.
  - lia.
Qed.

Lemma bf_all_zero n :
  nonneg_arcs (arcs g) -> has_node g n = true ->
  od_get n (bf_rounds g (number_of_nodes g - 1) [(source, 0)]) = Some 0.
Proof.
  intros Hn Hnode.
  assert (H0 : bf_inv source [(source, 0)]).
  { split; cbn; rewrite ?String.eqb_refl; [reflexivity|].
    intros k d. destruct (String.eqb source k); [|discriminate].
    intros [= <-]. lia. }
  assert (Hs0 : od_get source [(source, 0)] = Some 0) by apply H0.
  destruct (number_of_nodes g - 1)%nat as [|k] eqn:Ek.
  - rewrite (only_node n Ek Hnode). exact Hs0.
  - cbn. destruct (Hzero n Hnode) as [->|Harc].
    + apply bf_rounds_keeps_zero; auto.
      * unfold bf_round. apply bf_fold_inv; assumption.
      * unfold bf_round. eapply bf_fold_keeps_zero; eauto.
    + apply bf_rounds_keeps_zero; auto.
      * unfold bf_round. apply bf_fold_inv; assumption.
      * unfold bf_round. eapply bf_fold_reaches; eauto.
Qed.

Lemma arc_ends u v w :
  In (u, v, w) (arcs g) -> has_node g u = true /\ has_node g v = true.
Proof.
  intros H. apply In_arcs_edge_data in H; [|exact W].
  destruct H as [d [He _]]. eapply edge_data_node; eauto.
Qed.

(** With no negative weight, the distances are all 0 and no negative
    cycle is reported. *)
Lemma bellman_ford_nonneg :
  nonneg_arcs (arcs g) ->
  exists h,
    single_source_bellman_ford_path_length g source = Ok h /\
    forall n, has_node g n = true -> od_get n h = Some 0.
Proof.
  intros Hn. unfold single_source_bellman_ford_path_length.
  rewrite Hsrc. cbn [negb].
  set (dist := bf_rounds g (number_of_nodes g - 1) [(source, of_Z 0)]).
  assert (Hz : forall n, has_node g n = true -> od_get n dist = Some 0)
    by (intros n; apply bf_all_zero; exact Hn).
  assert (Hex : existsb (fun a => match improves dist a with
                                  | Some _ => true
                                  | None => false
                                  end) (arcs g) = false).
  { apply not_true_is_false. intros Hex. apply existsb_exists in Hex.
    destruct Hex as [[[u v] w] [Hin Himp]].
    destruct (arc_ends _ _ _ Hin) as [Hu Hv].
    pose proof (Hn _ Hin) as Hw. cbn in Hw.
    unfold improves in Himp. rewrite (Hz u Hu), (Hz v Hv) in Himp.
    cbn in Himp. destruct (w <? 0) eqn:El; [|discriminate].
    apply Z.ltb_lt in El. lia. }
  rewrite Hex. exists dist. auto.
Qed.

(** *** A negative edge *)
Definition defined (dist : odict Z) (n : string) : Prop :=
  od_get n dist <> None.

Lemma bf_relax_defined dist a n :
  defined dist n -> defined (bf_relax dist a) n.
Proof.
  unfold defined, bf_relax. intros H.
  destruct (improves dist a); [|exact H].
  rewrite od_get_set. destruct (String.eqb _ n); [discriminate | exact H].
Qed.

Lemma bf_relax_defines dist u v w :
  defined dist u -> defined (bf_relax dist (u, v, w)) v.
Proof.
  unfold defined, bf_relax, improves. intros H.
  destruct (od_get u dist) as [du|]; [|congruence]. cbn.
  destruct (od_get v dist) as [old|] eqn:Ev.
  - destruct (du + w <? old); cbn.
    + rewrite od_get_set_eq. discriminate.
    + rewrite Ev. discriminate.
  - cbn. rewrite od_get_set_eq. discriminate.
Qed.

Lemma bf_fold_defined arcs dist n :
  defined dist n -> defined (fold_left bf_relax arcs dist) n.
Proof.
  apply fold_left_inv with (P := fun d => defined d n).
  intros d a _. apply bf_relax_defined.
Qed.

Lemma bf_fold_defines arcs dist u v w :
  defined dist u -> In (u, v, w) arcs ->
  defined (fold_left bf_relax arcs dist) v.
Proof.
  revert dist. induction arcs as [|a rest IH]; cbn; intros dist Hu Hin.
  - contradiction.
  - destruct Hin as [->|Hin].
    + apply bf_fold_defined. apply bf_relax_defines. exact Hu.
    + apply IH; [apply bf_relax_defined, Hu | exact Hin].
Qed.

Lemma bf_rounds_defined k dist n :
  defined dist n -> defined (bf_rounds g k dist) n.
Proof.
  revert dist. induction k as [|k IH]; cbn; intros dist H; auto.
  apply IH. unfold bf_round. apply bf_fold_defined. exact H.
Qed.

Lemma bf_all_defined n :
  has_node g n = true ->
  defined (bf_rounds g (number_of_nodes g - 1) [(source, 0)]) n.
Proof.
  intros Hnode.
  assert (Hs0 : defined [(source, 0)] source).
  { unfold defined. cbn. rewrite String.eqb_refl. discriminate. }
  destruct (number_of_nodes g - 1)%nat as [|k] eqn:Ek.
  - rewrite (only_node n Ek Hnode). exact Hs0.
  - cbn. apply bf_rounds_defined. unfold bf_round.
    destruct (Hzero n Hnode) as [->|Harc].
    + apply bf_fold_defined. exact Hs0.
    + eapply bf_fold_defines; eauto.
Qed.

(** An edge of negative weight, seen from both ends, is reported as a
    negative cycle. *)
Lemma bellman_ford_negative u v w :
  In (u, v, w) (arcs g) -> In (v, u, w) (arcs g) -> w < 0 ->
  single_source_bellman_ford_path_length g source
  = Raise (NetworkXUnbounded "Negative cycle detected.").
Proof.
  intros Huv Hvu Hw. unfold single_source_bellman_ford_path_length.
  rewrite Hsrc. cbn [negb].
  set (dist := bf_rounds g (number_of_nodes g - 1) [(source, of_Z 0)]).
  destruct (existsb _ (arcs g)) eqn:Hex; [reflexivity|]. exfalso.
  destruct (arc_ends _ _ _ Huv) as [Hu Hv].
  assert (Du : od_get u dist <> None) by apply (bf_all_defined u Hu).
  assert (Dv : od_get v dist <> None) by apply (bf_all_defined v Hv).
  assert (Hnone : forall a, In a (arcs g) -> improves dist a = None).
  { intros a Ha. destruct (improves dist a) eqn:E; [|reflexivity].
    assert (Ht : existsb (fun a => match improves dist a with
                                   | Some _ => true
                                   | None => false
                                   end) (arcs g) = true).
    { apply existsb_exists. exists a. rewrite E. auto. }
    congruence. }
  pose proof (Hnone _ Huv) as H1. pose proof (Hnone _ Hvu) as H2.
  unfold improves in H1, H2.
  destruct (od_get u dist) as [du|]; [|congruence].
  destruct (od_get v dist) as [dv|]; [|congruence].
  cbn in H1, H2.
  destruct (du + w <? dv) eqn:E1; [discriminate|].
  destruct (dv + w <? du) eqn:E2; [discriminate|].
  apply Z.ltb_ge in E1, E2. lia.
Qed.
End BellmanFordResult.
(** ** [remove_node] *)

Section RemoveNodeFacts.
Variable num : Type.
Implicit Types (g : Graph num) (u v a b n m : string)
  (adj : odict (odict (EdgeData num))).

Lemma od_del_keys_incl {V} k (d : odict V) x :
  In x (od_keys (od_del k d)) -> In x (od_keys d).
Proof.
  induction d as [|[k0 v0] r IH]; cbn; [tauto|].
  destruct (String.eqb k0 k); cbn; [auto|].
  intros [H|H]; auto.
Qed.

Lemma od_del_NoDup {V} k (d : odict V) :
  NoDup (od_keys d) -> NoDup (od_keys (od_del k d)).
Proof.
  induction d as [|[k0 v0] r IH]; cbn; intros H; [constructor|].
  inversion H as [|? ? Hnot Hnd]; subst.
  destruct (String.eqb k0 k); cbn; [exact Hnd|].
  constructor; [|auto].
  intros Hin. apply Hnot. eapply od_del_keys_incl. exact Hin.
Qed.

Lemma od_keys_del_last {V} k (d : odict V) l :
  od_keys d = l ++ [k] -> ~ In k l -> od_keys (od_del k d) = l.
Proof.
  revert l. induction d as [|[k0 v0] r IH]; cbn; intros l Hl Hnot.
  - destruct l; discriminate.
  - destruct l as [|x l]; cbn in Hl.
    + injection Hl as -> Hr. rewrite String.eqb_refl.
      exact Hr.
    + injection Hl as -> Hr.
      destruct (String.eqb x k) eqn:E.
      * apply String.eqb_eq in E; subst. exfalso. apply Hnot. left. reflexivity.
      * cbn. f_equal. apply IH; [exact Hr|].
        intros Hin. apply Hnot. right. exact Hin.
Qed.

Definition inner_nodup adj : Prop :=
  forall u nbrs, od_get u adj = Some nbrs -> NoDup (od_keys nbrs).

(** The body of [for u in nbrs: del adj[u][n]]. *)
Definition strip n adj u : odict (odict (EdgeData num)) :=
  od_set u (od_del n (adj_of adj u)) adj.

Lemma adj_of_nodup adj u : inner_nodup adj -> NoDup (od_keys (adj_of adj u)).
Proof.
  intros H. unfold adj_of. destruct (od_get u adj) eqn:E;
    [eapply H; eassumption | constructor].
Qed.

Lemma strip_inner_nodup n adj u :
  inner_nodup adj -> inner_nodup (strip n adj u).
Proof.
  intros H x nbrs. unfold strip. rewrite od_get_set.
  destruct (String.eqb u x).
  - intros [= <-]. apply od_del_NoDup, adj_of_nodup, H.
  - apply H.
Qed.

Lemma get2_strip n adj u a b :
  inner_nodup adj ->
  get2 (strip n adj u) a b
  = if String.eqb u a && String.eqb n b then None else get2 adj a b.
Proof.
  intros H. unfold get2 at 1, strip. rewrite od_get_set.
  destruct (String.eqb u a) eqn:Ea; cbn [andb]; [|reflexivity].
  apply String.eqb_eq in Ea; subst a.
  destruct (String.eqb n b) eqn:Eb.
  - apply String.eqb_eq in Eb; subst b.
    apply od_get_del_eq, adj_of_nodup, H.
  - apply String.eqb_neq in Eb. rewrite od_get_del_neq by exact Eb.
    apply get2_adj_of.
Qed.

Lemma fold_strip n l adj :
  inner_nodup adj -> NoDup (od_keys adj) ->
  inner_nodup (fold_left (strip n) l adj) /\
  NoDup (od_keys (fold_left (strip n) l adj)) /\
  forall a b,
    get2 (fold_left (strip n) l adj) a b
    = if existsb (String.eqb a) l && String.eqb n b then None
      else get2 adj a b.
Proof.
  revert adj. induction l as [|u l IH]; cbn; intros adj Hi Hn.
  - auto.
  - destruct (IH (strip n adj u) (strip_inner_nodup n u Hi)
                (od_set_NoDup _ _ _ Hn)) as [Hi' [Hn' Hg]].
    split; [exact Hi'|]. split; [exact Hn'|].
    intros a b. rewrite Hg, get2_strip by exact Hi.
    rewrite (String.eqb_sym a u).
    destruct (String.eqb u a), (existsb (String.eqb a) l), (String.eqb n b);
      reflexivity.
Qed.

Lemma remove_node_unfold n g :
  remove_node n g
  = match od_get n (_adj g) with
    | None =>
        Raise (NetworkXError ("The node " ++ n ++ " is not in the graph."))
    | Some nbrs =>
        Ok {| _node := od_del n (_node g);
              _adj := od_del n (fold_left (strip n) (od_keys nbrs) (_adj g)) |}
    end.
Proof. reflexivity. Qed.

Lemma remove_node_ok n g :
  wf g -> has_node g n = true -> exists g', remove_node n g = Ok g'.
Proof.
  intros W H. rewrite remove_node_unfold.
  rewrite has_node_adj in H by exact W. unfold od_mem in H.
  destruct (od_get n (_adj g)); [eauto | discriminate].
Qed.

Lemma remove_node_missing n g :
  wf g -> has_node g n = false ->
  remove_node n g
  = Raise (NetworkXError ("The node " ++ n ++ " is not in the graph.")).
Proof.
  intros W H. rewrite remove_node_unfold.
  rewrite has_node_adj in H by exact W. unfold od_mem in H.
  destruct (od_get n (_adj g)); [discriminate | reflexivity].
Qed.

Lemma remove_node_node_data n g g' m :
  wf g -> remove_node n g = Ok g' ->
  od_get m (_node g')
  = if String.eqb n m then None else od_get m (_node g).
Proof.
  intros W. rewrite remove_node_unfold.
  destruct (od_get n (_adj g)); [|discriminate].
  intros [= <-]. cbn [_node].
  destruct (String.eqb n m) eqn:E.
  - apply String.eqb_eq in E; subst m. apply od_get_del_eq, W.
  - apply String.eqb_neq in E. apply od_get_del_neq. exact E.
Qed.

Lemma remove_node_has_node n g g' m :
  wf g -> remove_node n g = Ok g' ->
  has_node g' m = if String.eqb n m then false else has_node g m.
Proof.
  intros W H. unfold has_node, od_mem.
  rewrite (@remove_node_node_data n g g' m W H).
  destruct (String.eqb n m); reflexivity.
Qed.

Lemma remove_node_nodes_last n g g' l :
  remove_node n g = Ok g' -> nodes g = l ++ [n] -> ~ In n l -> nodes g' = l.
Proof.
  rewrite remove_node_unfold.
  destruct (od_get n (_adj g)); [|discriminate].
  intros [= <-] Hl Hnot. unfold nodes in *. cbn [_node].
  apply od_keys_del_last; assumption.
Qed.

Lemma remove_node_edge_data n g g' a b :
  wf g -> remove_node n g = Ok g' ->
  edge_data g' a b
  = if String.eqb a n || String.eqb b n then None else edge_data g a b.
Proof.
  intros W. rewrite remove_node_unfold.
  destruct (od_get n (_adj g)) as [nbrs|] eqn:En; [|discriminate].
  intros [= <-].
  destruct (fold_strip n (od_keys nbrs) (wf_nodup_adj W) (wf_nodup_top W))
    as [_ [Hn Hg]].
  change (edge_data ?x a b) with (get2 (_adj x) a b). cbn [_adj].
  destruct (String.eqb a n) eqn:Ea; cbn [orb].
  - apply String.eqb_eq in Ea; subst a. unfold get2.
    rewrite od_get_del_eq by exact Hn. reflexivity.
  - apply String.eqb_neq in Ea.
    assert (Hd : get2 (od_del n (fold_left (strip n) (od_keys nbrs) (_adj g)))
                   a b
                 = get2 (fold_left (strip n) (od_keys nbrs) (_adj g)) a b).
    { unfold get2. rewrite od_get_del_neq by congruence. reflexivity. }
    rewrite Hd, Hg. rewrite (String.eqb_sym n b).
    destruct (String.eqb b n) eqn:Eb; [|rewrite andb_false_r; reflexivity].
    apply String.eqb_eq in Eb; subst b.
    destruct (existsb (String.eqb a) (od_keys nbrs)) eqn:Ex; [reflexivity|].
    cbn [andb]. change (get2 (_adj g) a n) with (edge_data g a n).
    rewrite (wf_sym W). unfold edge_data. rewrite En.
    destruct (od_get a nbrs) eqn:Ga; [|reflexivity]. exfalso.
    assert (Hin : In a (od_keys nbrs)).
    { apply od_mem_In. unfold od_mem. rewrite Ga. reflexivity. }
    assert (Ht : existsb (String.eqb a) (od_keys nbrs) = true).
    { apply existsb_exists. exists a. split; [exact Hin|].
      apply String.eqb_refl. }
    congruence.
Qed.
End RemoveNodeFacts.
(** ** Johnson's reweighting on integer weights *)

Section JohnsonFacts.
Implicit Types (g : Graph Z) (a b n : string).

(** Every edge carries a weight that is not negative. *)
Definition nonneg g : Prop :=
  forall a b d, edge_data g a b = Some d ->
                exists w, e_weight d = Some w /\ 0 <= w.

(** Two graphs with the same nodes in the same order, the same node
    attributes and the same edges with the same attributes. *)
Definition same_graph g g' : Prop :=
  nodes g' = nodes g /\
  (forall n, od_get n (_node g') = od_get n (_node g)) /\
  (forall a b, edge_data g' a b = edge_data g a b).

(** The body of the loop of step 2. *)
Definition src_step g node : Graph Z :=
  if String.eqb node "source" then g
  else add_edge "source" node zero_weight g.

Lemma add_source_unfold g :
  add_source g
  = fold_left src_step (nodes (add_node "source" no_node_data g))
      (add_node "source" no_node_data g).
Proof. reflexivity. Qed.

Lemma add_edge_node_known u v attr g :
  has_node g u = true -> has_node g v = true ->
  _node (add_edge u v attr g) = _node g.
Proof.
  intros Hu Hv. rewrite add_edge_unfold. cbn zeta. cbn [_node].
  rewrite !ensure_node_spec, Hu. rewrite Hv. reflexivity.
Qed.

(** The source edge to [n] is there, with weight 0. *)
Definition zero_edge g n : Prop :=
  exists d, edge_data g "source" n = Some d /\ e_weight d = Some 0.

(** What the loop keeps, relative to the graph [g1] it starts from. *)
Definition src_inv g1 g' : Prop :=
  wf g' /\ _node g' = _node g1 /\
  (forall a b, a <> "source" -> b <> "source" ->
               edge_data g' a b = edge_data g1 a b) /\
  (forall a b d,
      edge_data g' a b = Some d ->
      edge_data g1 a b = Some d \/
      (e_weight d = Some 0 /\ (a = "source" \/ b = "source") /\
       (edge_data g1 a b = None -> d = zero_weight))).

Lemma same_edge_source n a b :
  same_edge "source" n a b = true -> a = "source" \/ b = "source".
Proof. intros H. apply same_edge_true in H. intuition congruence. Qed.

Lemma src_step_inv g1 g' node :
  wf g1 -> has_node g1 "source" = true -> has_node g1 node = true ->
  src_inv g1 g' -> src_inv g1 (src_step g' node).
Proof.
  intros W1 Hs Hn [W' [Hnode [Hrest Hcls]]]. unfold src_step.
  destruct (String.eqb node "source") eqn:E.
  { split; [exact W'|]. split; [exact Hnode|]. split; assumption. }
  assert (Hs' : has_node g' "source" = true)
    by (unfold has_node in *; rewrite Hnode; exact Hs).
  assert (Hn' : has_node g' node = true)
    by (unfold has_node in *; rewrite Hnode; exact Hn).
  split; [apply add_edge_wf, W'|].
  split; [rewrite add_edge_node_known by assumption; exact Hnode|].
  split.
  - intros a b Ha Hb. rewrite add_edge_edge_data by exact W'.
    destruct (same_edge "source" node a b) eqn:Es; [|apply Hrest; assumption].
    apply same_edge_source in Es. tauto.
  - intros a b d. rewrite add_edge_edge_data by exact W'.
    destruct (same_edge "source" node a b) eqn:Es; [|apply Hcls].
    intros [= <-]. right. split; [reflexivity|].
    split; [eapply same_edge_source; eassumption|].
    intros Hnone. unfold prior.
    destruct (edge_data g' "source" node) as [d0|] eqn:E0; [|reflexivity].
    destruct (Hcls _ _ _ E0) as [H1|[_ [_ Hz]]].
    + exfalso. apply same_edge_true in Es.
      destruct Es as [[<- <-]|[<- <-]]; [congruence|].
      rewrite (wf_sym W1) in Hnone. congruence.
    + assert (Hn1 : edge_data g1 "source" node = None).
      { apply same_edge_true in Es.
        destruct Es as [[<- <-]|[<- <-]]; [exact Hnone|].
        rewrite (wf_sym W1). exact Hnone. }
      rewrite (Hz Hn1). reflexivity.
Qed.

Lemma src_step_zero_edge g' node n :
  wf g' -> zero_edge g' n -> zero_edge (src_step g' node) n.
Proof.
  intros W' [d [Hd Hw]]. unfold src_step, zero_edge.
  destruct (String.eqb node "source"); [eauto|].
  rewrite add_edge_edge_data by exact W'.
  destruct (same_edge "source" node "source" n); eauto.
Qed.

Lemma src_step_new g' node :
  wf g' -> node <> "source" -> zero_edge (src_step g' node) node.
Proof.
  intros W' Hne. unfold src_step, zero_edge.
  apply String.eqb_neq in Hne. rewrite Hne.
  rewrite add_edge_edge_data by exact W'.
  replace (same_edge "source" node "source" node) with true; [eauto|].
  symmetry. apply same_edge_true. auto.
Qed.

Lemma src_fold g1 l g' :
  wf g1 -> has_node g1 "source" = true ->
  (forall n, In n l -> has_node g1 n = true) ->
  src_inv g1 g' ->
  src_inv g1 (fold_left src_step l g') /\
  (forall n, zero_edge g' n -> zero_edge (fold_left src_step l g') n) /\
  (forall n, In n l -> n <> "source" ->
             zero_edge (fold_left src_step l g') n).
Proof.
  intros W1 Hs. revert g'. induction l as [|node l IH]; cbn; intros g' Hl Hinv.
  - split; [exact Hinv|]. split; [auto|]. intros n [].
  - assert (Hinv' : src_inv g1 (src_step g' node)).
    { apply src_step_inv; auto. }
    assert (W' : wf g') by apply Hinv.
    destruct (IH (src_step g' node)) as [Hi [Hk Hn]]; [auto | exact Hinv'|].
    split; [exact Hi|]. split.
    + intros n Hz. apply Hk. apply src_step_zero_edge; assumption.
    + intros n [<-|Hin] Hne.
      * apply Hk. apply src_step_new; assumption.
      * apply Hn; assumption.
Qed.

(** Steps 1 and 2 together. *)
Lemma add_source_inv g :
  wf g ->
  let g1 := add_node "source" no_node_data g in
  src_inv g1 (add_source g) /\
  (forall n, has_node g1 n = true -> n <> "source" ->
             zero_edge (add_source g) n).
Proof.
  intros W g1.
  assert (W1 : wf g1) by (apply add_node_wf, W).
  assert (Hs : has_node g1 "source" = true).
  { unfold g1. rewrite add_node_has_node, String.eqb_refl. reflexivity. }
  assert (H0 : src_inv g1 g1).
  { split; [exact W1|]. split; [reflexivity|]. split; auto. }
  destruct (@src_fold g1 (nodes g1) g1 W1 Hs) as [Hi [_ Hn]]; [|exact H0|].
  - intros n Hin. unfold has_node. apply od_mem_In. exact Hin.
  - rewrite add_source_unfold. fold g1. split; [exact Hi|].
    intros n Hnode Hne. apply Hn; [|exact Hne].
    unfold has_node in Hnode. apply od_mem_In in Hnode. exact Hnode.
Qed.
End JohnsonFacts.
Section JohnsonRuns.
Variable fuel : nat.
Implicit Types (g : Graph Z) (a b n : string).

Lemma add_source_nodes g :
  wf g -> _node (add_source g) = _node (add_node "source" no_node_data g).
Proof. intros W. apply (add_source_inv W). Qed.

Lemma add_source_wf g : wf g -> wf (add_source g).
Proof. intros W. apply (add_source_inv W). Qed.

Lemma add_source_has_node g n :
  wf g -> has_node (add_source g) n = String.eqb "source" n || has_node g n.
Proof.
  intros W. unfold has_node at 1. rewrite add_source_nodes by exact W.
  apply add_node_has_node.
Qed.

Lemma add_source_nonneg g : wf g -> nonneg g -> nonneg (add_source g).
Proof.
  intros W Hn a b d Hd.
  destruct (add_source_inv W) as [[_ [_ [_ Hcls]]] _].
  destruct (Hcls _ _ _ Hd) as [H1|[Hw _]].
  - rewrite add_node_edge_data in H1 by exact W. eapply Hn; eassumption.
  - exists 0. split; [exact Hw | lia].
Qed.

Lemma nonneg_arcs_of g : wf g -> nonneg g -> nonneg_arcs (arcs g).
Proof.
  intros W Hn [[u v] w] Hin. cbn.
  apply In_arcs_edge_data in Hin; [|exact W].
  destruct Hin as [d [Hd ->]]. destruct (Hn _ _ _ Hd) as [w [Hw Hpos]].
  unfold weight_of. rewrite Hw. exact Hpos.
Qed.

Lemma add_source_arcs g n :
  wf g -> has_node (add_source g) n = true ->
  n = "source" \/ In ("source", n, 0) (arcs (add_source g)).
Proof.
  intros W Hn. destruct (String.eqb "source" n) eqn:E.
  - left. apply String.eqb_eq in E. congruence.
  - right. apply String.eqb_neq in E.
    destruct (add_source_inv W) as [_ Hz].
    destruct (Hz n) as [d [Hd Hw]].
    + unfold has_node in *. rewrite add_source_nodes in Hn by exact W.
      exact Hn.
    + congruence.
    + apply In_arcs_edge_data; [apply add_source_wf, W|].
      exists d. split; [exact Hd|]. unfold weight_of. rewrite Hw. reflexivity.
Qed.

(** Step 4 with all potentials 0 writes back what it read. *)
Lemma reweight_edges_id (h : odict Z) g es :
  wf g -> nonneg g ->
  (forall n, has_node g n = true -> od_get n h = Some 0) ->
  (forall u v d, In (u, v, d) es -> edge_data g u v = Some d) ->
  reweight_edges h es g = (None, g).
Proof.
  intros W Hn Hh. induction es as [|[[u v] d] es IH]; cbn; intros Hes.
  - reflexivity.
  - assert (Hd : edge_data g u v = Some d) by (apply Hes; left; reflexivity).
    destruct (Hn _ _ _ Hd) as [w [Hw _]].
    destruct (edge_data_node _ _ W Hd) as [Hu Hv].
    rewrite Hw, (Hh u Hu), (Hh v Hv). cbn.
    replace {| e_type := e_type d; e_weight := Some (w + 0);
               e_door_id := e_door_id d; e_position := e_position d |}
      with d.
    2:{ destruct d; cbn in *. rewrite Z.add_0_r. congruence. }
    rewrite set_edge_data_same; [|exact Hd | rewrite (wf_sym W); exact Hd].
    apply IH. intros; apply Hes; right; assumption.
Qed.

(** Steps 1 to 5 on a graph without negative weights. *)
Lemma reweight_nonneg g :
  wf g -> nonneg g ->
  exists g',
    reweight (nx := networkx_model fuel) g = (Ok tt, g') /\
    remove_node "source" (add_source g) = Ok g'.
Proof.
  intros W Hn.
  assert (W2 := add_source_wf W).
  assert (Hs : has_node (add_source g) "source" = true).
  { rewrite add_source_has_node, String.eqb_refl by exact W. reflexivity. }
  destruct (@bellman_ford_nonneg (add_source g) "source" W2 Hs)
    as [h [Hbf Hh]].
  { intros n. apply add_source_arcs. exact W. }
  { apply nonneg_arcs_of; [exact W2 | apply add_source_nonneg; assumption]. }
  destruct (@remove_node_ok _ "source" _ W2 Hs) as [g' Hrm].
  exists g'. split; [|exact Hrm].
  unfold reweight.
  cbn [nx_single_source_bellman_ford_path_length networkx_model].
  rewrite Hbf.
  rewrite (@reweight_edges_id h (add_source g) (edges (add_source g))); auto.
  - rewrite Hrm. reflexivity.
  - apply add_source_nonneg; assumption.
  - intros u v d Hin. apply In_edges_edge_data; assumption.
Qed.

Lemma removed_source_edge_data g g' a b :
  wf g -> remove_node "source" (add_source g) = Ok g' ->
  edge_data g' a b
  = if String.eqb a "source" || String.eqb b "source" then None
    else edge_data g a b.
Proof.
  intros W Hrm.
  rewrite (@remove_node_edge_data _ "source" (add_source g) g' a b
             (add_source_wf W) Hrm).
  destruct (String.eqb a "source") eqn:Ea; [reflexivity|].
  destruct (String.eqb b "source") eqn:Eb; [reflexivity|]. cbn.
  apply String.eqb_neq in Ea, Eb.
  destruct (add_source_inv W) as [[_ [_ [Hrest _]]] _].
  rewrite Hrest by assumption. apply add_node_edge_data. exact W.
Qed.

Lemma removed_source_has_node g g' n :
  wf g -> remove_node "source" (add_source g) = Ok g' ->
  has_node g' n = if String.eqb "source" n then false else has_node g n.
Proof.
  intros W Hrm.
  rewrite (@remove_node_has_node _ "source" (add_source g) g' n
             (add_source_wf W) Hrm).
  rewrite add_source_has_node by exact W.
  destruct (String.eqb "source" n); reflexivity.
Qed.

Lemma removed_source_node_data g g' n :
  wf g -> remove_node "source" (add_source g) = Ok g' -> n <> "source" ->
  od_get n (_node g') = od_get n (_node g).
Proof.
  intros W Hrm Hne.
  rewrite (@remove_node_node_data _ "source" (add_source g) g' n
             (add_source_wf W) Hrm).
  apply not_eq_sym, String.eqb_neq in Hne. rewrite Hne.
  rewrite add_source_nodes by exact W. unfold add_node.
  destruct (od_get "source" (_node g)); cbn [_node];
    rewrite od_get_set, Hne; reflexivity.
Qed.

Lemma removed_source_same g g' :
  wf g -> has_node g "source" = false ->
  remove_node "source" (add_source g) = Ok g' -> same_graph g g'.
Proof.
  intros W Hno Hrm. split; [|split].
  - eapply remove_node_nodes_last; [exact Hrm| |].
    + unfold nodes. rewrite add_source_nodes by exact W.
      unfold add_node. unfold has_node, od_mem in Hno.
      destruct (od_get "source" (_node g)) eqn:E; [discriminate|].
      cbn [_node]. rewrite od_keys_set. unfold od_mem. rewrite E. reflexivity.
    + apply od_mem_false. exact Hno.
  - intros n.
    rewrite (@remove_node_node_data _ "source" (add_source g) g' n
               (add_source_wf W) Hrm).
    rewrite add_source_nodes by exact W.
    unfold has_node, od_mem in Hno. unfold add_node.
    destruct (od_get "source" (_node g)) eqn:E; [discriminate|].
    cbn [_node]. rewrite od_get_set.
    destruct (String.eqb "source" n) eqn:En; [|reflexivity].
    apply String.eqb_eq in En; subst n. symmetry. exact E.
  - intros a b. rewrite (removed_source_edge_data a b W Hrm).
    destruct (String.eqb a "source" || String.eqb b "source") eqn:E;
      [|reflexivity].
    destruct (edge_data g a b) as [d|] eqn:Hd; [|reflexivity].
    destruct (edge_data_node _ _ W Hd) as [Ha Hb].
    apply orb_true_iff in E. destruct E as [E|E];
      apply String.eqb_eq in E; subst; congruence.
Qed.
End JohnsonRuns.
Section JohnsonTheorems.
Variable fuel : nat.
Implicit Types (g : Graph Z) (a b n : string).


Lemma reweight_nodes g :
  wf g -> nonneg g ->
  exists g',
    reweight (nx := networkx_model fuel) g = (Ok tt, g') /\
    has_node g' "source" = false /\
    (forall n, n <> "source" -> has_node g' n = has_node g n).
Proof.
  intros W Hn. destruct (reweight_nonneg fuel W Hn) as [g' [Hr Hrm]].
  exists g'. split; [exact Hr|].
  pose proof (fun n => @removed_source_has_node g g' n W Hrm) as Hnode.
  split; [rewrite Hnode, String.eqb_refl; reflexivity|].
  intros n Hne. rewrite Hnode. apply not_eq_sym, String.eqb_neq in Hne.
  rewrite Hne. reflexivity.
Qed.

(** The reweighting on a graph whose edges all carry an integer weight
    that is not negative: it succeeds, the node ['source'] is not in the
    graph afterwards (also when the caller's graph had a node of that
    name), every other node is a node as before and has the attributes
    it had, every edge between other nodes is as before, and no weight
    is negative. *)
Theorem reweight_effect g :
  wf g -> nonneg g ->
  exists g',
    reweight (nx := networkx_model fuel) g = (Ok tt, g') /\
    has_node g' "source" = false /\
    (forall n, n <> "source" -> has_node g' n = has_node g n) /\
    (forall n, n <> "source" -> od_get n (_node g') = od_get n (_node g)) /\
    (forall a b, a <> "source" -> b <> "source" ->
                 edge_data g' a b = edge_data g a b) /\
    (forall a b, a = "source" \/ b = "source" -> has_edge g' a b = false) /\
    nonneg g'.
Proof.
  intros W Hn. destruct (reweight_nonneg fuel W Hn) as [g' [Hr Hrm]].
  exists g'. split; [exact Hr|].
  pose proof (fun n => @removed_source_has_node g g' n W Hrm) as Hnode.
  pose proof (fun a b => @removed_source_edge_data g g' a b W Hrm) as Hed.
  split; [rewrite Hnode, String.eqb_refl; reflexivity|].
  split.
  { intros n Hne. rewrite Hnode. apply not_eq_sym, String.eqb_neq in Hne.
    rewrite Hne. reflexivity. }
  split.
  { intros n Hne. eapply removed_source_node_data; eassumption. }
  split.
  { intros a b Ha Hb. rewrite Hed. apply String.eqb_neq in Ha, Hb.
    rewrite Ha, Hb. reflexivity. }
  split.
  { intros a b Hab. unfold has_edge. rewrite Hed.
    destruct Hab as [->| ->]; rewrite String.eqb_refl, ?orb_true_r;
      reflexivity. }
  intros a b d. rewrite Hed.
  destruct (String.eqb a "source" || String.eqb b "source"); [discriminate|].
  apply Hn.
Qed.

(** On a graph that has no node called ['source'] and whose edges all
    carry an integer weight that is not negative, the reweighting leaves
    the caller's graph as it found it. *)
Theorem reweight_restores_graph g :
  wf g -> nonneg g -> has_node g "source" = false ->
  exists g',
    reweight (nx := networkx_model fuel) g = (Ok tt, g') /\ same_graph g g'.
Proof.
  intros W Hn Hno. destruct (reweight_nonneg fuel W Hn) as [g' [Hr Hrm]].
  exists g'. split; [exact Hr|]. eapply removed_source_same; eassumption.
Qed.

(** On a graph with integer weights, an edge of negative weight
    between two nodes other than ['source']: the call raises
    [ValueError] and the caller's graph keeps the node ['source'] and
    its zero-weight edge to every other node. *)
Theorem negative_edge_leaves_source g a b d w start_room end_room :
  wf g -> edge_data g a b = Some d -> e_weight d = Some w -> w < 0 ->
  a <> "source" -> b <> "source" ->
  find_shortest_path (nx := networkx_model fuel) g start_room end_room
  = (Raise (ValueError "Graph contains a negative-weight cycle"),
     add_source g) /\
  has_node (add_source g) "source" = true /\
  forall n, has_node g n = true -> n <> "source" ->
            exists d0, edge_data (add_source g) "source" n = Some d0 /\
                       e_weight d0 = Some 0.
Proof.
  intros W Hd Hw Hneg Ha Hb.
  assert (W2 := add_source_wf W).
  assert (Hs : has_node (add_source g) "source" = true).
  { rewrite add_source_has_node, String.eqb_refl by exact W. reflexivity. }
  destruct (add_source_inv W) as [[_ [_ [Hrest _]]] Hz].
  assert (Hd2 : edge_data (add_source g) a b = Some d).
  { rewrite Hrest by assumption. rewrite add_node_edge_data by exact W.
    exact Hd. }
  assert (Hab : In (a, b, w) (arcs (add_source g))).
  { apply In_arcs_edge_data; [exact W2|]. exists d. split; [exact Hd2|].
    unfold weight_of. rewrite Hw. reflexivity. }
  assert (Hba : In (b, a, w) (arcs (add_source g))).
  { apply In_arcs_edge_data; [exact W2|]. exists d.
    split; [rewrite (wf_sym W2); exact Hd2|].
    unfold weight_of. rewrite Hw. reflexivity. }
  assert (Hbf : single_source_bellman_ford_path_length (add_source g) "source"
                = Raise (NetworkXUnbounded "Negative cycle detected.")).
  { eapply bellman_ford_negative; eauto.
    intros n. apply add_source_arcs. exact W. }
  split; [|split; [exact Hs|]].
  - unfold find_shortest_path, reweight.
    cbn [nx_single_source_bellman_ford_path_length networkx_model].
    rewrite Hbf. reflexivity.
  - intros n Hn Hne. apply Hz; [|exact Hne].
    rewrite add_node_has_node, Hn. apply orb_true_r.
Qed.

(** On a graph whose edges all carry an integer weight that is not
    negative, a query from a room of the graph, other than ['source'],
    to itself: the one-node path of distance 0. *)
Theorem find_shortest_path_same_room g s :
  wf g -> nonneg g -> has_node g s = true -> s <> "source" ->
  fst (find_shortest_path (nx := networkx_model fuel) g s s)
  = Ok {| success := true; error := None; path := [s]; distance := 0;
          steps := None |}.
Proof.
  intros W Hn Hs Hne.
  destruct (reweight_nodes W Hn) as [g' [Hr [_ Hnode]]].
  unfold find_shortest_path. rewrite Hr.
  cbn [nx_shortest_path nx_shortest_path_length networkx_model].
  unfold shortest_path, shortest_path_length, bidirectional_dijkstra,
    dijkstra_path_length.
  rewrite (Hnode s Hne), Hs, String.eqb_refl. reflexivity.
Qed.

(** On a graph whose edges all carry an integer weight that is not
    negative, a start room that is not in the graph (or is called
    ['source']) is not reported in a result dictionary: the library's
    [NodeNotFound] leaves [find_shortest_path]. *)
Theorem find_shortest_path_unknown_start g s e :
  wf g -> nonneg g -> has_node g s = false \/ s = "source" ->
  fst (find_shortest_path (nx := networkx_model fuel) g s e)
  = Raise (NodeNotFound ("Source " ++ s ++ " is not in G")).
Proof.
  intros W Hn Hs.
  destruct (reweight_nodes W Hn) as [g' [Hr [Hsrc Hnode]]].
  assert (Hs' : has_node g' s = false).
  { destruct (String.eqb s "source") eqn:E.
    - apply String.eqb_eq in E; subst s. exact Hsrc.
    - apply String.eqb_neq in E. rewrite Hnode by exact E.
      destruct Hs as [Hs|Hs]; congruence. }
  unfold find_shortest_path. rewrite Hr.
  cbn [nx_shortest_path nx_shortest_path_length networkx_model].
  unfold shortest_path, bidirectional_dijkstra. rewrite Hs'. reflexivity.
Qed.
End JohnsonTheorems.

(** *** The hypotheses at concrete graphs *)

Lemma nonneg_empty : nonneg empty_graph.
Proof. intros a b d. discriminate. Qed.

Lemma nonneg_add_edge u v w (g : Graph Z) :
  wf g -> nonneg g -> 0 <= w -> nonneg (add_edge u v (weight_only w) g).
Proof.
  intros W Hn Hw a b d. rewrite add_edge_edge_data by exact W.
  destruct (same_edge u v a b); [|apply Hn].
  intros [= <-]. exists w. split; [reflexivity | exact Hw].
Qed.

Lemma int_test_graph_wf : wf int_test_graph.
Proof. repeat apply add_edge_wf. apply wf_empty. Qed.

Lemma int_test_graph_nonneg : nonneg int_test_graph.
Proof.
  unfold int_test_graph.
  repeat (apply nonneg_add_edge;
          [repeat apply add_edge_wf; apply wf_empty | | lia]).
  apply nonneg_empty.
Qed.

Lemma reweight_effect_witness :
  exists g',
    reweight (nx := networkx_model 0) source_named_graph = (Ok tt, g') /\
    has_node g' "source" = false.
Proof.
  assert (W : wf source_named_graph)
    by (apply add_edge_wf, int_test_graph_wf).
  assert (Hn : nonneg source_named_graph).
  { apply nonneg_add_edge;
      [apply int_test_graph_wf | apply int_test_graph_nonneg | lia]. }
  destruct (reweight_effect 0 W Hn) as [g' [Hr [Hs _]]].
  exists g'. split; assumption.
Defined.

Lemma reweight_restores_graph_witness :
  exists g',
    reweight (nx := networkx_model 0) int_test_graph = (Ok tt, g') /\
    same_graph int_test_graph g'.
Proof.
  apply (reweight_restores_graph 0 int_test_graph_wf int_test_graph_nonneg).
  reflexivity.
Defined.

Lemma negative_edge_leaves_source_witness :
  find_shortest_path (nx := networkx_model 0) negative_edge_graph "A" "B"
  = (Raise (ValueError "Graph contains a negative-weight cycle"),
     add_source negative_edge_graph) /\
  has_node (add_source negative_edge_graph) "source" = true.
Proof.
  assert (W : wf negative_edge_graph) by (apply add_edge_wf, wf_empty).
  destruct (@negative_edge_leaves_source 0 negative_edge_graph "A" "B"
              (weight_only (-1)) (-1) "A" "B" W)
    as [H1 [H2 _]]; try reflexivity; try discriminate.
  split; assumption.
Defined.

Lemma find_shortest_path_same_room_witness :
  fst (find_shortest_path (nx := networkx_model 0) int_test_graph "A" "A")
  = Ok {| success := true; error := None; path := ["A"]; distance := 0;
          steps := None |}.
Proof.
  apply (find_shortest_path_same_room 0 int_test_graph_wf
           int_test_graph_nonneg).
  - reflexivity.
  - discriminate.
Defined.

Lemma find_shortest_path_unknown_start_witness :
  fst (find_shortest_path (nx := networkx_model 0) int_test_graph "Z" "A")
  = Raise (NodeNotFound "Source Z is not in G").
Proof.
  apply (find_shortest_path_unknown_start 0 (s := "Z") "A"
           int_test_graph_wf int_test_graph_nonneg).
  left. reflexivity.
Defined.

(** ** Simple paths *)

Section SimplePaths.
Context {num : Type} {NumOps : PyNum num}.
Implicit Types (g : Graph num) (p path ext : list string) (s t n : string).

(** Consecutive nodes of the list are joined by an edge. *)
Fixpoint chain g p : Prop :=
  match p with
  | u :: (v :: _) as rest => has_edge g u v = true /\ chain g rest
  | _ => True
  end.

Lemma neighbors_has_edge g u v :
  In v (neighbors g u) <-> has_edge g u v = true.
Proof.
  unfold neighbors, has_edge. rewrite <- od_mem_In. unfold od_mem.
  rewrite get2_adj_of. reflexivity.
Qed.

Lemma on_path_In n l : on_path n l = true <-> In n l.
Proof.
  unfold on_path. rewrite existsb_exists. split.
  - intros [x [Hin E]]. apply String.eqb_eq in E. congruence.
  - intros H. exists n. split; [exact H | apply String.eqb_refl].
Qed.

Lemma on_path_false n l : on_path n l = false <-> ~ In n l.
Proof.
  rewrite <- on_path_In. destruct (on_path n l); split; congruence.
Qed.

Lemma chain_snoc g p n :
  chain g p -> (p = [] \/ has_edge g (last p n) n = true) ->
  chain g (p ++ [n]).
Proof.
  induction p as [|u [|v r] IH]; cbn; intros Hc Hl.
  - exact I.
  - destruct Hl as [Hl|Hl]; [discriminate|]. auto.
  - destruct Hc as [Huv Hc]. split; [exact Huv|].
    apply IH; [exact Hc|]. right.
    destruct Hl as [Hl|Hl]; [discriminate | exact Hl].
Qed.

Lemma last_indep {A} (l : list A) (d d' : A) :
  l <> [] -> last l d = last l d'.
Proof.
  induction l as [|x [|y r] IH]; intros H; [contradiction | reflexivity|].
  apply IH. discriminate.
Qed.

Lemma last_snoc {A} (l : list A) (x d : A) : last (l ++ [x]) d = x.
Proof. apply last_last. Qed.

Lemma NoDup_snoc {A} (l : list A) (x : A) :
  NoDup l -> ~ In x l -> NoDup (l ++ [x]).
Proof.
  intros Hl Hx. apply NoDup_app; [exact Hl | repeat constructor; cbn; tauto|].
  intros a Ha [<-|[]]. contradiction.
Qed.

(** What the walk yields below a path that ends in [node]. *)
Lemma simple_paths_from_sound g targets room :
  forall path node p,
    path <> [] -> last path node = node -> NoDup path -> chain g path ->
    In p (simple_paths_from g targets room path node) ->
    NoDup p /\ chain g p /\ In (last p node) targets /\
    exists ext, p = path ++ ext /\
                (1 <= List.length ext <= Datatypes.S room)%nat.
Proof.
  induction room as [|room IH]; intros path node p Hne Hlast Hnd Hc Hin;
    cbn in Hin; apply in_flat_map in Hin;
    destruct Hin as [next [Hnb Hin]];
    (destruct (on_path next path) eqn:Eon; [contradiction|]);
    apply on_path_false in Eon;
    apply neighbors_has_edge in Hnb;
    apply in_app_or in Hin.
  - destruct Hin as [Hin|[]].
    destruct (on_path next targets) eqn:Et; [|contradiction].
    destruct Hin as [<-|[]].
    split; [apply NoDup_snoc; assumption|].
    split; [apply chain_snoc; [exact Hc|]; right;
            rewrite <- Hlast in Hnb at 1;
            rewrite (@last_indep _ path next node Hne); exact Hnb|].
    split; [rewrite last_snoc; apply on_path_In; exact Et|].
    exists [next]. cbn. split; [reflexivity | lia].
  - assert (Hc' : chain g (path ++ [next])).
    { apply chain_snoc; [exact Hc|]. right.
      rewrite <- Hlast in Hnb at 1.
      rewrite (@last_indep _ path next node Hne). exact Hnb. }
    destruct Hin as [Hin|Hin].
    + destruct (on_path next targets) eqn:Et; [|contradiction].
      destruct Hin as [<-|[]].
      split; [apply NoDup_snoc; assumption|].
      split; [exact Hc'|].
      split; [rewrite last_snoc; apply on_path_In; exact Et|].
      exists [next]. cbn. split; [reflexivity | lia].
    + destruct (target_left targets path next); [|contradiction].
      destruct (IH (path ++ [next]) next p) as [H1 [H2 [H3 [ext [He Hl]]]]];
        auto.
      * destruct path; discriminate.
      * apply last_snoc.
      * apply NoDup_snoc; assumption.
      * split; [exact H1|]. split; [exact H2|].
        split.
        { subst p. rewrite <- app_assoc in *. cbn in *.
          assert (Hx : path ++ next :: ext <> []) by (destruct path; discriminate).
          rewrite (@last_indep _ _ node next Hx). exact H3. }
        exists (next :: ext). rewrite He, <- app_assoc. cbn.
        split; [reflexivity | lia].
Qed.
End SimplePaths.
Section SimplePathsComplete.
Context {num : Type} {NumOps : PyNum num}.
Implicit Types (g : Graph num) (p path ext : list string) (s t n : string).




(** A simple path from [s] to [t]: it starts at [s], ends at [t], visits
    no node twice and follows edges. *)
Definition simple_path g s t p : Prop :=
  p <> [] /\ hd s p = s /\ last p t = t /\ NoDup p /\ chain g p.

Lemma all_simple_paths_known g s t cutoff :
  has_node g s = true -> has_node g t = true ->
  all_simple_paths g s t cutoff
  = Ok ((if String.eqb s t then [[s]] else [])
        ++ match cutoff with
           | O => []
           | Datatypes.S room =>
               if String.eqb t s then []
               else simple_paths_from g [t] room [s] s
           end).
Proof.
  intros Hs Ht. unfold all_simple_paths. rewrite Hs, Ht.
  unfold target_left, on_path. cbn [negb existsb andb orb].
  destruct (String.eqb s t), (String.eqb t s), cutoff; reflexivity.
Qed.


Lemma all_simple_paths_sound g s t cutoff l p :
  has_node g s = true -> has_node g t = true ->
  all_simple_paths g s t cutoff = Ok l -> In p l ->
  simple_path g s t p /\ (List.length p <= Datatypes.S cutoff)%nat.
Proof.
  intros Hs Ht. rewrite all_simple_paths_known by assumption.
  intros [= <-] Hin. apply in_app_or in Hin. destruct Hin as [Hin|Hin].
  - destruct (String.eqb s t) eqn:E; [|destruct Hin].
    apply String.eqb_eq in E. subst t.
    destruct Hin as [<-|[]]. unfold simple_path. cbn.
    repeat split; try discriminate; try lia.
    repeat constructor. cbn. tauto.
  - destruct cutoff as [|room]; [destruct Hin|].
    destruct (String.eqb t s); [destruct Hin|].
    destruct (@simple_paths_from_sound _ g [t] room [s] s p)
      as [H1 [H2 [H3 [ext [He Hl]]]]]; auto.
    + discriminate.
    + repeat constructor. cbn. tauto.
    + exact I.
    + destruct H3 as [H3|[]]. subst p. cbn [app] in *. split.
      * unfold simple_path.
        split; [discriminate|]. split; [reflexivity|].
        split; [|split; [exact H1 | exact H2]].
        rewrite (@last_indep _ (s :: ext) t s) by discriminate.
        symmetry. exact H3.
      * cbn. lia.
Qed.

End SimplePathsComplete.
(** ** [find_all_paths] *)

Section SortByLen.
Implicit Types (p q : list string) (l : list (list string)).

Definition shorter p q : Prop := (List.length p <= List.length q)%nat.

Lemma insert_by_len_perm p l : Permutation (insert_by_len p l) (p :: l).
Proof.
  induction l as [|q r IH]; cbn; [reflexivity|].
  destruct (Nat.leb _ _); [reflexivity|].
  rewrite IH. apply perm_swap.
Qed.

Lemma sort_by_len_perm l : Permutation (sort_by_len l) l.
Proof.
  induction l as [|p r IH]; cbn; [reflexivity|].
  rewrite insert_by_len_perm. constructor. exact IH.
Qed.

Lemma insert_by_len_hd p q l :
  shorter q p -> HdRel shorter q l -> HdRel shorter q (insert_by_len p l).
Proof.
  intros Hq Hl. destruct l as [|x r]; cbn; [constructor; exact Hq|].
  destruct (Nat.leb _ _); constructor; [exact Hq|].
  inversion Hl; assumption.
Qed.

Lemma insert_by_len_sorted p l :
  Sorted shorter l -> Sorted shorter (insert_by_len p l).
Proof.
  induction l as [|q r IH]; cbn; intros Hs.
  - repeat constructor.
  - inversion Hs as [|? ? Hr Hh]; subst.
    destruct (Nat.leb (List.length p) (List.length q)) eqn:E.
    + apply Nat.leb_le in E. repeat constructor; assumption.
    + apply Nat.leb_gt in E. constructor; [apply IH; exact Hr|].
      apply insert_by_len_hd; [unfold shorter; lia | exact Hh].
Qed.

Lemma sort_by_len_sorted l : Sorted shorter (sort_by_len l).
Proof.
  induction l as [|p r IH]; cbn; [constructor|].
  apply insert_by_len_sorted. exact IH.
Qed.

Lemma Sorted_firstn {A} (R : A -> A -> Prop) n (l : list A) :
  Sorted R l -> Sorted R (firstn n l).
Proof.
  revert l. induction n as [|n IH]; intros l Hs; cbn; [constructor|].
  destruct l as [|x r]; [constructor|].
  inversion Hs as [|? ? Hr Hh]; subst. constructor; [apply IH; exact Hr|].
  destruct n; cbn; [constructor|].
  destruct r; [constructor|]. inversion Hh; subst. constructor. assumption.
Qed.

Lemma Sorted_map {A B} (R : A -> A -> Prop) (R' : B -> B -> Prop)
    (f : A -> B) (l : list A) :
  (forall x y, R x y -> R' (f x) (f y)) ->
  Sorted R l -> Sorted R' (map f l).
Proof.
  intros Hf. induction l as [|x r IH]; cbn; intros Hs; [constructor|].
  inversion Hs as [|? ? Hr Hh]; subst. constructor; [apply IH; exact Hr|].
  destruct r; cbn; [constructor|]. inversion Hh; subst. constructor. auto.
Qed.

Lemma firstn_incl {A} n (l : list A) x : In x (firstn n l) -> In x l.
Proof.
  revert l. induction n as [|n IH]; intros [|y r]; cbn; try tauto.
  intros [H|H]; auto.
Qed.

Lemma slice_to_incl {A} n (l : list A) x : In x (slice_to n l) -> In x l.
Proof.
  unfold slice_to. destruct (0 <=? n); apply firstn_incl.
Qed.

Lemma slice_to_sorted {A} (R : A -> A -> Prop) n (l : list A) :
  Sorted R l -> Sorted R (slice_to n l).
Proof.
  unfold slice_to. destruct (0 <=? n); apply Sorted_firstn.
Qed.

Lemma slice_to_length {A} n (l : list A) :
  0 <= n -> (List.length (slice_to n l) <= Z.to_nat n)%nat.
Proof.
  intros Hn. unfold slice_to. apply Z.leb_le in Hn. rewrite Hn.
  apply firstn_le_length.
Qed.

End SortByLen.

Section FindAllPathsFacts.
Context {num : Type} {NumOps : PyNum num} {MathOps : PyMath num}.
Variable fuel : nat.
Implicit Types (g : Graph num) (s e : string).

Definition alternative g (p : list string) : PathResult num :=
  {| success := true; error := None; path := p;
     distance := _calculate_path_distance g p;
     steps := Some (Z.of_nat (List.length p) - 1) |}.

Lemma find_all_paths_known g s e max_paths :
  has_node g s = true -> has_node g e = true ->
  exists all_paths,
    all_simple_paths g s e 10 = Ok all_paths /\
    find_all_paths (nx := networkx_model fuel) g s e max_paths
    = map (alternative g) (slice_to max_paths (sort_by_len all_paths)).
Proof.
  intros Hs He. unfold find_all_paths. rewrite Hs, He. cbn [negb orb].
  cbn [nx_all_simple_paths networkx_model].
  rewrite all_simple_paths_known by assumption.
  eexists. split; reflexivity.
Qed.

(** Every alternative is a success whose path is a simple path from
    start to end along edges of the graph, of at most 10 steps, with
    [steps] the number of its edges; both rooms are nodes of the graph. *)
Theorem find_all_paths_sound g s e max_paths r :
  In r (find_all_paths (nx := networkx_model fuel) g s e max_paths) ->
  has_node g s = true /\ has_node g e = true /\
  success r = true /\ error r = None /\
  simple_path g s e (path r) /\
  (List.length (path r) <= 11)%nat /\
  steps r = Some (Z.of_nat (List.length (path r)) - 1) /\
  distance r = _calculate_path_distance g (path r).
Proof.
  intros Hin.
  destruct (has_node g s) eqn:Hs;
    [|unfold find_all_paths in Hin; rewrite Hs in Hin; destruct Hin].
  destruct (has_node g e) eqn:He;
    [|unfold find_all_paths in Hin; rewrite Hs, He in Hin; destruct Hin].
  destruct (find_all_paths_known g s e max_paths Hs He) as [all [Ha Hf]].
  rewrite Hf in Hin. apply in_map_iff in Hin. destruct Hin as [p [<- Hp]].
  apply slice_to_incl in Hp.
  apply (Permutation_in _ (sort_by_len_perm all)) in Hp.
  destruct (@all_simple_paths_sound _ g s e 10 all p Hs He Ha Hp)
    as [Hsp Hlen].
  cbn. repeat split; try reflexivity; try apply Hsp. exact Hlen.
Qed.

(** The alternatives come in order of length, and there are at most
    [max_paths] of them. *)
Theorem find_all_paths_sorted g s e max_paths :
  Sorted (fun r1 r2 => shorter (path r1) (path r2))
    (find_all_paths (nx := networkx_model fuel) g s e max_paths) /\
  (0 <= max_paths ->
   Z.of_nat (List.length
               (find_all_paths (nx := networkx_model fuel) g s e max_paths))
   <= max_paths).
Proof.
  destruct (has_node g s) eqn:Hs;
    [|unfold find_all_paths; rewrite Hs; cbn; split; [constructor | lia]].
  destruct (has_node g e) eqn:He;
    [|unfold find_all_paths; rewrite Hs, He; cbn; split; [constructor | lia]].
  destruct (find_all_paths_known g s e max_paths Hs He) as [all [Ha Hf]].
  rewrite Hf. split.
  - apply Sorted_map with (R := shorter); [auto|].
    apply slice_to_sorted, sort_by_len_sorted.
  - intros Hm. rewrite length_map.
    pose proof (slice_to_length (sort_by_len all) Hm). lia.
Qed.


(** An unknown room gives no alternatives, as does any exception of the
    library call. *)
Theorem find_all_paths_empty {nx : NetworkX num} g s e max_paths :
  has_node g s = false \/ has_node g e = false \/
  (exists x, nx_all_simple_paths g s e 10 = Raise x) ->
  find_all_paths g s e max_paths = [].
Proof.
  unfold find_all_paths. intros [H|[H|[x H]]].
  - rewrite H. reflexivity.
  - rewrite H, orb_true_r. reflexivity.
  - rewrite H. destruct (negb _ || negb _); reflexivity.
Qed.
End FindAllPathsFacts.

Lemma find_all_paths_sound_witness :
  exists r,
    In r (find_all_paths (nx := networkx_model 0) test_graph "A" "D" 5) /\
    path r = ["A"; "D"] /\ simple_path test_graph "A" "D" (path r).
Proof.
  eexists. split; [left; reflexivity|]. split; [reflexivity|].
  refine (proj1 (proj2 (proj2 (proj2 (proj2
            (find_all_paths_sound 0 test_graph "A" "D" 5 _ _)))))).
  left. reflexivity.
Defined.

Lemma find_all_paths_sorted_witness :
  Z.of_nat (List.length
              (find_all_paths (nx := networkx_model 0) test_graph "A" "D" 1))
  <= 1.
Proof.
  apply (proj2 (find_all_paths_sorted 0 test_graph "A" "D" 1)). lia.
Defined.


Lemma find_all_paths_empty_witness :
  find_all_paths (nx := networkx_model 0) test_graph "A" "Z" 5 = [].
Proof.
  apply find_all_paths_empty. right. left. reflexivity.
Defined.

(** ** More of [PathFinder] *)

Section PathFinderFacts.
Context {num : Type} {NumOps : PyNum num} {MathOps : PyMath num}.
Implicit Types (g : Graph num) (a b : string).

(** [is_connected] is symmetric and agrees with the neighbour lists. *)
Theorem is_connected_neighbors g a b :
  wf g ->
  is_connected g a b = is_connected g b a /\
  (In b (get_room_neighbors g a) <-> is_connected g a b = true).
Proof.
  intros W. unfold is_connected, has_edge. split.
  - rewrite (wf_sym W). reflexivity.
  - unfold get_room_neighbors.
    destruct (has_node g a) eqn:Ha; cbn [negb].
    + apply neighbors_has_edge.
    + split; [intros []|]. intros H.
      destruct (edge_data g a b) eqn:E; [|discriminate].
      destruct (edge_data_node _ _ W E) as [Ha' _]. congruence.
Qed.

(** A success is only reported for two rooms of the graph, and a
    breadth-first success reports the number of steps of its path. *)
Theorem find_path_success {nx : NetworkX num} g start_room end_room
    algorithm r :
  find_path g start_room end_room algorithm = Ok r -> success r = true ->
  has_node g start_room = true /\ has_node g end_room = true /\
  error r = None /\
  (algorithm = "bfs" ->
   distance r = of_Z (Z.of_nat (List.length (path r)) - 1)).
Proof.
  unfold find_path.
  destruct (has_node g start_room); cbn [negb];
    [|intros [= <-]; discriminate].
  destruct (has_node g end_room); cbn [negb];
    [|intros [= <-]; discriminate].
  destruct (String.eqb start_room end_room).
  { intros [= <-] _. repeat split. }
  destruct (String.eqb algorithm "dijkstra") eqn:Ed.
  { apply String.eqb_eq in Ed. subst algorithm. unfold _find_path_dijkstra.
    destruct (nx_shortest_path _ _ _ _) as [p|[]]; cbn;
      try (intros [= <-]; discriminate).
    destruct (nx_shortest_path_length _ _ _ _) as [d|[]]; cbn;
      intros [= <-]; try discriminate.
    intros _. repeat split. discriminate. }
  destruct (String.eqb algorithm "astar") eqn:Ea.
  { apply String.eqb_eq in Ea. subst algorithm. unfold _find_path_astar.
    destruct (nx_astar_path _ _ _ _) as [p|[]]; cbn;
      try (intros [= <-]; discriminate).
    destruct (nx_astar_path_length _ _ _ _) as [d|[]]; cbn;
      intros [= <-]; try discriminate.
    intros _. repeat split. discriminate. }
  destruct (String.eqb algorithm "bfs") eqn:Eb.
  { unfold _find_path_bfs.
    destruct (nx_shortest_path _ _ _ _) as [p|[]]; cbn;
      intros [= <-]; try discriminate.
    intros _. repeat split. }
  intros [= <-]. discriminate.
Qed.
End PathFinderFacts.

Lemma is_connected_neighbors_witness :
  is_connected test_graph "A" "B" = is_connected test_graph "B" "A" /\
  (In "B" (get_room_neighbors test_graph "A") <->
   is_connected test_graph "A" "B" = true).
Proof.
  apply is_connected_neighbors.
  unfold test_graph. repeat apply add_edge_wf. apply wf_empty.
Defined.

Lemma find_path_success_witness :
  has_node test_graph "A" = true /\ has_node test_graph "D" = true /\
  error (found ["A"; "D"] (PyInt 1)) = None /\
  ("bfs" = "bfs" ->
   distance (found ["A"; "D"] (PyInt 1))
   = of_Z (Z.of_nat (List.length (path (found ["A"; "D"] (PyInt 1)))) - 1)).
Proof.
  apply (find_path_success (nx := networkx_model 5) test_graph "A" "D" "bfs");
    vm_compute; reflexivity.
Defined.

(** ** Path distance on integer weights *)

Section PathDistance.
Implicit Types (g : Graph Z) (p : list string) (u v : string).

(** The weight a step adds: an edge's weight, 1 when the edge has none,
    nothing when there is no edge. *)
Definition step_weight g u v : Z :=
  match edge_data g u v with
  | Some d => weight_of d
  | None => 0
  end.

Fixpoint walk_weight g p : Z :=
  match p with
  | u :: (v :: _) as rest => step_weight g u v + walk_weight g rest
  | _ => 0
  end.

Lemma sum_steps_cons g acc u v r :
  sum_steps g acc (u :: v :: r)
  = sum_steps g (acc + step_weight g u v) (v :: r).
Proof.
  unfold step_weight. cbn [sum_steps].
  destruct (edge_data g u v); [reflexivity|]. rewrite Z.add_0_r. reflexivity.
Qed.

Lemma walk_weight_cons g u v r :
  walk_weight g (u :: v :: r) = step_weight g u v + walk_weight g (v :: r).
Proof. reflexivity. Qed.

Lemma sum_steps_walk g p acc :
  sum_steps g acc p = acc + walk_weight g p.
Proof.
  revert acc. induction p as [|u [|v r] IH]; intros acc.
  - cbn. lia.
  - cbn. lia.
  - rewrite sum_steps_cons, IH, walk_weight_cons. lia.
Qed.

Lemma path_distance_walk g p :
  _calculate_path_distance g p = walk_weight g p.
Proof.
  unfold _calculate_path_distance.
  destruct p as [|u [|v r]]; try reflexivity.
  cbn [List.length Nat.ltb Nat.leb]. rewrite sum_steps_walk. cbn [of_Z PyNum_Z].
  lia.
Qed.

Lemma walk_weight_snoc g p u v :
  walk_weight g ((u :: p) ++ [v])
  = walk_weight g (u :: p) + step_weight g (last (u :: p) v) v.
Proof.
  revert u. induction p as [|w r IH]; intros u.
  - cbn. lia.
  - change ((u :: w :: r) ++ [v]) with (u :: ((w :: r) ++ [v])).
    change ((w :: r) ++ [v]) with (w :: (r ++ [v])) at 1.
    rewrite walk_weight_cons.
    change (w :: (r ++ [v])) with ((w :: r) ++ [v]).
    rewrite IH, walk_weight_cons.
    change (last (u :: w :: r) v) with (last (w :: r) v). lia.
Qed.

Lemma walk_weight_rev g p :
  wf g -> walk_weight g (rev p) = walk_weight g p.
Proof.
  intros W. induction p as [|u [|v r] IH]; try reflexivity.
  change (rev (u :: v :: r)) with (rev (v :: r) ++ [u]).
  assert (Hl : forall d, last (rev (v :: r)) d = v).
  { intros d. cbn [rev]. apply last_last. }
  destruct (rev (v :: r)) as [|x l] eqn:E.
  { apply (f_equal (@List.length _)) in E. rewrite length_rev in E.
    discriminate. }
  rewrite walk_weight_snoc, IH, walk_weight_cons, Hl.
  unfold step_weight. rewrite (wf_sym W v u). lia.
Qed.

(** Walking a path backwards costs the same. *)
Theorem path_distance_rev g p :
  wf g -> _calculate_path_distance g (rev p) = _calculate_path_distance g p.
Proof.
  intros W. rewrite !path_distance_walk. apply walk_weight_rev. exact W.
Qed.

(** Without negative weights no path has a negative distance. *)
Theorem path_distance_nonneg g p :
  nonneg g -> 0 <= _calculate_path_distance g p.
Proof.
  intros Hn. rewrite path_distance_walk.
  induction p as [|u [|v r] IH]; try (cbn; lia).
  rewrite walk_weight_cons.
  assert (0 <= step_weight g u v); [|lia].
  unfold step_weight. destruct (edge_data g u v) as [d|] eqn:E; [|lia].
  destruct (Hn _ _ _ E) as [w [Hw Hp]]. unfold weight_of. rewrite Hw.
  exact Hp.
Qed.
End PathDistance.

Lemma path_distance_rev_witness :
  _calculate_path_distance int_test_graph (rev ["A"; "B"; "C"; "D"])
  = _calculate_path_distance int_test_graph ["A"; "B"; "C"; "D"].
Proof. apply path_distance_rev. exact int_test_graph_wf. Defined.

Lemma path_distance_nonneg_witness :
  0 <= _calculate_path_distance int_test_graph ["A"; "B"; "C"; "D"].
Proof. apply path_distance_nonneg. exact int_test_graph_nonneg. Defined.

(** ** More of [GraphBuilder] *)

Section BuilderNodes.
Context {num : Type} {NumOps : PyNum num} {MathOps : PyMath num}.
Implicit Types (g : Graph num) (fd : FloorData num) (a b u v n : string).

Definition rooms_of fd : list (Room num) :=
  match rooms fd with Some rs => rs | None => [] end.

(** [n] is an end of a door with exactly two connected rooms. *)
Definition door_end (ds : list (Door num)) n : Prop :=
  exists door a b,
    In door ds /\ door_connects door = Some [a; b] /\ (n = a \/ n = b).

(** The attributes of node [n] are as in [g0], or [n] is new and has
    none. *)
Definition node_kept g0 g n : Prop :=
  od_get n (_node g) = od_get n (_node g0) \/
  (od_get n (_node g0) = None /\ od_get n (_node g) = Some no_node_data).

Lemma ensure_node_kept m g n : node_kept g (ensure_node m g) n.
Proof.
  unfold node_kept, ensure_node, has_node, od_mem.
  destruct (od_get m (_node g)) eqn:E; [left; reflexivity|].
  cbn [_node]. rewrite od_get_set.
  destruct (String.eqb m n) eqn:En; [|left; reflexivity].
  apply String.eqb_eq in En; subst n. right. auto.
Qed.

Lemma node_kept_trans g0 g1 g2 n :
  node_kept g0 g1 n -> node_kept g1 g2 n -> node_kept g0 g2 n.
Proof.
  unfold node_kept. intros [H1|[H1 H1']] [H2|[H2 H2']].
  - left. congruence.
  - right. split; congruence.
  - right. split; congruence.
  - congruence.
Qed.

Lemma node_kept_refl g n : node_kept g g n.
Proof. left. reflexivity. Qed.

Lemma add_edge_kept u v attr g n : node_kept g (add_edge u v attr g) n.
Proof.
  rewrite add_edge_unfold. cbn zeta. unfold node_kept at 1. cbn [_node].
  eapply node_kept_trans; apply ensure_node_kept.
Qed.

Lemma add_door_kept g door g' n :
  add_door g door = Ok g' -> node_kept g g' n.
Proof.
  intros H.
  destruct (add_door_ok _ _ H) as [[_ ->]|[a [b [dist [_ [_ ->]]]]]];
    [apply node_kept_refl | apply add_edge_kept].
Qed.

Lemma add_corridor_kept room1 g room2 g' n :
  add_corridor room1 g room2 = Ok g' -> node_kept g g' n.
Proof.
  intros H.
  destruct (add_corridor_ok _ _ _ H) as [->|[_ [dist [w [_ [_ [_ ->]]]]]]];
    [apply node_kept_refl | apply add_edge_kept].
Qed.

Lemma corridor_pairs_kept rs g g' n :
  corridor_pairs rs g = Ok g' -> node_kept g g' n.
Proof.
  revert g. induction rs as [|room1 rest IH]; cbn; intros g H.
  - injection H as <-. apply node_kept_refl.
  - destruct (fold_result (add_corridor room1) rest g) as [g1|e] eqn:E1;
      cbn in H; [|discriminate].
    eapply node_kept_trans; [|apply (IH g1 H)].
    eapply fold_result_inv with (P := fun g' => node_kept g g' n);
      [|apply node_kept_refl | exact E1].
    intros s room2 s' _ Hs Hstep. eapply node_kept_trans; [exact Hs|].
    eapply add_corridor_kept. exact Hstep.
Qed.

Lemma doors_kept (ds : list (Door num)) g g' n :
  fold_result add_door ds g = Ok g' -> node_kept g g' n.
Proof.
  intros H.
  eapply fold_result_inv with (P := fun g' => node_kept g g' n);
    [|apply node_kept_refl | exact H].
  intros s door s' _ Hs Hstep. eapply node_kept_trans; [exact Hs|].
  eapply add_door_kept. exact Hstep.
Qed.

(** After the room pass a listed room has the attributes of a listed
    room that carries its id. *)
Lemma add_rooms_last (rs : list (Room num)) g room :
  In room rs ->
  exists room', In room' rs /\ room_id room' = room_id room /\
    od_get (room_id room)
      (_node (fold_left (fun g r => add_node (room_id r) (room_node r) g)
                rs g))
    = Some (room_node room').
Proof.
  revert g. induction rs as [|r rs IH] using rev_ind; intros g Hin.
  - destruct Hin.
  - rewrite fold_left_app. cbn [fold_left].
    set (g1 := fold_left _ rs g).
    destruct (String.eqb (room_id r) (room_id room)) eqn:E.
    + apply String.eqb_eq in E. exists r.
      split; [apply in_or_app; right; left; reflexivity|].
      split; [exact E|].
      rewrite <- E. unfold add_node.
      destruct (od_get (room_id r) (_node g1)); cbn [_node];
        rewrite od_get_set_eq; reflexivity.
    + apply in_app_or in Hin. destruct Hin as [Hin|[->|[]]].
      2:{ rewrite String.eqb_refl in E. discriminate. }
      destruct (IH g Hin) as [room' [Hin' [Hid Hget]]].
      exists room'. split; [apply in_or_app; left; exact Hin'|].
      split; [exact Hid|].
      fold g1 in Hget. unfold add_node.
      apply String.eqb_neq in E.
      destruct (od_get (room_id r) (_node g1)); cbn [_node];
        rewrite od_get_set_neq by exact E; exact Hget.
Qed.

Lemma add_rooms_nodes (rs : list (Room num)) g n :
  has_node (fold_left (fun g r => add_node (room_id r) (room_node r) g) rs g) n
  = existsb (fun r => String.eqb (room_id r) n) rs || has_node g n.
Proof.
  revert g. induction rs as [|r rs IH]; intros g; cbn [fold_left existsb].
  - reflexivity.
  - rewrite IH, add_node_has_node.
    destruct (String.eqb (room_id r) n), (existsb _ rs); reflexivity.
Qed.

Lemma add_door_nodes g door g' n :
  add_door g door = Ok g' -> has_node g' n = true ->
  has_node g n = true \/
  exists a b, door_connects door = Some [a; b] /\ (n = a \/ n = b).
Proof.
  intros H.
  destruct (add_door_ok _ _ H) as [[_ ->]|[a [b [dist [Hc [_ ->]]]]]];
    [auto|].
  rewrite add_edge_has_node. intros Hn.
  apply orb_true_iff in Hn. destruct Hn as [Hn|Hn]; [|auto].
  right. exists a, b. split; [exact Hc|].
  apply orb_true_iff in Hn. destruct Hn as [Hn|Hn];
    apply String.eqb_eq in Hn; auto.
Qed.

Lemma add_corridor_nodes room1 g room2 g' n :
  add_corridor room1 g room2 = Ok g' ->
  has_node g (room_id room1) = true -> has_node g (room_id room2) = true ->
  has_node g' n = has_node g n.
Proof.
  intros H H1 H2.
  destruct (add_corridor_ok _ _ _ H) as [->|[_ [dist [w [_ [_ [_ ->]]]]]]];
    [reflexivity|].
  rewrite add_edge_has_node.
  destruct (String.eqb (room_id room1) n) eqn:E1.
  { apply String.eqb_eq in E1. subst n. rewrite H1. reflexivity. }
  destruct (String.eqb (room_id room2) n) eqn:E2; [|reflexivity].
  apply String.eqb_eq in E2. subst n. rewrite H2. reflexivity.
Qed.

Lemma corridor_pairs_nodes (rs all : list (Room num)) g g' n :
  incl rs all ->
  (forall r, In r all -> has_node g (room_id r) = true) ->
  corridor_pairs rs g = Ok g' ->
  has_node g' n = has_node g n.
Proof.
  revert g. induction rs as [|room1 rest IH]; cbn; intros g Hi Hall H.
  - injection H as <-. reflexivity.
  - destruct (fold_result (add_corridor room1) rest g) as [g1|e] eqn:E1;
      cbn in H; [|discriminate].
    assert (H1 : In room1 all) by (apply Hi; left; reflexivity).
    assert (Hi' : incl rest all) by (intros x Hx; apply Hi; right; exact Hx).
    assert (Hf : forall m, has_node g1 m = has_node g m).
    { eapply fold_result_inv
        with (P := fun g' => forall m, has_node g' m = has_node g m);
        [|auto | exact E1].
      intros s room2 s' Hin Hs Hstep m.
      rewrite (@add_corridor_nodes room1 s room2 s' m Hstep);
        [apply Hs | |]; rewrite Hs; apply Hall; auto. }
    rewrite (IH g1 Hi'); [apply Hf | | exact H].
    intros r Hr. rewrite Hf. apply Hall. exact Hr.
Qed.

(** A build that returns a graph, pass by pass, over the lists of rooms
    and doors. *)
Lemma build_graph_lists fd g :
  build_graph fd = Ok g ->
  exists g2,
    fold_result add_door (doors_of fd)
      (fold_left (fun g r => add_node (room_id r) (room_node r) g)
         (rooms_of fd) empty_graph) = Ok g2 /\
    corridor_pairs (rooms_of fd) g2 = Ok g.
Proof.
  intros Hb. destruct (build_graph_passes_ok fd Hb) as [_ [g2 [E2 E3]]].
  exists g2. revert E2 E3.
  unfold _add_corridor_connections, _add_door_connections, _add_room_nodes,
    rooms_of, doors_of.
  destruct (rooms fd), (doors fd); cbn [fold_left fold_result corridor_pairs];
    auto.
Qed.

Lemma existsb_room_id (rs : list (Room num)) n :
  existsb (fun r => String.eqb (room_id r) n) rs = true
  <-> In n (map (@room_id num) rs).
Proof.
  rewrite existsb_exists, in_map_iff. split.
  - intros [r [Hin E]]. apply String.eqb_eq in E. eauto.
  - intros [r [E Hin]]. exists r. split; [exact Hin|].
    apply String.eqb_eq. exact E.
Qed.

Lemma node_kept_has_node g0 g n :
  node_kept g0 g n -> has_node g0 n = true -> has_node g n = true.
Proof.
  unfold node_kept, has_node, od_mem. intros [H|[H H']].
  - rewrite H. auto.
  - rewrite H. discriminate.
Qed.

Lemma doors_nodes (ds l : list (Door num)) g g' n :
  incl l ds ->
  fold_result add_door l g = Ok g' ->
  has_node g' n = true ->
  has_node g n = true \/ door_end ds n.
Proof.
  revert g. induction l as [|door l IH]; cbn; intros g Hi H Hn.
  - injection H as <-. auto.
  - destruct (add_door g door) as [g1|e] eqn:E1; cbn in H; [|discriminate].
    destruct (IH g1 (fun x Hx => Hi x (or_intror Hx)) H Hn) as [H'|H'];
      [|auto].
    destruct (add_door_nodes _ _ n E1 H') as [H''|[a [b [Hc Hab]]]]; [auto|].
    right. exists door, a, b. split; [apply Hi; left; reflexivity | auto].
Qed.

(** The nodes of a built graph are the listed rooms and the ends of the
    two-room doors, nothing else; a listed room carries the attributes of
    a listed room with its id, an end of a door that is not a listed room
    carries none. *)
Theorem built_nodes fd g n :
  build_graph fd = Ok g ->
  (has_node g n = true <->
   In n (map (@room_id num) (rooms_of fd)) \/ door_end (doors_of fd) n) /\
  (forall room, In room (rooms_of fd) -> room_id room = n ->
     exists room', In room' (rooms_of fd) /\ room_id room' = n /\
                   od_get n (_node g) = Some (room_node room')) /\
  (has_node g n = true -> ~ In n (map (@room_id num) (rooms_of fd)) ->
   od_get n (_node g) = Some no_node_data).
Proof.
  intros Hb. pose proof (build_graph_inv fd Hb) as [W [_ Hdoor]].
  destruct (build_graph_lists fd Hb) as [g2 [E2 E3]].
  set (rs := rooms_of fd) in *. set (ds := doors_of fd) in *.
  set (g1 := fold_left (fun g r => add_node (room_id r) (room_node r) g)
               rs empty_graph) in *.
  assert (H1 : forall m, has_node g1 m
                         = existsb (fun r => String.eqb (room_id r) m) rs).
  { intros m. unfold g1. rewrite add_rooms_nodes. apply orb_false_r. }
  assert (K12 : forall m, node_kept g1 g2 m)
    by (intros; eapply doors_kept; exact E2).
  assert (K23 : forall m, node_kept g2 g m)
    by (intros; eapply corridor_pairs_kept; exact E3).
  assert (K13 : forall m, node_kept g1 g m)
    by (intros; eapply node_kept_trans; eauto).
  assert (Hrooms2 : forall r, In r rs -> has_node g2 (room_id r) = true).
  { intros r Hr. eapply node_kept_has_node; [apply K12|].
    rewrite H1. apply existsb_room_id. apply in_map. exact Hr. }
  assert (H23 : has_node g n = has_node g2 n).
  { apply corridor_pairs_nodes with (rs := rs) (all := rs);
      [apply incl_refl | exact Hrooms2 | exact E3]. }
  split; [split|split].
  - rewrite H23. intros H.
    destruct (@doors_nodes ds ds g1 g2 n (incl_refl ds) E2 H) as [H'|H'];
      [|auto].
    left. rewrite H1 in H'. apply existsb_room_id. exact H'.
  - intros [H|[door [a [b [Hin [Hc Hn]]]]]].
    + eapply node_kept_has_node; [apply K13|].
      rewrite H1. apply existsb_room_id. exact H.
    + destruct (Hdoor door a b Hin Hc) as [d [Hd _]].
      destruct (edge_data_node _ _ W Hd) as [Ha Hb'].
      destruct Hn as [->| ->]; assumption.
  - intros room Hin Hid. subst n.
    destruct (@add_rooms_last rs empty_graph room Hin)
      as [room' [Hin' [Hid' Hget]]].
    exists room'. split; [exact Hin'|]. split; [exact Hid'|].
    fold g1 in Hget. destruct (K13 (room_id room)) as [K|[K _]]; congruence.
  - intros Hn Hnot.
    assert (Hno : od_get n (_node g1) = None).
    { pose proof (H1 n) as E. unfold has_node, od_mem in E.
      destruct (od_get n (_node g1)); [|reflexivity].
      symmetry in E. apply existsb_room_id in E. contradiction. }
    destruct (K13 n) as [K|[_ K]]; [|exact K].
    unfold has_node, od_mem in Hn. rewrite K, Hno in Hn. discriminate.
Qed.
End BuilderNodes.

Lemma built_nodes_witness :
  exists g,
    build_graph dangling_door_data = Ok g /\
    has_node g "999" = true /\
    od_get "999" (_node g) = Some no_node_data.
Proof.
  destruct (build_graph dangling_door_data) as [g|] eqn:E;
    [|vm_compute in E; discriminate].
  exists g. split; [reflexivity|].
  destruct (built_nodes dangling_door_data "999" E) as [[_ Hi] [_ Hn]].
  assert (H : has_node g "999" = true).
  { apply Hi. right.
    exists {| door_id := "d9"; door_position := pos 200 100;
              door_connects := Some ["101"; "999"] |}, "101", "999".
    split; [left; reflexivity|]. split; [reflexivity | right; reflexivity]. }
  split; [exact H|]. apply Hn; [exact H|].
  cbn. intros [Hx|[Hx|[]]]; discriminate.
Defined.

(** ** Corridors of a built graph *)

Section BuilderCorridors.
Context {num : Type} {NumOps : PyNum num} {MathOps : PyMath num}.
Implicit Types (g : Graph num) (fd : FloorData num) (a b u v n : string).
Implicit Types (rs : list (Room num)) (room : Room num).

(** [r1] stands before [r2] in the list: [r1 = rooms[i]] and [r2] is in
    [rooms[i+1:]]. *)
Definition before rs (r1 r2 : Room num) : Prop :=
  exists l1 l2 l3, rs = l1 ++ r1 :: l2 ++ r2 :: l3.

(** [d] is the attribute dictionary of the corridor the pair [r1], [r2]
    gets, and [a], [b] are its ends. *)
Definition corridor_between (r1 r2 : Room num) a b (d : EdgeData num)
  : Prop :=
  ((a = room_id r1 /\ b = room_id r2) \/ (a = room_id r2 /\ b = room_id r1)) /\
  exists distance weight,
    _calculate_distance (room_center r1) (room_center r2) = Ok distance /\
    nltb distance (of_Z 200) = true /\
    py_mul distance lit_1_2 = Ok weight /\
    d = corridor_edge weight.

(** The pairs the two loops of [_add_corridor_connections] visit, in
    order. *)
Fixpoint pairs rs : list (Room num * Room num) :=
  match rs with
  | [] => []
  | room1 :: rest => map (pair room1) rest ++ pairs rest
  end.

Lemma corridor_pairs_fold rs g :
  corridor_pairs rs g
  = fold_result (fun g p => add_corridor (fst p) g (snd p)) (pairs rs) g.
Proof.
  revert g. induction rs as [|room1 rest IH]; cbn [corridor_pairs pairs];
    intros g; [reflexivity|].
  rewrite fold_result_app, fold_result_map. cbn [fst snd].
  destruct (fold_result _ rest g); cbn [bind]; [apply IH | reflexivity].
Qed.

Lemma In_pairs rs r1 r2 : In (r1, r2) (pairs rs) <-> before rs r1 r2.
Proof.
  split.
  - induction rs as [|r rest IH]; cbn [pairs]; [intros []|].
    intros H. apply in_app_or in H. destruct H as [H|H].
    + apply in_map_iff in H. destruct H as [x [[= <- <-] Hx]].
      apply in_split in Hx. destruct Hx as [l2 [l3 ->]].
      exists [], l2, l3. reflexivity.
    + destruct (IH H) as [l1 [l2 [l3 ->]]].
      exists (r :: l1), l2, l3. reflexivity.
  - intros [l1 [l2 [l3 ->]]]. induction l1 as [|r l1 IH].
    + cbn [app pairs]. apply in_or_app. left. apply in_map.
      apply in_elt.
    + cbn [app pairs]. apply in_or_app. right. exact IH.
Qed.

(** One corridor step in detail. *)
Lemma add_corridor_step r1 g r2 g' a b :
  wf g -> add_corridor r1 g r2 = Ok g' ->
  edge_data g' a b = edge_data g a b \/
  (edge_data g a b = None /\
   exists d, edge_data g' a b = Some d /\ corridor_between r1 r2 a b d).
Proof.
  intros W H.
  destruct (add_corridor_ok _ _ _ H)
    as [->|[Eh [dist [w [Hd [Hl [Hm ->]]]]]]]; [auto|].
  assert (Hn : edge_data g (room_id r1) (room_id r2) = None).
  { unfold has_edge in Eh. destruct (edge_data g _ _); congruence. }
  rewrite add_edge_edge_data by exact W.
  destruct (same_edge _ _ a b) eqn:Es; [|auto].
  right. unfold prior. rewrite Hn, corridor_edge_fresh.
  apply same_edge_true in Es. split.
  - destruct Es as [[<- <-]|[<- <-]]; [exact Hn|].
    rewrite (wf_sym W). exact Hn.
  - eexists. split; [reflexivity|]. split.
    + destruct Es as [[<- <-]|[<- <-]]; auto.
    + exists dist, w. auto.
Qed.

Lemma add_corridor_keeps r1 g r2 g' a b d :
  wf g -> add_corridor r1 g r2 = Ok g' -> edge_data g a b = Some d ->
  edge_data g' a b = Some d.
Proof.
  intros W H Hd.
  destruct (@add_corridor_step r1 g r2 g' a b W H) as [E|[E _]]; congruence.
Qed.

Lemma add_corridor_joins r1 g r2 g' distance :
  wf g -> add_corridor r1 g r2 = Ok g' ->
  _calculate_distance (room_center r1) (room_center r2) = Ok distance ->
  nltb distance (of_Z 200) = true ->
  has_edge g' (room_id r1) (room_id r2) = true.
Proof.
  intros W H Hd Hl. unfold add_corridor in H.
  destruct (has_edge g (room_id r1) (room_id r2)) eqn:Eh.
  { injection H as <-. exact Eh. }
  rewrite Hd in H. cbn [bind] in H. rewrite Hl in H.
  destruct (py_mul distance lit_1_2) as [w|e]; cbn [bind] in H;
    [|discriminate].
  injection H as <-. apply add_edge_creates_endpoints. exact W.
Qed.

(** What the corridor pass keeps, relative to its starting graph [g0]
    and the room list [all]. *)
Definition corridors_inv (all : list (Room num)) g0 g : Prop :=
  wf g /\
  (forall a b d, edge_data g0 a b = Some d -> edge_data g a b = Some d) /\
  (forall a b d,
      edge_data g a b = Some d ->
      edge_data g0 a b = Some d \/
      (edge_data g0 a b = None /\
       exists r1 r2, before all r1 r2 /\ corridor_between r1 r2 a b d)).

Lemma corridors_inv_step all g0 g r1 r2 g' :
  before all r1 r2 -> add_corridor r1 g r2 = Ok g' ->
  corridors_inv all g0 g -> corridors_inv all g0 g'.
Proof.
  intros Hb H [W [Hk Hs]].
  split; [eapply add_corridor_wf; [exact W | exact H]|]. split.
  - intros a b d Hd.
    apply (@add_corridor_keeps r1 g r2 g' a b d W H). apply Hk, Hd.
  - intros a b d Hd.
    destruct (@add_corridor_step r1 g r2 g' a b W H) as [E|[E [d' [E' Hc]]]].
    + rewrite E in Hd. apply Hs, Hd.
    + right. rewrite E' in Hd. injection Hd as <-. split.
      * destruct (edge_data g0 a b) as [d0|] eqn:E0; [|reflexivity].
        apply Hk in E0. congruence.
      * exists r1, r2. split; assumption.
Qed.

Lemma corridor_pass all g0 g :
  wf g0 -> corridor_pairs all g0 = Ok g -> corridors_inv all g0 g.
Proof.
  intros W H. rewrite corridor_pairs_fold in H.
  eapply fold_result_inv with (P := corridors_inv all g0); [| |exact H].
  - intros s [r1 r2] s' Hin Hi Hstep.
    apply (@corridors_inv_step all g0 s r1 r2 s'); [|exact Hstep | exact Hi].
    apply In_pairs. exact Hin.
  - split; [exact W|]. split; auto.
Qed.

Lemma bind_ok {A B} (r : result A) (k : A -> result B) (y : B) :
  (x <- r ;; k x) = Ok y -> exists x, r = Ok x /\ k x = Ok y.
Proof. destruct r as [x|e]; cbn; [eauto | discriminate]. Qed.

Lemma corridor_pass_joins all g0 g (r1 r2 : Room num) distance :
  wf g0 -> corridor_pairs all g0 = Ok g -> before all r1 r2 ->
  _calculate_distance (room_center r1) (room_center r2) = Ok distance ->
  nltb distance (of_Z 200) = true ->
  has_edge g (room_id r1) (room_id r2) = true.
Proof.
  intros W H Hb Hd Hl. rewrite corridor_pairs_fold in H.
  apply In_pairs in Hb. apply in_split in Hb. destruct Hb as [p1 [p2 E]].
  rewrite E, fold_result_app in H.
  apply bind_ok in H. destruct H as [ga [Ha H]].
  cbn [fold_result fst snd] in H.
  apply bind_ok in H. destruct H as [gb [Hstep H]].
  assert (Wa : wf ga).
  { eapply fold_result_inv with (P := @wf num); [|exact W | exact Ha].
    intros s p s' _ Ws Hs.
    eapply add_corridor_wf; [exact Ws | exact Hs]. }
  pose proof (@add_corridor_joins r1 ga r2 gb distance Wa Hstep Hd Hl) as He.
  unfold has_edge in *.
  destruct (edge_data gb (room_id r1) (room_id r2)) as [d|] eqn:Eb;
    [|discriminate].
  assert (Hk : wf g /\ edge_data g (room_id r1) (room_id r2) = Some d).
  { eapply fold_result_inv
      with (P := fun g => wf g /\
                          edge_data g (room_id r1) (room_id r2) = Some d);
      [| |exact H].
    - intros s p s' _ [Ws Hg] Hs.
      split; [eapply add_corridor_wf; [exact Ws | exact Hs]|].
      exact (@add_corridor_keeps (fst p) s (snd p) s' _ _ d Ws Hs Hg).
    - split; [|exact Eb].
      eapply add_corridor_wf; [exact Wa | exact Hstep]. }
  destruct Hk as [_ Hk]. rewrite Hk. reflexivity.
Qed.

Lemma doors_only_fold (ds l : list (Door num)) g g' :
  incl l ds -> wf g ->
  (forall a b d, edge_data g a b = Some d -> door_made ds a b d) ->
  fold_result add_door l g = Ok g' ->
  forall a b d, edge_data g' a b = Some d -> door_made ds a b d.
Proof.
  revert g. induction l as [|door l IH]; cbn [fold_result];
    intros g Hl W Hg H.
  - injection H as <-. exact Hg.
  - apply bind_ok in H. destruct H as [g1 [E1 H]].
    assert (Hin : In door ds) by (apply Hl; left; reflexivity).
    apply (IH g1); [| |  | exact H].
    + intros x Hx. apply Hl. right. exact Hx.
    + eapply add_door_wf; [exact W | exact E1].
    + intros a b d Hd.
      destruct (add_door_edge ds door a b W Hin E1 Hd) as [Hd'|Hm];
        [apply Hg, Hd' | exact Hm].
Qed.

(** The two passes that add edges, for a build that succeeds: [g2] is
    the graph after the doors. *)
Lemma build_graph_passes fd g :
  build_graph fd = Ok g ->
  exists g2,
    wf g2 /\
    (forall a b d,
        edge_data g2 a b = Some d -> door_made (doors_of fd) a b d) /\
    (forall door a b,
        In door (doors_of fd) -> door_connects door = Some [a; b] ->
        door_at (doors_of fd) g2 a b) /\
    corridor_pairs (rooms_of fd) g2 = Ok g /\
    corridors_inv (rooms_of fd) g2 g.
Proof.
  intros Hb. destruct (build_graph_lists fd Hb) as [g2 [E2 E3]].
  set (g1 := fold_left (fun g r => add_node (room_id r) (room_node r) g)
               (rooms_of fd) empty_graph) in *.
  assert (H1 : wf g1 /\ forall a b, edge_data g1 a b = None).
  { unfold g1. apply fold_left_inv
      with (P := fun g => wf g /\ forall a b, edge_data g a b = None).
    - intros s r _ [Ws Hs]. split; [apply add_node_wf, Ws|].
      intros a b. rewrite add_node_edge_data by exact Ws. apply Hs.
    - split; [apply wf_empty | reflexivity]. }
  destruct H1 as [W1 He1].
  assert (Hf1 : from_data (doors_of fd) g1).
  { intros a b d. rewrite He1. discriminate. }
  destruct (add_doors_inv (ds := doors_of fd) (l := doors_of fd)
              (incl_refl _) W1 Hf1 E2) as [W2 [_ [_ Hn]]].
  exists g2. split; [exact W2|]. split.
  { apply (@doors_only_fold (doors_of fd) (doors_of fd) g1 g2);
      [apply incl_refl | exact W1 | | exact E2].
    intros a b d. rewrite He1. discriminate. }
  split; [exact Hn|]. split; [exact E3|].
  apply corridor_pass; assumption.
Qed.

Lemma no_door_joins (ds : list (Door num)) g2 a b :
  wf g2 ->
  (forall door a b,
      In door ds -> door_connects door = Some [a; b] -> door_at ds g2 a b) ->
  edge_data g2 a b = None ->
  forall door, In door ds -> ~ joins door a b.
Proof.
  intros W2 Hd2 Hnone door Hin [Hj|Hj].
  - destruct (Hd2 door a b Hin Hj) as [d0 [E _]]. congruence.
  - destruct (Hd2 door b a Hin Hj) as [d0 [E _]].
    rewrite (wf_sym W2) in E. congruence.
Qed.

(** Every edge of a built graph is a door's or a corridor's: it carries
    the attributes of a two-room door between its ends, or it joins two
    listed rooms closer than 200 that no two-room door joins, with the
    type ['corridor'] and 1.2 times their distance as its weight. *)
Theorem built_edge_kinds fd g a b d :
  build_graph fd = Ok g -> edge_data g a b = Some d ->
  door_made (doors_of fd) a b d \/
  ((exists r1 r2, before (rooms_of fd) r1 r2 /\ corridor_between r1 r2 a b d)
   /\ forall door, In door (doors_of fd) -> ~ joins door a b).
Proof.
  intros Hb Hd.
  destruct (build_graph_passes fd Hb) as [g2 [W2 [Hf2 [Hd2 [_ [_ [_ Hs]]]]]]].
  destruct (Hs a b d Hd) as [H|[Hnone Hc]].
  - left. apply Hf2, H.
  - right. split; [exact Hc|]. eapply no_door_joins; eassumption.
Qed.

(** Two listed rooms closer than 200 are joined in the built graph, by a
    door or by a corridor. *)
Theorem nearby_rooms_connected fd g (r1 r2 : Room num) distance :
  build_graph fd = Ok g -> before (rooms_of fd) r1 r2 ->
  _calculate_distance (room_center r1) (room_center r2) = Ok distance ->
  nltb distance (of_Z 200) = true ->
  has_edge g (room_id r1) (room_id r2) = true /\
  has_edge g (room_id r2) (room_id r1) = true.
Proof.
  intros Hb Hbef Hd Hl.
  destruct (build_graph_passes fd Hb) as [g2 [W2 [_ [_ [Hg [W _]]]]]].
  assert (H : has_edge g (room_id r1) (room_id r2) = true).
  { exact (@corridor_pass_joins (rooms_of fd) g2 g r1 r2 distance
             W2 Hg Hbef Hd Hl). }
  split; [exact H|]. unfold has_edge in *. rewrite (wf_sym W). exact H.
Qed.

(** The connection type in a built graph: it does not depend on the
    order of the two rooms; it is ['door'] exactly when a two-room door
    lists them, ['corridor'] exactly when they are joined and no
    two-room door lists them, and [None] exactly when the second room is
    not among the connections of the first. *)
Theorem connection_type_built fd g a b :
  build_graph fd = Ok g ->
  get_connection_type g a b = get_connection_type g b a /\
  (get_connection_type g a b = Some "door" <->
   exists door, In door (doors_of fd) /\ joins door a b) /\
  (get_connection_type g a b = Some "corridor" <->
   has_edge g a b = true /\
   forall door, In door (doors_of fd) -> ~ joins door a b) /\
  (get_connection_type g a b = None <-> ~ In b (get_room_connections g a)).
Proof.
  intros Hb.
  destruct (build_graph_passes fd Hb)
    as [g2 [W2 [Hf2 [Hd2 [_ [W [Hk Hs]]]]]]].
  assert (K : forall d,
             edge_data g a b = Some d ->
             (e_type d = Some "door" /\
              exists door, In door (doors_of fd) /\ joins door a b) \/
             (e_type d = Some "corridor" /\
              forall door, In door (doors_of fd) -> ~ joins door a b)).
  { intros d Hd. destruct (Hs a b d Hd) as [H|[Hnone [r1 [r2 [_ Hc]]]]].
    - left. destruct (Hf2 a b d H) as [door [dist [Hin [Hj [_ ->]]]]].
      split; [reflexivity|]. exists door. split; assumption.
    - right. destruct Hc as [_ [dist [w [_ [_ [_ ->]]]]]].
      split; [reflexivity|].
      eapply no_door_joins; [exact W2 | exact Hd2 | exact Hnone]. }
  assert (D : forall door,
             In door (doors_of fd) -> joins door a b ->
             exists d, edge_data g a b = Some d /\ e_type d = Some "door").
  { intros door Hin Hj.
    assert (Hat : door_at (doors_of fd) g2 a b).
    { destruct Hj as [Hj|Hj]; [apply (Hd2 door a b Hin Hj)|].
      destruct (Hd2 door b a Hin Hj) as [d [E Hm]].
      exists d. split; [rewrite (wf_sym W2); exact E|].
      apply door_made_sym, Hm. }
    destruct Hat as [d [E [door' [dist [_ [_ [_ ->]]]]]]].
    exists (door_edge door' dist). split; [apply Hk, E | reflexivity]. }
  unfold get_connection_type, get_room_connections.
  split; [rewrite (wf_sym W); reflexivity|].
  split; [|split].
  - split.
    + destruct (edge_data g a b) as [d|] eqn:E; [|discriminate].
      intros Ht. destruct (K d eq_refl) as [[_ H]|[Ht' _]];
        [exact H | congruence].
    + intros [door [Hin Hj]]. destruct (D door Hin Hj) as [d [-> Ht]].
      exact Ht.
  - unfold has_edge. split.
    + destruct (edge_data g a b) as [d|] eqn:E; [|discriminate].
      intros Ht. destruct (K d eq_refl) as [[Ht' _]|[_ H]];
        [congruence | split; [reflexivity | exact H]].
    + destruct (edge_data g a b) as [d|] eqn:E; [|intros [? _]; discriminate].
      intros [_ Hno]. destruct (K d eq_refl) as [[_ [door [Hin Hj]]]|[Ht _]];
        [|exact Ht].
      exfalso. exact (Hno door Hin Hj).
  - split.
    + intros Ht Hin.
      assert (He : has_edge g a b = true).
      { destruct (has_node g a); [|destruct Hin].
        apply neighbors_has_edge. exact Hin. }
      unfold has_edge in He.
      destruct (edge_data g a b) as [d|] eqn:E; [|discriminate].
      destruct (K d eq_refl) as [[Ht' _]|[Ht' _]]; congruence.
    + intros Hnot. destruct (edge_data g a b) as [d|] eqn:E; [|reflexivity].
      exfalso. apply Hnot. destruct (edge_data_node _ _ W E) as [Ha _].
      rewrite Ha. apply neighbors_has_edge. unfold has_edge. rewrite E.
      reflexivity.
Qed.
End BuilderCorridors.

Lemma built_edge_kinds_witness :
  exists g d,
    build_graph corridor_data = Ok g /\
    edge_data g "101" "103" = Some d /\
    (door_made (doors_of corridor_data) "101" "103" d \/
     ((exists r1 r2,
          before (rooms_of corridor_data) r1 r2 /\
          corridor_between r1 r2 "101" "103" d) /\
      forall door,
        In door (doors_of corridor_data) -> ~ joins door "101" "103")).
Proof.
  eexists. eexists. split; [vm_compute; reflexivity|].
  split; [vm_compute; reflexivity|].
  eapply (@built_edge_kinds _ _ _ corridor_data);
    [vm_compute; reflexivity | vm_compute; reflexivity].
Defined.

Lemma nearby_rooms_connected_witness :
  exists g,
    build_graph corridor_data = Ok g /\
    has_edge g "102" "103" = true /\ has_edge g "103" "102" = true.
Proof.
  eexists. split; [vm_compute; reflexivity|].
  eapply (@nearby_rooms_connected _ _ _ corridor_data _
            {| room_id := "102"; room_name := "Room 102";
               room_center := pos 300 100;
               room_bounds := box 250 50 100 100 |}
            {| room_id := "103"; room_name := "Room 103";
               room_center := pos 220 100;
               room_bounds := box 170 50 100 100 |}).
  - vm_compute. reflexivity.
  - exists [ {| room_id := "101"; room_name := "Room 101";
                room_center := pos 100 100;
                room_bounds := box 50 50 100 100 |} ], [], [].
    reflexivity.
  - vm_compute. reflexivity.
  - vm_compute. reflexivity.
Defined.

Lemma connection_type_built_witness :
  exists g,
    build_graph corridor_data = Ok g /\
    (get_connection_type g "101" "102" = Some "door" <->
     exists door, In door (doors_of corridor_data) /\
                  joins door "101" "102").
Proof.
  eexists. split; [vm_compute; reflexivity|].
  apply (@connection_type_built _ _ _ corridor_data).
  vm_compute. reflexivity.
Defined.

(** ** Directions *)

Section Directions.
Context {num : Type}.
Implicit Types (rs : list (Room num)) (path : list string) (n verb : string).
Implicit Types (fd : FloorData num) (d : odict (Room num)).
Local Open Scope nat_scope.

Lemma rooms_fold_get rs d n room :
  od_get n (fold_left (fun d r => od_set (room_id r) r d) rs d) = Some room ->
  (In room rs /\ room_id room = n) \/ od_get n d = Some room.
Proof.
  revert d. induction rs as [|r rs IH]; cbn [fold_left]; intros d H;
    [auto|].
  destruct (IH _ H) as [[Hin Hid]|H']; [left; split; [right|]; assumption|].
  rewrite od_get_set in H'. destruct (String.eqb (room_id r) n) eqn:E.
  - injection H' as <-. apply String.eqb_eq in E. left.
    split; [left; reflexivity | exact E].
  - auto.
Qed.

Lemma rooms_fold_mem rs d n :
  In n (map (@room_id num) rs) \/ od_mem n d = true ->
  od_mem n (fold_left (fun d r => od_set (room_id r) r d) rs d) = true.
Proof.
  revert d. induction rs as [|r rs IH]; cbn [fold_left map]; intros d H.
  - destruct H as [[]|H]. exact H.
  - apply IH. destruct H as [[H|H]|H]; [| left; exact H |].
    + right. rewrite od_mem_set, H, String.eqb_refl. reflexivity.
    + right. rewrite od_mem_set, H. apply orb_true_r.
Qed.

Lemma direction_listed verb rs n :
  In n (map (@room_id num) rs) ->
  exists room,
    In room rs /\ room_id room = n /\
    direction verb (rooms_by_id rs) n = [(verb ++ room_name room)%string].
Proof.
  intros H. unfold direction, rooms_by_id.
  pose proof (@rooms_fold_mem rs [] n (or_introl H)) as Hm.
  unfold od_mem in Hm.
  destruct (od_get n (fold_left (fun d r => od_set (room_id r) r d) rs []))
    as [room|] eqn:E; [|discriminate].
  destruct (rooms_fold_get _ _ _ E) as [[Hin Hid]|H']; [|discriminate].
  exists room. split; [exact Hin|]. split; [exact Hid | reflexivity].
Qed.

Lemma direction_unlisted verb rs n :
  ~ In n (map (@room_id num) rs) -> direction verb (rooms_by_id rs) n = [].
Proof.
  intros H. unfold direction, rooms_by_id.
  destruct (od_get n (fold_left (fun d r => od_set (room_id r) r d) rs []))
    as [room|] eqn:E; [|reflexivity].
  destruct (rooms_fold_get _ _ _ E) as [[Hin Hid]|H']; [|discriminate].
  exfalso. apply H. subst n. apply in_map. exact Hin.
Qed.

Lemma directions_listed verb rs l :
  (forall n, In n l -> In n (map (@room_id num) rs)) ->
  List.length (flat_map (direction verb (rooms_by_id rs)) l) = List.length l.
Proof.
  induction l as [|n l IH]; cbn [flat_map List.length]; intros H;
    [reflexivity|].
  destruct (@direction_listed verb rs n (H n (or_introl eq_refl)))
    as [room [_ [_ ->]]].
  cbn [app List.length]. rewrite IH; [reflexivity|].
  intros m Hm. apply H. right. exact Hm.
Qed.

Lemma middle_length path :
  List.length (middle path) = List.length path - 2.
Proof.
  unfold middle. destruct path as [|a [|b l]]; try reflexivity.
  cbn [tl]. assert (H : b :: l <> []) by discriminate.
  destruct (exists_last H) as [l' [x E]]. rewrite E, removelast_last.
  cbn [List.length]. rewrite length_app. cbn. lia.
Qed.

Lemma middle_incl path n : In n (middle path) -> In n path.
Proof.
  unfold middle. destruct path as [|a l]; cbn [tl].
  - intros [].
  - intros H. right. destruct l as [|b l]; [destruct H|].
    assert (Hne : b :: l <> []) by discriminate.
    destruct (exists_last Hne) as [l' [x E]]. rewrite E in *.
    rewrite removelast_last in H. apply in_or_app. left. exact H.
Qed.

Lemma last_In_path path n : path <> [] -> In (last path n) path.
Proof.
  intros H. destruct (exists_last H) as [l' [x ->]].
  rewrite last_last. apply in_or_app. right. left. reflexivity.
Qed.

(** A path of two or more listed rooms gets one sentence for each room:
    the first names the first room, the last names the last room. *)
Theorem generate_directions_listed path fd rs :
  rooms fd = Some rs -> 2 <= List.length path ->
  (forall n, In n path -> In n (map (@room_id num) rs)) ->
  exists ds first_room last_room,
    generate_directions path fd = Ok ds /\
    List.length ds = List.length path /\
    In first_room rs /\ room_id first_room = hd "" path /\
    In last_room rs /\ room_id last_room = last path "" /\
    hd_error ds = Some ("Start at " ++ room_name first_room)%string /\
    last ds "" = ("Arrive at " ++ room_name last_room)%string.
Proof.
  intros Hr Hlen Hall. unfold generate_directions.
  assert (E : Nat.ltb (List.length path) 2 = false)
    by (apply Nat.ltb_ge; exact Hlen).
  rewrite E, Hr. cbn zeta.
  assert (Hne : path <> []) by (intros ->; cbn in Hlen; lia).
  assert (Hhd : In (hd "" path) path).
  { destruct path; [congruence | left; reflexivity]. }
  destruct (@direction_listed "Start at " rs _ (Hall _ Hhd))
    as [r1 [Hin1 [Hid1 E1]]].
  destruct (@direction_listed "Arrive at " rs _
              (Hall _ (last_In_path "" Hne))) as [rn [Hinn [Hidn En]]].
  eexists. exists r1, rn. split; [reflexivity|].
  rewrite E1, En.
  split.
  { rewrite !length_app, directions_listed, middle_length; [cbn; lia|].
    intros n Hn. apply Hall, middle_incl, Hn. }
  split; [exact Hin1|]. split; [exact Hid1|].
  split; [exact Hinn|]. split; [exact Hidn|].
  split; [reflexivity|].
  rewrite app_assoc. apply last_last.
Qed.

Definition listed rs n : bool :=
  existsb (String.eqb n) (map (@room_id num) rs).

Lemma listed_In rs n : listed rs n = true <-> In n (map (@room_id num) rs).
Proof.
  unfold listed. rewrite existsb_exists. split.
  - intros [m [Hin E]]. apply String.eqb_eq in E. subst m. exact Hin.
  - intros H. exists n. split; [exact H | apply String.eqb_refl].
Qed.

Lemma directions_count verb rs l :
  List.length (flat_map (direction verb (rooms_by_id rs)) l)
  = List.length (filter (listed rs) l).
Proof.
  induction l as [|n l IH]; cbn [flat_map filter]; [reflexivity|].
  rewrite length_app, IH. destruct (listed rs n) eqn:E.
  - apply listed_In in E.
    destruct (@direction_listed verb rs n E) as [room [_ [_ ->]]].
    reflexivity.
  - rewrite direction_unlisted; [reflexivity|].
    intros H. apply listed_In in H. congruence.
Qed.

Lemma path_split path :
  2 <= List.length path ->
  path = hd "" path :: middle path ++ [last path ""].
Proof.
  destruct path as [|a [|b l]]; cbn [List.length]; try lia. intros _.
  unfold middle. cbn [hd tl].
  assert (H : b :: l <> []) by discriminate.
  destruct (exists_last H) as [l' [x E]]. rewrite E.
  rewrite removelast_last.
  change (a :: l' ++ [x]) with ((a :: l') ++ [x]). rewrite last_last.
  reflexivity.
Qed.

(** The directions have one sentence for each node of the path that is
    a listed room; a node that is not, such as the far end of a door to
    an unlisted room, is left out without a notice. *)
Theorem generate_directions_count path fd rs :
  rooms fd = Some rs -> 2 <= List.length path ->
  exists ds,
    generate_directions path fd = Ok ds /\
    List.length ds = List.length (filter (listed rs) path).
Proof.
  intros Hr Hlen. unfold generate_directions.
  assert (E : Nat.ltb (List.length path) 2 = false)
    by (apply Nat.ltb_ge; exact Hlen).
  rewrite E, Hr. cbn zeta. eexists. split; [reflexivity|].
  pose proof (@path_split path Hlen) as Hs.
  transitivity
    (List.length
       (filter (listed rs) ([hd "" path] ++ middle path ++ [last path ""]))).
  - rewrite !filter_app, !length_app.
    rewrite <- (directions_count "Start at " rs [hd "" path]).
    rewrite <- (directions_count "Continue to " rs (middle path)).
    rewrite <- (directions_count "Arrive at " rs [last path ""]).
    cbn [flat_map]. rewrite !app_nil_r. reflexivity.
  - change ([hd "" path] ++ middle path ++ [last path ""])
      with (hd "" path :: middle path ++ [last path ""]).
    rewrite <- Hs. reflexivity.
Qed.
End Directions.

Lemma generate_directions_listed_witness :
  exists ds,
    generate_directions ["101"; "102"] sample_data = Ok ds /\
    hd_error ds = Some "Start at Room 101" /\
    last ds "" = "Arrive at Room 102".
Proof.
  destruct (@generate_directions_listed pynum ["101"; "102"] sample_data
              sample_rooms eq_refl (le_n 2))
    as [ds [r1 [rn [Hd [_ [_ [_ [_ [_ [H1 Hn]]]]]]]]]].
  - intros n [<-|[<-|[]]]; vm_compute; auto.
  - exists ds. split; [exact Hd|].
    vm_compute in Hd. injection Hd as <-. split; reflexivity.
Defined.

Lemma generate_directions_count_witness :
  exists ds,
    generate_directions ["101"; "999"; "102"] dangling_door_data = Ok ds /\
    List.length ds = 2%nat.
Proof.
  apply (@generate_directions_count pynum ["101"; "999"; "102"]
           dangling_door_data sample_rooms eq_refl).
  cbn. lia.
Defined.

(** ** [get_shortest_distance] on every graph *)

Section ShortestDistance.
Context {num : Type} {NumOps : PyNum num} {MathOps : PyMath num}.
Variable fuel : nat.
Implicit Types (g : Graph num) (s e : string).

(** The two answers that need no search: a starting room that is not in
    the graph makes the call raise [NodeNotFound], whatever the
    destination; from a room of the graph to itself the distance is 0. *)
Theorem get_shortest_distance_start g s e :
  (has_node g s = false ->
   get_shortest_distance (nx := networkx_model fuel) g s e
   = Raise (NodeNotFound ("Node " ++ s ++ " not found in graph"))) /\
  (has_node g s = true ->
   get_shortest_distance (nx := networkx_model fuel) g s s = Ok (of_Z 0)).
Proof.
  unfold get_shortest_distance.
  cbn [nx_shortest_path_length networkx_model].
  unfold shortest_path_length, dijkstra_path_length.
  split; intros ->; cbn [negb]; [reflexivity|].
  rewrite String.eqb_refl. reflexivity.
Qed.
End ShortestDistance.

Lemma get_shortest_distance_start_witness :
  get_shortest_distance (nx := networkx_model 0) test_graph "X" "A"
  = Raise (NodeNotFound "Node X not found in graph") /\
  get_shortest_distance (nx := networkx_model 0) test_graph "A" "A"
  = Ok (PyInt 0).
Proof.
  split.
  - apply (proj1 (@get_shortest_distance_start _ _ 0 test_graph "X" "A")).
    reflexivity.
  - exact (proj2 (@get_shortest_distance_start _ _ 0 test_graph "A" "A")
             eq_refl).
Defined.

(** ** Every edge is listed by [G.edges] *)

Section EdgesComplete.
Variable num : Type.
Implicit Types (g : Graph num) (u v a b n : string).




End EdgesComplete.

(** ** The claims about the reweighting *)

Section JohnsonClaims.
Variable fuel : nat.
Implicit Types (g : Graph Z) (a b n : string).





End JohnsonClaims.





(** C2 on the graph with the one edge A-B of weight -1: the call raises
    [ValueError], and the caller's graph, which had no node ['source'],
    is left with that node and its zero-weight edges to A and B. *)
Theorem negative_cycle_leaves_source (k : nat) :
  has_node negative_edge_graph "source" = false /\
  exists g',
    find_shortest_path (nx := networkx_model k) negative_edge_graph "A" "B"
    = (Raise (ValueError "Graph contains a negative-weight cycle"), g') /\
    has_node g' "source" = true /\
    option_map (@e_weight Z) (edge_data g' "source" "A") = Some (Some 0) /\
    option_map (@e_weight Z) (edge_data g' "source" "B") = Some (Some 0) /\
    edge_data g' "A" "B" = edge_data negative_edge_graph "A" "B".
Proof.
  split; [reflexivity|]. eexists. split; [vm_compute; reflexivity|].
  split; [reflexivity|]. split; [reflexivity|]. split; reflexivity.
Qed.

(** ** The contract of [find_all_paths] *)

Section FindAllPathsContract.
Context {num : Type} {NumOps : PyNum num} {MathOps : PyMath num}.
Variable fuel : nat.
Implicit Types (g : Graph num) (s e : string).

(** C8: [find_all_paths] returns a list and raises nothing (every
    exception is caught); no returned path visits a node twice; the
    results are in ascending order of the number of steps, which
    [steps] reports; and the list is empty when a room is not in the
    graph and when no simple path of at most 10 steps joins the two
    rooms. *)
Theorem find_all_paths_contract g s e max_paths :
  (forall r,
      In r (find_all_paths (nx := networkx_model fuel) g s e max_paths) ->
      NoDup (path r) /\
      steps r = Some (Z.of_nat (List.length (path r)) - 1)) /\
  StronglySorted
    (fun r1 r2 => (List.length (path r1) <= List.length (path r2))%nat)
    (find_all_paths (nx := networkx_model fuel) g s e max_paths) /\
  (has_node g s = false \/ has_node g e = false ->
   find_all_paths (nx := networkx_model fuel) g s e max_paths = []) /\
  ((forall p, simple_path g s e p -> (List.length p <= 11)%nat -> False) ->
   find_all_paths (nx := networkx_model fuel) g s e max_paths = []).
Proof.
  assert (Hmiss : has_node g s = false \/ has_node g e = false ->
                  find_all_paths (nx := networkx_model fuel) g s e max_paths
                  = []).
  { unfold find_all_paths. intros [H|H]; rewrite H; [reflexivity|].
    rewrite orb_true_r. reflexivity. }
  destruct (has_node g s) eqn:Hs.
  2:{ rewrite Hmiss by auto. split; [intros r []|]. split; [constructor|].
      split; reflexivity. }
  destruct (has_node g e) eqn:He.
  2:{ rewrite Hmiss by auto. split; [intros r []|]. split; [constructor|].
      split; reflexivity. }
  destruct (find_all_paths_known fuel g s e max_paths Hs He)
    as [all [Ha Hf]].
  rewrite Hf.
  assert (Hsound : forall p, In p (slice_to max_paths (sort_by_len all)) ->
                             simple_path g s e p /\
                             (List.length p <= 11)%nat).
  { intros p Hp. apply slice_to_incl in Hp.
    apply (Permutation_in _ (sort_by_len_perm all)) in Hp.
    exact (@all_simple_paths_sound _ g s e 10 all p Hs He Ha Hp). }
  split; [|split; [|split]].
  - intros r Hin. apply in_map_iff in Hin. destruct Hin as [p [<- Hp]].
    split; [|reflexivity]. cbn [path alternative].
    destruct (Hsound p Hp) as [[_ [_ [_ [Hnd _]]]] _]. exact Hnd.
  - apply Sorted_StronglySorted.
    { intros x y z Hxy Hyz. lia. }
    apply Sorted_map with (R := shorter); [auto|].
    apply slice_to_sorted, sort_by_len_sorted.
  - intros [H|H]; discriminate.
  - intros Hnone.
    destruct (slice_to max_paths (sort_by_len all)) as [|p l] eqn:E;
      [reflexivity|].
    exfalso. destruct (Hsound p (or_introl eq_refl)) as [Hsp Hlen].
    exact (Hnone p Hsp Hlen).
Qed.
End FindAllPathsContract.

Lemma find_all_paths_contract_witness :
  find_all_paths (nx := networkx_model 0) test_graph "A" "Z" 5 = [].
Proof.
  destruct (find_all_paths_contract 0 test_graph "A" "Z" 5) as [_ [_ [H _]]].
  apply H. right. reflexivity.
Defined.
